(** * matshitlab: the notebook's evaluator and its numeric value types

    A shallow embedding of [src/lib/Workspace.ts], [src/lib/Signal.ts] and
    [src/lib/Matrix.ts].  JavaScript numbers are IEEE-754 binary64 values and
    are modelled by Rocq's primitive floats; strings are modelled by [string]
    (one [ascii] per code unit); the [Map] that holds the Workspace's variables
    is a [gmap]; thrown exceptions are the [Throw] branch of a result type.
    What the host (the JavaScript engine) provides -- [Number], [String],
    [JSON.parse], the [Math] functions, the largest typed array -- is gathered
    in the class [Host]. *)

From Stdlib Require Import ZArith List String Ascii Bool Lia ZifyNat Floats.
From stdpp Require Import base option list gmap strings.
Import ListNotations.

Set Warnings "-register-all,-inexact-float".
Local Open Scope Z_scope.
Local Open Scope list_scope.

(* ------------------------------------------------------------------------- *)
(** ** JavaScript strings *)

Module Str.

Definition dquote : string := String (ascii_of_nat 34) EmptyString.
Definition newline : ascii := ascii_of_nat 10.
Definition tab : ascii := ascii_of_nat 9.

(** White space and line terminators, as [String.prototype.trim] and the
    regular expression class [\s] read them, among the code units below
    256: tab, line feed, vertical tab, form feed, carriage return, space
    and the no-break space. *)
Definition isWhitespace (c : ascii) : bool :=
  let n := nat_of_ascii c in
  (Nat.eqb n 9 || Nat.eqb n 10 || Nat.eqb n 11 || Nat.eqb n 12
   || Nat.eqb n 13 || Nat.eqb n 32 || Nat.eqb n 160)%bool.

(** The class [\w]: letters, digits and the underscore. *)
Definition isWordChar (c : ascii) : bool :=
  let n := nat_of_ascii c in
  ((48 <=? n) && (n <=? 57) || (65 <=? n) && (n <=? 90)
   || (97 <=? n) && (n <=? 122) || Nat.eqb n 95)%bool%nat.

Definition isEmpty (s : string) : bool :=
  match s with EmptyString => true | String _ _ => false end.

Fixpoint trimStart (s : string) : string :=
  match s with
  | EmptyString => EmptyString
  | String c s' => if isWhitespace c then trimStart s' else s
  end.

Fixpoint trimEnd (s : string) : string :=
  match s with
  | EmptyString => EmptyString
  | String c s' =>
      let t := trimEnd s' in
      if (isWhitespace c && isEmpty t)%bool then EmptyString else String c t
  end.

(** [s.trim()] *)
Definition trim (s : string) : string := trimEnd (trimStart s).

(** [s.split(sep)] for a separator of one character. *)
Fixpoint split (sep : ascii) (s : string) : list string :=
  match s with
  | EmptyString => [EmptyString]
  | String c s' =>
      if Ascii.eqb c sep then EmptyString :: split sep s'
      else match split sep s' with
           | h :: t => String c h :: t
           | [] => [String c EmptyString]
           end
  end.

(** [s.includes(c)] for a pattern of one character. *)
Fixpoint includes (c : ascii) (s : string) : bool :=
  match s with
  | EmptyString => false
  | String d s' => (Ascii.eqb d c || includes c s')%bool
  end.

(** [s.startsWith(p)] *)
Fixpoint startsWith (p s : string) : bool :=
  match p, s with
  | EmptyString, _ => true
  | String a p', String b s' => (Ascii.eqb a b && startsWith p' s')%bool
  | String _ _, EmptyString => false
  end.

(** [s.indexOf(p)]: the first position at which [p] occurs, or -1. *)
Fixpoint indexOf (p s : string) : Z :=
  if startsWith p s then 0
  else match s with
       | EmptyString => -1
       | String _ s' =>
           let i := indexOf p s' in if i <? 0 then -1 else i + 1
       end.

Fixpoint drop (n : nat) (s : string) : string :=
  match n, s with
  | O, _ => s
  | S n', String _ s' => drop n' s'
  | S _, EmptyString => EmptyString
  end.

Fixpoint take (n : nat) (s : string) : string :=
  match n, s with
  | O, _ => EmptyString
  | S n', String c s' => String c (take n' s')
  | S _, EmptyString => EmptyString
  end.

(** [s.substring(a, b)]: both ends are clamped to [0, length] and swapped
    when they come in the wrong order. *)
Definition substring (a b : Z) (s : string) : string :=
  let len := Z.of_nat (String.length s) in
  let a' := Z.min (Z.max a 0) len in
  let b' := Z.min (Z.max b 0) len in
  let lo := Z.min a' b' in
  let hi := Z.max a' b' in
  take (Z.to_nat (hi - lo)) (drop (Z.to_nat lo) s).

(** [s.replace(/\s+/g, empty)]: every run of whitespace is removed. *)
Fixpoint removeWhitespace (s : string) : string :=
  match s with
  | EmptyString => EmptyString
  | String c s' =>
      if isWhitespace c then removeWhitespace s'
      else String c (removeWhitespace s')
  end.

(** [s.replace(/'/g, dquote)] *)
Fixpoint singleToDoubleQuotes (s : string) : string :=
  match s with
  | EmptyString => EmptyString
  | String c s' =>
      (if Ascii.eqb c (ascii_of_nat 39) then dquote else String c EmptyString)
        +:+ singleToDoubleQuotes s'
  end.

(** [l.join(sep)] *)
Fixpoint join (sep : string) (l : list string) : string :=
  match l with
  | [] => EmptyString
  | [x] => x
  | x :: rest => x +:+ sep +:+ join sep rest
  end.

End Str.

(* ------------------------------------------------------------------------- *)
(** ** Errors and results ([types/index.ts]) *)

(** The classification carried by a [SimulationError]. *)
Inductive ErrorType := validation | computation | runtime | memory.

(** The errors the engine itself throws. *)
Inductive NativeKind := TypeError | RangeError | SyntaxError.

Inductive JsError :=
| SimulationError (message : string) (type : ErrorType)
                  (originalError : option JsError)
| NativeError (name : NativeKind) (message : string)
| PlainError (message : string).

(** [err.message] *)
Definition message (e : JsError) : string :=
  match e with
  | SimulationError m _ _ => m
  | NativeError _ m => m
  | PlainError m => m
  end.

(** The classification of an error, when it has one. *)
Definition errorType (e : JsError) : option ErrorType :=
  match e with
  | SimulationError _ t _ => Some t
  | _ => None
  end.

(** A call either returns or throws. *)
Inductive Result (A : Type) :=
| Ok (a : A)
| Throw (e : JsError).
Arguments Ok {A} a.
Arguments Throw {A} e.

Definition bind {A B} (r : Result A) (k : A -> Result B) : Result B :=
  match r with
  | Ok a => k a
  | Throw e => Throw e
  end.

Notation "'let*' x ':=' c 'in' k" := (bind c (fun x => k))
  (at level 10, x pattern, c at level 100, k at level 200).

(** [try { r } catch (error) { throw h(error) }] *)
Definition tryCatch {A} (r : Result A) (h : JsError -> JsError) : Result A :=
  match r with
  | Ok a => Ok a
  | Throw e => Throw (h e)
  end.

(** [SimulationResult<T>]; [computationTime] reads the wall clock and is left
    out. *)
Record SimulationResult (T : Type) := mkResult {
  res_data : T;
  memoryUsed : float;
  precision : float;
  success : bool
}.
Arguments mkResult {T}.
Arguments res_data {T}.
Arguments memoryUsed {T}.
Arguments precision {T}.
Arguments success {T}.

(** The values [JSON.parse] produces. *)
Inductive json :=
| JNull
| JBool (b : bool)
| JNumber (x : float)
| JString (s : string)
| JArray (items : list json)
| JObject (fields : list (string * json)).

(* ------------------------------------------------------------------------- *)
(** ** Numbers *)

Module Num.

Definition PI : float := 0x1.921fb54442d18p+1%float.

Definition signedZ (s : bool) (m : positive) : Z :=
  if s then Z.neg m else Z.pos m.

(** The integer below a finite number; [None] for NaN and the infinities. *)
Definition floorZ (x : float) : option Z :=
  match Prim2SF x with
  | S754_zero _ => Some 0
  | S754_finite s m e =>
      Some (if 0 <=? e then signedZ s m * 2 ^ e
            else signedZ s m / 2 ^ (- e))
  | _ => None
  end.

(** The integer part of a finite number (rounding towards zero). *)
Definition truncZ (x : float) : option Z :=
  match Prim2SF x with
  | S754_zero _ => Some 0
  | S754_finite s m e =>
      Some (if 0 <=? e then signedZ s m * 2 ^ e
            else Z.quot (signedZ s m) (2 ^ (- e)))
  | _ => None
  end.

(** The number nearest to an integer. *)
Definition ofZ (z : Z) : float :=
  SF2Prim (binary_normalize prec emax z 0 false).

Definition ofNat (n : nat) : float := ofZ (Z.of_nat n).

(** [Math.floor]: a number without a fractional part is its own floor, and
    the floor of any other is an integer below 2^53 in absolute value. *)
Definition floor (x : float) : float :=
  match Prim2SF x with
  | S754_finite s m e =>
      if 0 <=? e then x
      else
        let z := signedZ s m / 2 ^ (- e) in
        if z =? 0 then zero else ofZ z
  | _ => x
  end.

(** [Math.sign] *)
Definition sign (x : float) : float :=
  if is_nan x then nan
  else if is_zero x then x
  else if (x <? 0)%float then (-1)%float else 1%float.

(** [isNaN(x)] on a number. *)
Definition isNaN (x : float) : bool := is_nan x.

(** An infinity or NaN. *)
Definition unbounded (x : float) : Prop :=
  match Prim2SF x with
  | S754_infinity _ | S754_nan => True
  | _ => False
  end.

(** A zero or NaN. *)
Definition null (x : float) : Prop :=
  match Prim2SF x with
  | S754_zero _ | S754_nan => True
  | _ => False
  end.

End Num.

(* ------------------------------------------------------------------------- *)
(** ** The host *)

(** What the JavaScript engine supplies.  [Math.sin] and its companions are
    implementation-approximated; [Number(s)] and [String(x)] convert between
    numbers and their decimal notation; [JSON_parse] returns [None] where
    [JSON.parse] throws a [SyntaxError]; [maxTypedArrayLength] is the longest
    [Float64Array] the engine allocates; the three messages are those of its
    own errors. *)
Class Host := {
  Math_sin : float -> float;
  Math_cos : float -> float;
  Math_exp : float -> float;
  Math_log : float -> float;
  Math_pow : float -> float -> float;
  Number : string -> float;
  numberToString : float -> string;
  JSON_parse : string -> option json;
  maxTypedArrayLength : Z;
  rangeErrorMessage : string;
  typeErrorMessage : string
}.

(** The values the language standard fixes for the [Math] functions at NaN and
    at the infinities, and the range of the sine. *)
Class HostLaws (H : Host) : Prop := {
  sin_nan : Math_sin nan = nan;
  cos_nan : Math_cos nan = nan;
  exp_nan : Math_exp nan = nan;
  log_nan : Math_log nan = nan;
  log_infinity : Math_log infinity = infinity;
  log_neg_infinity : Math_log neg_infinity = nan;
  sin_range : forall x,
    is_nan (Math_sin x) = true \/ (abs (Math_sin x) <=? 1)%float = true
}.

(** The values the language standard fixes for [Math.pow] with the exponent
    2 at a zero and at NaN. *)
Class PowLaws (H : Host) : Prop := {
  pow_zero : Math_pow zero 2%float = zero;
  pow_nan : Math_pow nan 2%float = nan
}.

(** The error of reading a property of [undefined]. *)
Definition typeError {H : Host} : JsError :=
  NativeError TypeError typeErrorMessage.

(* ------------------------------------------------------------------------- *)
(** ** Typed arrays *)

Section TypedArrays.
Context {H : Host}.

(** [new Float64Array(len)]: the length goes through [ToIndex] (NaN is 0, a
    fraction is dropped); a negative, infinite or too large length is a
    [RangeError].  The array starts filled with zeros. *)
Definition newFloat64Array (len : float) : Result nat :=
  if is_nan len then Ok O
  else match Num.truncZ len with
       | Some z =>
           if ((z <? 0) || (maxTypedArrayLength <? z))%bool
           then Throw (NativeError RangeError rangeErrorMessage)
           else Ok (Z.to_nat z)
       | None => Throw (NativeError RangeError rangeErrorMessage)
       end.

(** [for (let i = 0; i < n; i++) a[i] = f(i)] on a fresh array of length
    [n]. *)
Definition fillArray (n : nat) (f : nat -> float) : list float :=
  fold_left (fun a i => <[i := f i]> a) (seq 0 n) (replicate n zero).

End TypedArrays.

(* ------------------------------------------------------------------------- *)
(** ** [Signal.ts], the class with windows, chirps and decomposition *)

Module Signal.

Record Signal := mkSignal {
  data : list float;
  sampleRate : float;
  metadata : gmap string float
}.

Record ChirpOptions := mkChirpOptions {
  startFreq : float;
  endFreq : float;
  duration : float;
  method : option bool;      (* [Some true]: "linear", [Some false]: "exponential" *)
  optSampleRate : option float
}.

Inductive WindowType := hamming | hanning | blackman | rectangular.
Inductive DecomposeMethod := emd | ssa | pca.
Inductive EnvelopeType := envMax | envMin.

(** The error of the constructor on data that holds NaN. *)
Definition invalidData : JsError :=
  SimulationError "Invalid signal data: array must contain only numbers"
    validation None.

Section WithHost.
Context {H : Host}.

(** [validateData]: on an array of numbers, the first test
    ([Array.isArray]) holds and the second rejects NaN. *)
Definition validateData (d : list float) : Result unit :=
  if forallb (fun v => negb (Num.isNaN v)) d then Ok tt
  else Throw invalidData.

(** [new Signal(data, sampleRate)] *)
Definition newSignal (d : list float) (rate : float) : Result Signal :=
  let* _ := validateData d in
  Ok (mkSignal d rate ∅).

Definition setMetadata (key : string) (value : float) (s : Signal) : Signal :=
  mkSignal (data s) (sampleRate s) (<[key := value]> (metadata s)).

Definition getData (s : Signal) : list float := data s.

Definition generateSine (frequency duration rate amplitude phase : float)
  : Result (SimulationResult Signal) :=
  tryCatch
    (let samples := Num.floor (duration * rate) in
     let* n := newFloat64Array samples in
     let omega := (2 * Num.PI * frequency)%float in
     let d := fillArray n (fun i =>
                (amplitude
                 * Math_sin ((omega * Num.ofNat i) / rate + phase))%float) in
     let* signal := newSignal d rate in
     let signal := setMetadata "frequency" frequency signal in
     let signal := setMetadata "duration" duration signal in
     let signal := setMetadata "amplitude" amplitude signal in
     let signal := setMetadata "phase" phase signal in
     Ok (mkResult signal (Num.ofNat (length d) * 8)%float 64%float true))
    (fun error =>
       SimulationError "Failed to generate sine signal" computation
         (Some error)).

Definition generateSquare (frequency duration rate amplitude : float)
  : Result (SimulationResult Signal) :=
  tryCatch
    (let samples := Num.floor (duration * rate) in
     let* n := newFloat64Array samples in
     let d := fillArray n (fun i =>
                (amplitude
                 * Num.sign (Math_sin ((2 * Num.PI * frequency * Num.ofNat i)
                                       / rate)))%float) in
     let* signal := newSignal d rate in
     Ok (mkResult signal (Num.ofNat (length d) * 8)%float 64%float true))
    (fun error =>
       SimulationError "Failed to generate square signal" computation
         (Some error)).

Definition generateChirp (options : ChirpOptions)
  : Result (SimulationResult Signal) :=
  let linear := default true (method options) in
  let rate := default 44100%float (optSampleRate options) in
  let f0 := startFreq options in
  let f1 := endFreq options in
  let numSamples := Num.floor (duration options * rate) in
  let* n := newFloat64Array numSamples in
  let d :=
    if linear then
      let freqSlope := ((f1 - f0) / duration options)%float in
      fillArray n (fun i =>
        let t := (Num.ofNat i / rate)%float in
        Math_sin (2 * Num.PI * (f0 * t + (freqSlope * t * t) / 2))%float)
    else
      let freqRatio := (f1 / f0)%float in
      let freqScale := (Math_log freqRatio / duration options)%float in
      fillArray n (fun i =>
        let t := (Num.ofNat i / rate)%float in
        Math_sin ((2 * Num.PI * f0 * (Math_exp (freqScale * t) - 1))
                  / freqScale)%float) in
  let* signal := newSignal d rate in
  Ok (mkResult signal (numSamples * 8)%float 64%float true).

Definition windowFactor (w : WindowType) (N i : nat) : float :=
  match w with
  | hamming =>
      (0.54 - 0.46 * Math_cos ((2 * Num.PI * Num.ofNat i)
                               / (Num.ofNat N - 1)))%float
  | hanning =>
      (0.5 * (1 - Math_cos ((2 * Num.PI * Num.ofNat i)
                            / (Num.ofNat N - 1))))%float
  | _ => zero
  end.

Definition applyWindow (self : Signal) (window : WindowType)
  : Result (SimulationResult Signal) :=
  tryCatch
    (let N := length (data self) in
     let windowData :=
       match window with
       | hamming | hanning =>
           fillArray N (fun i =>
             (nth i (data self) nan * windowFactor window N i)%float)
       | _ => replicate N zero
       end in
     let* signal := newSignal windowData (sampleRate self) in
     Ok (mkResult signal (Num.ofNat (length windowData) * 8)%float
           64%float true))
    (fun error =>
       SimulationError "Failed to apply window" computation (Some error)).

(** [computeEnvelope]: the interior strict extrema, then at every index
    the mean of their values weighted by the inverse squared distance. *)
Definition isExtremum (type : EnvelopeType) (d : list float) (i : nat)
  : bool :=
  let x := nth i d nan in
  let l := nth (i - 1) d nan in
  let r := nth (i + 1) d nan in
  match type with
  | envMax => ((l <? x) && (r <? x))%float%bool
  | envMin => ((x <? l) && (x <? r))%float%bool
  end.

Definition findExtrema (type : EnvelopeType) (d : list float)
  : list (nat * float) :=
  fold_left
    (fun extrema i =>
       if isExtremum type d i then extrema ++ [(i, nth i d nan)]
       else extrema)
    (seq 1 (length d - 2)) [].

Definition envelopeAt (extrema : list (nat * float)) (i : nat) : float :=
  let '(numerator, denominator) :=
    fold_left
      (fun '(numerator, denominator) '(idx, val) =>
         let weight :=
           (1 / Math_pow (abs (Num.ofNat i - Num.ofNat idx)) 2)%float in
         ((numerator + val * weight)%float, (denominator + weight)%float))
      extrema (zero, zero) in
  (numerator / denominator)%float.

Definition computeEnvelope (d : list float) (type : EnvelopeType)
  : list float :=
  let extrema := findExtrema type d in
  fold_left (fun envelope i => <[i := envelopeAt extrema i]> envelope)
    (seq 0 (length d)) (replicate (length d) zero).

Definition checkIMFCriterion (current previous : list float) : bool :=
  let threshold := 0.05%float in
  let sum :=
    fold_left
      (fun sum i =>
         let diff := abs (nth i current nan - nth i previous nan) in
         (sum + diff * diff)%float)
      (seq 0 (length current)) zero in
  (sqrt sum <? threshold)%float.

(** One pass of the sifting loop's body. *)
Definition siftStep (imf : list float) : list float :=
  let maxEnv := computeEnvelope imf envMax in
  let minEnv := computeEnvelope imf envMin in
  let mean := imap (fun i v => ((v + nth i minEnv nan) / 2)%float) maxEnv in
  imap (fun i v => (v - nth i mean nan)%float) imf.

(** The [do ... while] loop; [None] when [fuel] passes do not reach the
    criterion. *)
Fixpoint sift (fuel : nat) (imf : list float) : option (list float) :=
  match fuel with
  | O => None
  | S fuel' =>
      let prevImf := imf in
      let imf := siftStep prevImf in
      if checkIMFCriterion imf prevImf then Some imf else sift fuel' imf
  end.

(** The loop over the modes; each mode is sifted with [fuel] passes at
    most. *)
Fixpoint emdModes (fuel : nat) (rate : float) (numModes : nat)
         (residual : list float) (modes : list Signal)
  : option (Result (list Signal)) :=
  match numModes with
  | O => Some (Ok modes)
  | S k =>
      match sift fuel residual with
      | None => None
      | Some imf =>
          match newSignal imf rate with
          | Throw e => Some (Throw e)
          | Ok s =>
              emdModes fuel rate k
                (imap (fun i v => (v - nth i imf nan)%float) residual)
                (modes ++ [s])
          end
      end
  end.

(** [decompose]: the modes are computed and the payload that is returned
    is the empty array. *)
Definition decompose (fuel : nat) (self : Signal)
           (method : DecomposeMethod) (numModes : nat)
  : option (Result (SimulationResult (list Signal))) :=
  let computed :=
    match method with
    | emd => emdModes fuel (sampleRate self) numModes (data self) []
    | _ => Some (Ok [])
    end in
  match computed with
  | None => None
  | Some (Throw e) => Some (Throw e)
  | Some (Ok modes) => Some (Ok (mkResult [] zero 64%float true))
  end.

(** [getMetadata]: [None] stands for [undefined]. *)
Definition getMetadata (key : string) (s : Signal) : option float :=
  metadata s !! key.

Definition getSampleRate (s : Signal) : float := sampleRate s.

End WithHost.
End Signal.

(* ------------------------------------------------------------------------- *)
(** ** [Signal.ts], the class with the Fourier transform *)

Module Signal2.

Record Complex := mkComplex { re : float; im : float }.

Record Signal := mkSignal {
  data : list float;
  sampleRate : float
}.

(** [new Signal(data)]: no validation, the sample rate defaults to 1000. *)
Definition newSignal (d : list float) : Signal := mkSignal d 1000%float.

Definition complexMultiply (a b : Complex) : Complex :=
  mkComplex (re a * re b - im a * im b)%float
            (re a * im b + im a * re b)%float.

Definition complexAdd (a b : Complex) : Complex :=
  mkComplex (re a + re b)%float (im a + im b)%float.

Definition complexSubtract (a b : Complex) : Complex :=
  mkComplex (re a - re b)%float (im a - im b)%float.

(** No slot of the array is empty. *)
Definition filled (a : list (option Complex)) : Prop :=
  Forall (fun c => is_Some c) a.

(** [l.filter((_, i) => p(i))] *)
Definition filterIndex {A} (p : nat -> bool) (l : list A) : list A :=
  map snd (filter (fun ix => p (fst ix) = true) (zip (seq 0 (length l)) l)).

Section WithHost.
Context {H : Host}.

(** An array whose slots may be empty: [new Array(N)] has [N] empty
    slots, and reading an empty or a missing slot gives [undefined]. *)
Definition slot (a : list (option Complex)) (k : nat) : option Complex :=
  match a !! k with
  | Some (Some c) => Some c
  | _ => None
  end.

(** The body of the butterfly loop at index [k].  Reading [re] of
    [undefined] is a [TypeError].  [N / 2] is a fraction when [N] is odd,
    and [result[k + N / 2]] then names no element of the array. *)
Definition butterfly (N : nat) (even odd : list (option Complex))
           (result : list (option Complex)) (k : nat)
  : Result (list (option Complex)) :=
  let t := mkComplex
             (Math_cos ((-2 * Num.PI * Num.ofNat k) / Num.ofNat N)%float)
             (Math_sin ((-2 * Num.PI * Num.ofNat k) / Num.ofNat N)%float) in
  match slot odd k with
  | None => Throw typeError
  | Some o =>
      let oddK := complexMultiply t o in
      match slot even k with
      | None => Throw typeError
      | Some e =>
          let result := <[k := Some (complexAdd e oddK)]> result in
          Ok (if Nat.even N
              then <[(k + N / 2)%nat := Some (complexSubtract e oddK)]> result
              else result)
      end
  end.

(** [for (let k = 0; k < N / 2; k++)]: the indices [k] with [2 k < N]. *)
Fixpoint butterflies (N : nat) (even odd : list (option Complex))
         (ks : list nat) (result : list (option Complex))
  : Result (list (option Complex)) :=
  match ks with
  | [] => Ok result
  | k :: ks' =>
      let* result := butterfly N even odd result k in
      butterflies N even odd ks' result
  end.

(** [fft], with [depth] bounding the nesting of the recursive calls. *)
Fixpoint fftAt (depth : nat) (d : list float)
  : Result (list (option Complex)) :=
  let N := length d in
  if (N <=? 1)%nat then Ok (map (fun x => Some (mkComplex x zero)) d)
  else
    match depth with
    | O => Throw (NativeError RangeError rangeErrorMessage)
    | S depth' =>
        let* even := fftAt depth' (filterIndex Nat.even d) in
        let* odd := fftAt depth' (filterIndex Nat.odd d) in
        butterflies N even odd (seq 0 ((N + 1) / 2)%nat) (replicate N None)
    end.

(** [this.fft()]: the halves are shorter than the whole, so a depth equal
    to the length is never exhausted (lemma [fftAt_cases]). *)
Definition fft (self : Signal) : Result (list (option Complex)) :=
  fftAt (length (data self)) (data self).

(** [add]: the sum keeps the sample rate of the receiver. *)
Definition add (self other : Signal) : Result Signal :=
  if negb (Nat.eqb (length (data self)) (length (data other)))
  then Throw (PlainError "Signals must have the same length")
  else Ok (mkSignal
             (imap (fun i val => (val + nth i (data other) nan)%float)
                (data self))
             (sampleRate self)).

(** [multiply(scalar)] *)
Definition multiply (self : Signal) (scalar : float) : Signal :=
  mkSignal (map (fun val => (val * scalar)%float) (data self))
    (sampleRate self).

End WithHost.
End Signal2.

(* ------------------------------------------------------------------------- *)
(** ** [Matrix.ts], the class whose product returns a [SimulationResult] *)

Module Matrix.

(** The cells are numbers in [Matrix.ts]; the Workspace also builds matrices
    from whatever [JSON.parse] returned, hence the parameter. *)
Record Matrix (A : Type) := mkMatrix { data : list (list A) }.
Arguments mkMatrix {A}.
Arguments data {A}.

Section Construction.
Context {A : Type}.

(** [validateData] on an array of arrays: [data[0]] must exist and every
    row must have its length. *)
Definition validateData (d : list (list A)) : Result unit :=
  match d with
  | [] => Throw (SimulationError "Invalid matrix data: expected 2D array"
                   validation None)
  | row0 :: _ =>
      let width := length row0 in
      if forallb (fun row => Nat.eqb (length row) width) d then Ok tt
      else Throw (SimulationError
                    "Invalid matrix data: rows must have equal length"
                    validation None)
  end.

(** [new Matrix(data)] *)
Definition newMatrix (d : list (list A)) : Result (Matrix A) :=
  let* _ := validateData d in
  Ok (mkMatrix d).

Definition getData (m : Matrix A) : list (list A) := data m.

(** [toString], given how a cell is printed. *)
Definition toString (showNat : nat -> string) (show : A -> string)
           (m : Matrix A) : string :=
  "Matrix[" +:+ showNat (length (data m)) +:+ "x"
    +:+ showNat (length (hd [] (data m))) +:+ "]"
    +:+ String Str.newline EmptyString
    +:+ Str.join (String Str.newline EmptyString)
          (map (fun row => Str.join (String Str.tab EmptyString)
                             (map show row))
               (data m)).
End Construction.

(** The error of a product whose inner dimensions differ. *)
Definition dimensionError : JsError :=
  SimulationError "Invalid matrix dimensions for multiplication"
    validation None.

Section Product.
Context {H : Host}.

(** [this.data[i][k]]; a missing cell reads as [undefined], which is NaN
    in a product. *)
Definition cell (d : list (list float)) (i k : nat) : float :=
  nth k (nth i d []) nan.

(** The innermost loop: [sum += this.data[i][k] * other.data[k][j]]. *)
Definition dot (a b : list (list float)) (p i j : nat) : float :=
  fold_left (fun sum k => (sum + cell a i k * cell b k j)%float)
    (seq 0 p) zero.

(** The two outer loops, writing [result[i][j]]. *)
Definition productLoops (a b : list (list float)) (m n p : nat)
  : list (list float) :=
  fold_left
    (fun result i =>
       fold_left
         (fun result j =>
            <[i := <[j := dot a b p i j]> (nth i result [])]> result)
         (seq 0 n) result)
    (seq 0 m) (replicate m (replicate n zero)).

Definition multiply (self other : Matrix float)
  : Result (SimulationResult (Matrix float)) :=
  tryCatch
    (match data self with
     | [] => Throw typeError
     | selfRow0 :: _ =>
         if negb (Nat.eqb (length selfRow0) (length (data other)))
         then Throw dimensionError
         else
           match data other with
           | [] => Throw typeError
           | otherRow0 :: _ =>
               let m := length (data self) in
               let n := length otherRow0 in
               let p := length (data other) in
               let result := productLoops (data self) (data other) m n p in
               let* product := newMatrix result in
               Ok (mkResult product
                     (Num.ofNat (length result)
                      * Num.ofNat (length (hd [] result)) * 8)%float
                     64%float true)
           end
     end)
    (fun error =>
       SimulationError "Matrix multiplication failed" computation
         (Some error)).
End Product.
End Matrix.

(* ------------------------------------------------------------------------- *)
(** ** [Matrix.ts], the class with [add], scalar products and [transpose] *)

Module Matrix2.

Record Matrix := mkMatrix { data : list (list float) }.

(** The second operand of [multiply]: [Matrix | number]. *)
Inductive Operand :=
| Scalar (x : float)
| Mat (m : Matrix).

Definition validateData (d : list (list float)) : Result unit :=
  match d with
  | [] => Throw (PlainError "Invalid matrix data")
  | row0 :: _ =>
      let rowLength := length row0 in
      if forallb (fun row => Nat.eqb (length row) rowLength) d then Ok tt
      else Throw (PlainError "All rows must have the same length")
  end.

(** [new Matrix(data)]; the rows are copied. *)
Definition newMatrix (d : list (list float)) : Result Matrix :=
  let* _ := validateData d in
  Ok (mkMatrix (map (fun row => row) d)).

Section WithHost.
Context {H : Host}.

Definition getRows (self : Matrix) : nat := length (data self).

(** [this.data[0].length] *)
Definition getCols (self : Matrix) : Result nat :=
  match data self with
  | [] => Throw typeError
  | row0 :: _ => Ok (length row0)
  end.

Definition get (self : Matrix) (i j : nat) : Result float :=
  let* cols := getCols self in
  if ((getRows self <=? i) || (cols <=? j))%nat%bool
  then Throw (PlainError "Index out of bounds")
  else Ok (nth j (nth i (data self) []) nan).

Definition set (self : Matrix) (i j : nat) (value : float) : Result Matrix :=
  let* cols := getCols self in
  if ((getRows self <=? i) || (cols <=? j))%nat%bool
  then Throw (PlainError "Index out of bounds")
  else Ok (mkMatrix (<[i := <[j := value]> (nth i (data self) [])]>
                       (data self))).

(** The innermost loop of the product. *)
Definition dot (self other : Matrix) (p i j : nat) : Result float :=
  fold_left
    (fun acc k =>
       let* sum := acc in
       let* a := get self i k in
       let* b := get other k j in
       Ok (sum + a * b)%float)
    (seq 0 p) (Ok zero).

(** [result[i] = []] and then [result[i][j] = sum] for [j = 0, 1, ...]:
    each write lengthens the row by one. *)
Definition productRow (self other : Matrix) (n p i : nat)
  : Result (list float) :=
  fold_left
    (fun acc j =>
       let* row := acc in
       let* sum := dot self other p i j in
       Ok (row ++ [sum]))
    (seq 0 n) (Ok []).

Definition productRows (self other : Matrix) (m n p : nat)
  : Result (list (list float)) :=
  fold_left
    (fun acc i =>
       let* result := acc in
       let* row := productRow self other n p i in
       Ok (result ++ [row]))
    (seq 0 m) (Ok []).

Definition multiply (self : Matrix) (other : Operand) : Result Matrix :=
  match other with
  | Scalar x =>
      newMatrix (map (fun row => map (fun val => (val * x)%float) row)
                   (data self))
  | Mat o =>
      let* cols := getCols self in
      if negb (Nat.eqb cols (getRows o))
      then Throw (PlainError "Invalid matrix dimensions for multiplication")
      else
        let* n := getCols o in
        let* result := productRows self o (getRows self) n cols in
        newMatrix result
  end.

(** The two loops of [transpose], writing [result[j][i]]. *)
Definition transposeLoops (d : list (list float)) (rows cols : nat)
  : list (list float) :=
  fold_left
    (fun result i =>
       fold_left
         (fun result j =>
            <[j := <[i := nth j (nth i d []) nan]> (nth j result [])]>
              result)
         (seq 0 cols) result)
    (seq 0 rows) (replicate cols (replicate rows zero)).

Definition transpose (self : Matrix) : Result Matrix :=
  let* cols := getCols self in
  newMatrix (transposeLoops (data self) (getRows self) cols).

(** [row.map((val, j) => val + other.get(i, j))], from column [j] on. *)
Fixpoint addRow (other : Matrix) (i j : nat) (row : list float)
  : Result (list float) :=
  match row with
  | [] => Ok []
  | val :: rest =>
      let* o := get other i j in
      let* sums := addRow other i (S j) rest in
      Ok ((val + o)%float :: sums)
  end.

(** [this.data.map((row, i) => ...)], from row [i] on. *)
Fixpoint addRows (other : Matrix) (i : nat) (rows : list (list float))
  : Result (list (list float)) :=
  match rows with
  | [] => Ok []
  | row :: rest =>
      let* sums := addRow other i 0 row in
      let* below := addRows other (S i) rest in
      Ok (sums :: below)
  end.

Definition add (self other : Matrix) : Result Matrix :=
  if negb (Nat.eqb (getRows self) (getRows other))
  then Throw (PlainError "Matrix dimensions must match")
  else
    let* cols := getCols self in
    let* otherCols := getCols other in
    if negb (Nat.eqb cols otherCols)
    then Throw (PlainError "Matrix dimensions must match")
    else
      let* result := addRows other 0 (data self) in
      newMatrix result.

End WithHost.
End Matrix2.

(* ------------------------------------------------------------------------- *)
(** ** [Workspace.ts] *)

Module Workspace.

(** The four functions [registerBuiltins] installs; no other function value
    exists in a Workspace. *)
Inductive Builtin := sine | square | chirp | matrix.

(** [type WorkspaceValue = Signal | Matrix | number | Function] *)
Inductive WorkspaceValue :=
| VNumber (x : float)
| VSignal (s : Signal.Signal)
| VMatrix (m : Matrix.Matrix json)
| VFunction (f : Builtin).

(** An element of the [any[]] that [parseArguments] returns: an evaluated
    expression, or what [JSON.parse] made of a literal. *)
Inductive Arg :=
| AValue (v : WorkspaceValue)
| AJson (j : json).

Record Workspace := mkWorkspace {
  variables : gmap string WorkspaceValue;
  history : list string
}.

Definition setVariable (name : string) (value : WorkspaceValue)
           (ws : Workspace) : Workspace :=
  mkWorkspace (<[name := value]> (variables ws)) (history ws).

Definition pushHistory (line : string) (ws : Workspace) : Workspace :=
  mkWorkspace (variables ws) (history ws ++ [line]).

(** [getValue] *)
Definition getValue (ws : Workspace) (name : string)
  : option WorkspaceValue :=
  variables ws !! name.

(** [registerBuiltins] *)
Definition registerBuiltins (ws : Workspace) : Workspace :=
  setVariable "matrix" (VFunction matrix)
    (setVariable "chirp" (VFunction chirp)
       (setVariable "square" (VFunction square)
          (setVariable "sine" (VFunction sine) ws))).

(** [new Workspace()] *)
Definition newWorkspace : Workspace :=
  registerBuiltins (mkWorkspace ∅ []).

Definition lparen : ascii := ascii_of_nat 40.
Definition rparen : ascii := ascii_of_nat 41.
Definition equals : ascii := ascii_of_nat 61.
Definition comma : ascii := ascii_of_nat 44.

(** [findMatchingParenthesis], from position [i] on. *)
Fixpoint findMatchingFrom (rest : string) (i count : Z) (startFound : bool)
  : Result Z :=
  match rest with
  | EmptyString =>
      Throw (SimulationError "Unmatched parentheses" validation None)
  | String c rest' =>
      if Ascii.eqb c lparen
      then findMatchingFrom rest' (i + 1) (count + 1) true
      else if Ascii.eqb c rparen
      then if (startFound && (count - 1 =? 0))%bool then Ok i
           else findMatchingFrom rest' (i + 1) (count - 1) startFound
      else findMatchingFrom rest' (i + 1) count startFound
  end.

Definition findMatchingParenthesis (expr : string) : Result Z :=
  findMatchingFrom expr 0 0 false.

(** [argsStr.replace(/(\w+):/g, '"$1":')]: every longest run of word
    characters that a colon follows is put between double quotes. [run] is
    the run being read. *)
Fixpoint quoteKeysFrom (run rest : string) : string :=
  match rest with
  | EmptyString => run
  | String c rest' =>
      if Str.isWordChar c
      then quoteKeysFrom (run +:+ String c EmptyString) rest'
      else if (Ascii.eqb c (ascii_of_nat 58) && negb (Str.isEmpty run))%bool
      then Str.dquote +:+ run +:+ Str.dquote +:+ ":"
             +:+ quoteKeysFrom EmptyString rest'
      else run +:+ String c (quoteKeysFrom EmptyString rest')
  end.

Definition quoteKeys (s : string) : string := quoteKeysFrom EmptyString s.

(** [array.map(f)] where [f] may throw: the first exception ends the
    traversal. *)
Fixpoint mapResult {A B} (f : A -> Result B) (l : list A) : Result (list B) :=
  match l with
  | [] => Ok []
  | x :: rest =>
      let* y := f x in
      let* ys := mapResult f rest in
      Ok (y :: ys)
  end.

(** The last field of that name: a repeated key overrides the earlier
    ones. *)
Fixpoint field (name : string) (fields : list (string * json))
  : option json :=
  match fields with
  | [] => None
  | (k, v) :: rest =>
      match field name rest with
      | Some w => Some w
      | None => if String.eqb k name then Some v else None
      end
  end.

Section WithHost.
Context {H : Host}.

(** [String(j)] on a parsed value; inside an array, [null] prints as the
    empty string. *)
Fixpoint jsonToString (j : json) : string :=
  match j with
  | JNull => "null"
  | JBool true => "true"
  | JBool false => "false"
  | JNumber x => numberToString x
  | JString s => s
  | JArray items =>
      Str.join ","
        (map (fun item => match item with
                          | JNull => EmptyString
                          | _ => jsonToString item
                          end) items)
  | JObject _ => "[object Object]"
  end.

(** How a cell of an array prints under [join]. *)
Definition cellToString (j : json) : string :=
  match j with
  | JNull => EmptyString
  | _ => jsonToString j
  end.

(** [ToNumber] on a parsed value. *)
Definition jsonToNumber (j : json) : float :=
  match j with
  | JNull => zero
  | JBool b => if b then one else zero
  | JNumber x => x
  | JString s => Number s
  | JArray _ => Number (jsonToString j)
  | JObject _ => nan
  end.

(** [ToNumber] on an argument: a missing argument is [undefined]; a
    Signal, a Matrix and a function all convert to NaN. *)
Definition toNumber (a : option Arg) : float :=
  match a with
  | Some (AValue (VNumber x)) => x
  | Some (AJson j) => jsonToNumber j
  | _ => nan
  end.

(** A parameter with a default value: the default stands in for
    [undefined] only. *)
Definition withDefault (d : float) (a : option Arg) : float :=
  match a with
  | None => d
  | Some _ => toNumber a
  end.

(** [new Matrix(data)] on an argument of any kind; the parameter defaults
    to the grid with one empty row. *)
Definition rowOf (j : json) : option (list json) :=
  match j with
  | JArray cells => Some cells
  | _ => None
  end.

Definition newMatrixOf (a : option Arg) : Result (Matrix.Matrix json) :=
  match a with
  | None => Matrix.newMatrix [[]]
  | Some (AJson (JArray (JArray row0 :: rest))) =>
      let width := length row0 in
      if forallb (fun row => match rowOf row with
                             | Some cells => Nat.eqb (length cells) width
                             | None => false
                             end) rest
      then Ok (Matrix.mkMatrix
                 (row0 :: map (fun row => default [] (rowOf row)) rest))
      else Throw (SimulationError
                    "Invalid matrix data: rows must have equal length"
                    validation None)
  | Some _ =>
      Throw (SimulationError "Invalid matrix data: expected 2D array"
               validation None)
  end.

(** The destructuring of the option bag of [generateChirp].  Taking a
    property of [undefined] or [null] is a [TypeError]; a Signal has a
    [sampleRate] of its own; a property that is absent is [undefined].
    The numbers are read through [ToNumber], as the arithmetic of the
    generator reads them. *)
Definition chirpOptionsOf (a : option Arg) : Result Signal.ChirpOptions :=
  match a with
  | None | Some (AJson JNull) =>
      Throw typeError
  | Some (AJson (JObject fields)) =>
      let num name := match field name fields with
                      | Some j => jsonToNumber j
                      | None => nan
                      end in
      Ok (Signal.mkChirpOptions
            (num "startFreq") (num "endFreq") (num "duration")
            (match field "method" fields with
             | None => None
             | Some (JString m) => Some (String.eqb m "linear")
             | Some _ => Some false
             end)
            (match field "sampleRate" fields with
             | None => None
             | Some j => Some (jsonToNumber j)
             end))
  | Some (AValue (VSignal s)) =>
      Ok (Signal.mkChirpOptions nan nan nan None
            (Some (Signal.sampleRate s)))
  | Some _ => Ok (Signal.mkChirpOptions nan nan nan None None)
  end.

(** [func(...args)] for each of the four functions. *)
Definition applyBuiltin (f : Builtin) (args : list Arg)
  : Result WorkspaceValue :=
  match f with
  | sine =>
      let* result :=
        Signal.generateSine (toNumber (args !! 0%nat))
          (toNumber (args !! 1%nat))
          (withDefault 44100%float (args !! 2%nat)) 1%float 0%float in
      Ok (VSignal (res_data result))
  | square =>
      let* result :=
        Signal.generateSquare (toNumber (args !! 0%nat))
          (toNumber (args !! 1%nat))
          (withDefault 44100%float (args !! 2%nat)) 1%float in
      Ok (VSignal (res_data result))
  | chirp =>
      let* options := chirpOptionsOf (args !! 0%nat) in
      let* result := Signal.generateChirp options in
      Ok (VSignal (res_data result))
  | matrix =>
      let* m := newMatrixOf (args !! 0%nat) in
      Ok (VMatrix m)
  end.

(** [formatOutput] *)
Definition formatOutput (value : WorkspaceValue) : string :=
  match value with
  | VSignal s =>
      let d := Signal.getData s in
      "Signal[" +:+ numberToString (Num.ofNat (length d))
        +:+ " samples] = ["
        +:+ Str.join ", " (map numberToString (take 5 d)) +:+ "...]"
  | VMatrix m =>
      Matrix.toString (fun n => numberToString (Num.ofNat n))
        cellToString m
  | VFunction _ => "[Function]"
  | VNumber x => numberToString x
  end.

(** [parseArguments], given the evaluator for the arguments that are
    not numerals. *)
Definition parseArguments (evaluate : string -> Result WorkspaceValue)
           (argsStr funcName : string) : Result (list Arg) :=
  if Str.isEmpty argsStr then Ok []
  else if String.eqb funcName "matrix" then
    match JSON_parse (Str.removeWhitespace argsStr) with
    | Some j => Ok [AJson j]
    | None =>
        Throw (SimulationError "Invalid matrix format" validation None)
    end
  else if (String.eqb funcName "chirp" && Str.startsWith "{" argsStr)%bool
  then
    match JSON_parse (Str.singleToDoubleQuotes (quoteKeys argsStr)) with
    | Some options => Ok [AJson options]
    | None =>
        Throw (SimulationError "Invalid options object format"
                 validation None)
    end
  else
    mapResult
      (fun arg =>
         let trimmed := Str.trim arg in
         let num := Number trimmed in
         if negb (Num.isNaN num) then Ok (AValue (VNumber num))
         else let* v := evaluate trimmed in Ok (AValue v))
      (Str.split comma argsStr).

(** [evaluateFunctionCall], given the evaluator for its arguments. *)
Definition evaluateFunctionCall
           (evaluate : string -> Result WorkspaceValue)
           (vars : gmap string WorkspaceValue) (expr : string)
  : Result WorkspaceValue :=
  let funcName :=
    Str.trim (Str.substring 0 (Str.indexOf "(" expr) expr) in
  let* close := findMatchingParenthesis expr in
  let argsStr :=
    Str.trim (Str.substring (Str.indexOf "(" expr + 1) close expr) in
  match vars !! funcName with
  | Some (VFunction func) =>
      let* args := parseArguments evaluate argsStr funcName in
      applyBuiltin func args
  | _ =>
      Throw (SimulationError
               ("Function '" +:+ funcName +:+ "' is not defined")
               validation None)
  end.

(** [evaluateExpression], with [depth] bounding the nesting of calls. *)
Fixpoint evaluateExpressionAt (depth : nat)
         (vars : gmap string WorkspaceValue) (expr : string)
  : Result WorkspaceValue :=
  if Str.isEmpty expr
  then Throw (SimulationError "Empty expression" validation None)
  else if Str.includes lparen expr then
    match depth with
    | O => Throw (NativeError RangeError rangeErrorMessage)
    | S depth' =>
        evaluateFunctionCall (evaluateExpressionAt depth' vars) vars expr
    end
  else if negb (Num.isNaN (Number expr)) then Ok (VNumber (Number expr))
  else match vars !! expr with
       | Some value => Ok value
       | None =>
           Throw (SimulationError
                    ("Cannot evaluate expression: '" +:+ expr +:+ "'")
                    validation None)
       end.

(** [this.evaluateExpression(expr)]: an argument is shorter than the call
    it stands in, so a depth equal to the length of [expr] is never
    exhausted (lemma [evaluateExpressionAt_depth]). *)
Definition evaluateExpression (vars : gmap string WorkspaceValue)
           (expr : string) : Result WorkspaceValue :=
  evaluateExpressionAt (String.length expr) vars expr.

(** [removeInlineComments] *)
Definition removeInlineComments (line : string) : string :=
  let commentIndex := Str.indexOf "//" line in
  if negb (commentIndex =? -1)
  then Str.trim (Str.substring 0 commentIndex line)
  else Str.trim line.

Definition invalidAssignment : JsError :=
  SimulationError "Invalid assignment" validation None.

(** The [try] block of [executeLine]: the environment changes only when
    the right-hand side has been evaluated. *)
Definition executeLineTry (ws : Workspace) (line : string)
  : Workspace * Result string :=
  if Str.includes equals line then
    match map Str.trim (Str.split equals line) with
    | varName :: expression :: _ =>
        if (Str.isEmpty varName || Str.isEmpty expression)%bool
        then (ws, Throw invalidAssignment)
        else
          match evaluateExpression (variables ws) expression with
          | Throw err => (ws, Throw err)
          | Ok value =>
              (setVariable varName value ws,
               Ok (varName +:+ " = " +:+ formatOutput value))
          end
    | _ => (ws, Throw invalidAssignment)
    end
  else
    match evaluateExpression (variables ws) line with
    | Throw err => (ws, Throw err)
    | Ok value => (ws, Ok (formatOutput value))
    end.

Definition lineError (line : string) (err : JsError) : JsError :=
  SimulationError
    ("Line " +:+ Str.dquote +:+ line +:+ Str.dquote +:+ ": "
       +:+ message err)
    runtime (Some err).

(** [executeLine] *)
Definition executeLine (ws : Workspace) (line : string)
  : Workspace * Result string :=
  if Str.isEmpty line then (ws, Ok EmptyString)
  else
    let '(ws', r) := executeLineTry ws line in
    (ws', tryCatch r (lineError line)).

(** The [for] loop of [execute] over the lines that are left. *)
Fixpoint executeLines (ws : Workspace) (lines : list string)
         (result : string) : Workspace * Result string :=
  match lines with
  | [] => (ws, Ok result)
  | line :: rest =>
      match executeLine ws (removeInlineComments line) with
      | (ws', Throw err) => (ws', Throw err)
      | (ws', Ok lineResult) =>
          if Str.isEmpty lineResult then executeLines ws' rest result
          else executeLines (pushHistory line ws') rest
                 (result +:+ lineResult +:+ String Str.newline EmptyString)
      end
  end.

(** The lines [execute] runs: trimmed, neither empty nor comments. *)
Definition sourceLines (code : string) : list string :=
  List.filter
    (fun line => (negb (Str.isEmpty line)
                  && negb (Str.startsWith "//" line))%bool)
    (map Str.trim (Str.split Str.newline code)).

(** The name a line assigns to, when the line is an assignment. *)
Definition assignedName (line : string) : option string :=
  if Str.includes equals line
  then head (map Str.trim (Str.split equals line))
  else None.

Definition executionError (err : JsError) : JsError :=
  SimulationError ("Execution error: " +:+ message err) runtime (Some err).

(** [execute]: the Workspace is returned as the call leaves it, whether
    it returns or throws. *)
Definition execute (ws : Workspace) (code : string)
  : Workspace * Result string :=
  let '(ws', r) := executeLines ws (sourceLines code) EmptyString in
  (ws', tryCatch (let* result := r in Ok (Str.trim result)) executionError).

End WithHost.
End Workspace.

(* ------------------------------------------------------------------------- *)
(** ** The notebook component: running a cell *)

Module Notebook.

Record Plot := mkPlot {
  signal : Signal.Signal;
  title : string
}.

(** A cell of the notebook; [error = None] stands for [undefined]. *)
Record Cell := mkCell {
  id : string;
  code : string;
  output : list string;
  error : option string;
  plots : list Plot
}.

Section WithHost.
Context {H : Host}.

(** What a line adds to the plots: the Signal that the name before the
    first equals sign is bound to, when there is one. *)
Definition plotOf (ws : Workspace.Workspace) (line : string)
  : list Plot :=
  if Str.includes Workspace.equals line then
    let varName :=
      Str.trim (hd EmptyString (Str.split Workspace.equals line)) in
    match Workspace.getValue ws varName with
    | Some (Workspace.VSignal value) =>
        [mkPlot value (varName +:+ " - Time Domain")]
    | _ => []
    end
  else [].

(** The [for] loop of [executeCell]: every line goes through
    [workspace.execute] on its own. *)
Fixpoint runLines (ws : Workspace.Workspace) (lines : list string)
         (outputs : list string) (plots : list Plot)
  : Workspace.Workspace * Result (list string * list Plot) :=
  match lines with
  | [] => (ws, Ok (outputs, plots))
  | line :: rest =>
      match Workspace.execute ws line with
      | (ws', Throw err) => (ws', Throw err)
      | (ws', Ok out) =>
          runLines ws' rest
            (if Str.isEmpty out then outputs else outputs ++ [out])
            (plots ++ plotOf ws' line)
      end
  end.

(** [executeCell] on the cell that is run: the Workspace it leaves and
    the cell it shows. *)
Definition executeCell (ws : Workspace.Workspace) (cell : Cell)
  : Workspace.Workspace * Cell :=
  match runLines ws (Workspace.sourceLines (code cell)) [] [] with
  | (ws', Ok (outputs, plots)) =>
      (ws', mkCell (id cell) (code cell) outputs None plots)
  | (ws', Throw err) =>
      (ws', mkCell (id cell) (code cell) [] (Some (message err)) [])
  end.

End WithHost.
End Notebook.

(* ------------------------------------------------------------------------- *)
(** ** A reference host *)

(** An engine to run the model on: textbook series for the [Math] functions,
    correctly rounded conversions between numbers and decimal notation, and a
    recursive-descent [JSON.parse] for the code units below 128. *)
Module Reference.

(** *** [Math] *)

(** [r * (1 - q/(a1 * (a1+1)) * (1 - q/(a2 * (a2+1)) * ...))], the Horner
    form of an alternating series in [q]. *)
Definition alternating (q : float) (steps : list Z) : float :=
  fold_right
    (fun n acc => (1 - q / Num.ofZ (n * (n + 1)) * acc)%float)
    1%float steps.

Definition reduceAngle (x : float) : float :=
  let twoPi := (2 * Num.PI)%float in
  let r := (x - twoPi * Num.floor (x / twoPi))%float in
  if (Num.PI <? r)%float then (r - twoPi)%float else r.

Definition clampUnit (t : float) : float :=
  if (1 <? t)%float then 1%float
  else if (t <? -1)%float then (-1)%float
  else if (abs t <=? 1)%float then t
  else nan.

Definition evens : list Z :=
  [2; 4; 6; 8; 10; 12; 14; 16; 18; 20; 22; 24; 26; 28].
Definition odds : list Z :=
  [1; 3; 5; 7; 9; 11; 13; 15; 17; 19; 21; 23; 25; 27; 29; 31; 33].
Definition naturals : list Z :=
  [1; 2; 3; 4; 5; 6; 7; 8; 9; 10; 11; 12; 13; 14; 15; 16; 17; 18].

Definition sin (x : float) : float :=
  if (is_nan x || is_infinity x)%bool then nan
  else
    let r := reduceAngle x in
    clampUnit (r * alternating (r * r) evens)%float.

Definition cos (x : float) : float :=
  if (is_nan x || is_infinity x)%bool then nan
  else
    let r := reduceAngle x in
    clampUnit (alternating (r * r) odds).

Definition LN2 : float := 0x1.62e42fefa39efp-1%float.

Definition exp (x : float) : float :=
  if is_nan x then nan
  else if (710 <? x)%float then infinity
  else if (x <? -746)%float then zero
  else
    let k := default 0 (Num.floorZ (x / LN2 + 0.5)%float) in
    let r := (x - Num.ofZ k * LN2)%float in
    let poly :=
      fold_right (fun n acc => (1 + r / Num.ofZ n * acc)%float) 1%float
        naturals in
    Z.ldexp poly k.

Definition log (x : float) : float :=
  if is_nan x then nan
  else if (x <? 0)%float then nan
  else if is_zero x then neg_infinity
  else if is_infinity x then infinity
  else
    let '(m, e) := Z.frexp x in
    let '(m, e) := if (m <? 0.75)%float then ((2 * m)%float, e - 1)
                   else (m, e) in
    let z := ((m - 1) / (m + 1))%float in
    let series :=
      fold_right (fun n acc => (1 / Num.ofZ n + z * z * acc)%float) zero
        odds in
    (2 * z * series + Num.ofZ e * LN2)%float.

Definition pow (x y : float) : float :=
  if is_nan y then nan
  else if is_zero y then 1%float
  else if (y =? 1)%float then x
  else if (y =? 2)%float then (x * x)%float
  else exp (y * log x).

(** *** Numbers and their decimal notation *)

Definition digitValue (c : ascii) : option Z :=
  let n := Z.of_nat (nat_of_ascii c) in
  if (48 <=? n) && (n <=? 57) then Some (n - 48)
  else if (97 <=? n) && (n <=? 102) then Some (n - 87)
  else if (65 <=? n) && (n <=? 70) then Some (n - 55)
  else None.

(** The longest prefix of digits in [base]: its value, its length, and what
    follows. *)
Fixpoint digits (base : Z) (acc : Z) (count : nat) (s : string)
  : Z * nat * string :=
  match s with
  | EmptyString => (acc, count, s)
  | String c s' =>
      match digitValue c with
      | Some d => if d <? base then digits base (acc * base + d) (S count) s'
                  else (acc, count, s)
      | None => (acc, count, s)
      end
  end.

(** The number nearest to [m * 10 ^ e], for [m] positive. *)
Definition decimal (m e : Z) : float :=
  if m =? 0 then zero
  else if 0 <=? e then
    (if 400 <? e then infinity else Num.ofZ (m * 10 ^ e))
  else if 400 + Z.log2 m <? - e then zero
  else
    let d := 10 ^ (- e) in
    let s := Z.max 0 (64 + Z.log2 d - Z.log2 m) in
    let q := (m * 2 ^ s) / d in
    let sticky := if (m * 2 ^ s) mod d =? 0 then 0 else 1 in
    SF2Prim (binary_normalize prec emax (2 * q + sticky) (- (s + 1)) false).

(** [StrUnsignedDecimalLiteral], after the sign. *)
Definition unsignedDecimal (s : string) : float :=
  if String.eqb s "Infinity" then infinity
  else
    let '(ip, ni, r1) := digits 10 0 O s in
    let '(m, nf, r2) :=
      match r1 with
      | String "." r => digits 10 ip O r
      | _ => (ip, O, r1)
      end in
    if (Nat.eqb ni 0 && Nat.eqb nf 0)%bool then nan
    else
      match r2 with
      | EmptyString => decimal m (- Z.of_nat nf)
      | String c r3 =>
          if (Ascii.eqb c "e" || Ascii.eqb c "E")%bool then
            let '(neg, r4) :=
              match r3 with
              | String "-" r => (true, r)
              | String "+" r => (false, r)
              | _ => (false, r3)
              end in
            let '(ex, ne, r5) := digits 10 0 O r4 in
            if (Nat.eqb ne 0 || negb (Str.isEmpty r5))%bool then nan
            else decimal m ((if neg then - ex else ex) - Z.of_nat nf)
          else nan
      end.

Definition radixLiteral (base : Z) (s : string) : float :=
  let '(v, n, r) := digits base 0 O s in
  if (Nat.eqb n 0 || negb (Str.isEmpty r))%bool then nan else Num.ofZ v.

(** [Number(s)] *)
Definition Number (s : string) : float :=
  match Str.trim s with
  | EmptyString => zero
  | String "0" (String "x" r) | String "0" (String "X" r) => radixLiteral 16 r
  | String "0" (String "o" r) | String "0" (String "O" r) => radixLiteral 8 r
  | String "0" (String "b" r) | String "0" (String "B" r) => radixLiteral 2 r
  | String "-" r => (- unsignedDecimal r)%float
  | String "+" r => unsignedDecimal r
  | t => unsignedDecimal t
  end.

Definition digitChar (d : Z) : ascii := ascii_of_nat (Z.to_nat (48 + d)).

(** The decimal digits of a natural number, [width] of them at least. *)
Fixpoint digitsOf (fuel : nat) (n : Z) (acc : string) : string :=
  match fuel with
  | O => acc
  | S fuel' =>
      let acc := String (digitChar (n mod 10)) acc in
      if n / 10 =? 0 then acc else digitsOf fuel' (n / 10) acc
  end.

Definition natural (n : Z) : string :=
  digitsOf (S (Z.to_nat (Z.log2 n))) n EmptyString.

Fixpoint zeros (n : nat) : string :=
  match n with O => EmptyString | S n' => String "0" (zeros n') end.

(** The exact value [m * 2 ^ e] of a positive number, as a fraction. *)
Definition fraction (m : positive) (e : Z) : Z * Z :=
  if 0 <=? e then (Z.pos m * 2 ^ e, 1) else (Z.pos m, 2 ^ (- e)).

(** The [n] with [10 ^ (n - 1) <= a / b < 10 ^ n]. *)
Fixpoint magnitudeFrom (fuel : nat) (a b n : Z) : Z :=
  match fuel with
  | O => n
  | S fuel' =>
      let below := if 0 <=? n - 1 then a <? b * 10 ^ (n - 1)
                   else a * 10 ^ (1 - n) <? b in
      let above := if 0 <=? n then b * 10 ^ n <=? a
                   else b <=? a * 10 ^ (- n) in
      if below then magnitudeFrom fuel' a b (n - 1)
      else if above then magnitudeFrom fuel' a b (n + 1)
      else n
  end.

(** The [k]-digit integers next to [a / b / 10 ^ (n - k)], nearest first. *)
Definition candidates (a b n : Z) (k : Z) : list Z :=
  let p := n - k in
  let '(num, den) := if 0 <=? p then (a, b * 10 ^ p)
                     else (a * 10 ^ (- p), b) in
  let lo := num / den in
  if 2 * (num mod den) <? den then [lo; lo + 1] else [lo + 1; lo].

(** The shortest digit string that reads back as [x]: the digits [s] and
    the exponent [n] of [Number::toString]. *)
Fixpoint shortestFrom (fuel : nat) (x : float) (a b n k : Z) : Z * Z * Z :=
  match fuel with
  | O => (0, 1, n)
  | S fuel' =>
      match List.filter
              (fun s => (PrimFloat.eqb (decimal s (n - k)) x
                         && (0 <? s))%bool)
              (candidates a b n k) with
      | s :: _ =>
          if s =? 10 ^ k then (10 ^ (k - 1), k, n + 1) else (s, k, n)
      | [] => shortestFrom fuel' x a b n (k + 1)
      end
  end.

Definition positiveToString (x : float) (m : positive) (e : Z) : string :=
  let '(a, b) := fraction m e in
  let n0 := magnitudeFrom 700 a b ((Z.log2 a - Z.log2 b) * 3 / 10) in
  let '(s, k, n) := shortestFrom 20 x a b n0 1 in
  let ds := natural s in
  if (k <=? n) && (n <=? 21) then ds +:+ zeros (Z.to_nat (n - k))
  else if (0 <? n) && (n <=? 21) then
    Str.take (Z.to_nat n) ds +:+ "." +:+ Str.drop (Z.to_nat n) ds
  else if (-6 <? n) && (n <=? 0) then
    "0." +:+ zeros (Z.to_nat (- n)) +:+ ds
  else
    let ex := (if 0 <=? n - 1 then "+" else "-") +:+ natural (Z.abs (n - 1)) in
    if k =? 1 then ds +:+ "e" +:+ ex
    else Str.take 1 ds +:+ "." +:+ Str.drop 1 ds +:+ "e" +:+ ex.

(** [String(x)] *)
Definition numberToString (x : float) : string :=
  match Prim2SF x with
  | S754_nan => "NaN"
  | S754_zero _ => "0"
  | S754_infinity s => if s then "-Infinity" else "Infinity"
  | S754_finite s m e =>
      (if s then "-" else EmptyString) +:+ positiveToString (abs x) m e
  end.

(** *** [JSON.parse] *)

Definition isJsonSpace (c : ascii) : bool :=
  let n := nat_of_ascii c in
  (Nat.eqb n 32 || Nat.eqb n 9 || Nat.eqb n 10 || Nat.eqb n 13)%bool.

Fixpoint skipSpace (s : string) : string :=
  match s with
  | String c r => if isJsonSpace c then skipSpace r else s
  | EmptyString => s
  end.

(** A JSON number at the head of [s]. *)
Definition jsonNumber (s : string) : option (float * string) :=
  let '(neg, r0) := match s with
                    | String "-" r => (true, r)
                    | _ => (false, s)
                    end in
  let '(ip, ni, r1) := digits 10 0 O r0 in
  let signed x := if neg then (- x)%float else x in
  if (Nat.eqb ni 0 || (Nat.ltb 1 ni && Str.startsWith "0" r0))%bool then None
  else
    let fractional :=
      match r1 with
      | String "." r =>
          let '(m, nf, r2) := digits 10 ip O r in
          if Nat.eqb nf 0 then None else Some (m, nf, r2)
      | _ => Some (ip, O, r1)
      end in
    match fractional with
    | None => None
    | Some (m, nf, r2) =>
        match r2 with
        | String c r3 =>
            if (Ascii.eqb c "e" || Ascii.eqb c "E")%bool then
              let '(negE, r4) :=
                match r3 with
                | String "-" r => (true, r)
                | String "+" r => (false, r)
                | _ => (false, r3)
                end in
              let '(ex, ne, r5) := digits 10 0 O r4 in
              if Nat.eqb ne 0 then None
              else Some (signed (decimal m ((if negE then - ex else ex)
                                            - Z.of_nat nf)), r5)
            else Some (signed (decimal m (- Z.of_nat nf)), r2)
        | EmptyString => Some (signed (decimal m (- Z.of_nat nf)), r2)
        end
    end.

(** The characters of a JSON string, after its opening quote. *)
Fixpoint jsonString (fuel : nat) (s acc : string) : option (string * string) :=
  match fuel, s with
  | S fuel', String c r =>
      let code := nat_of_ascii c in
      if Nat.eqb code 34 then Some (acc, r)
      else if Nat.eqb code 92 then
        match r with
        | String e r' =>
            let plain ch := jsonString fuel' r' (acc +:+ String ch EmptyString) in
            if Ascii.eqb e "n" then plain (ascii_of_nat 10)
            else if Ascii.eqb e "t" then plain (ascii_of_nat 9)
            else if Ascii.eqb e "r" then plain (ascii_of_nat 13)
            else if Ascii.eqb e "b" then plain (ascii_of_nat 8)
            else if Ascii.eqb e "f" then plain (ascii_of_nat 12)
            else if Ascii.eqb e "/" then plain e
            else if Nat.eqb (nat_of_ascii e) 92 then plain e
            else if Nat.eqb (nat_of_ascii e) 34 then plain e
            else if Ascii.eqb e "u" then
              match digits 16 0 O (Str.take 4 r') with
              | (v, 4%nat, _) =>
                  if v <? 256
                  then jsonString fuel' (Str.drop 4 r')
                         (acc +:+ String (ascii_of_nat (Z.to_nat v)) EmptyString)
                  else None
              | _ => None
              end
            else None
        | EmptyString => None
        end
      else if Nat.ltb code 32 then None
      else jsonString fuel' r (acc +:+ String c EmptyString)
  | _, _ => None
  end.

Fixpoint jsonValue (fuel : nat) (s : string) : option (json * string) :=
  match fuel with
  | O => None
  | S fuel' =>
      match skipSpace s with
      | EmptyString => None
      | String c r as t =>
          if Ascii.eqb c "[" then
            match skipSpace r with
            | String "]" r' => Some (JArray [], r')
            | r0 => jsonItems fuel' r0 []
            end
          else if Ascii.eqb c "{" then
            match skipSpace r with
            | String "}" r' => Some (JObject [], r')
            | r0 => jsonFields fuel' r0 []
            end
          else if Nat.eqb (nat_of_ascii c) 34 then
            match jsonString (String.length r) r EmptyString with
            | Some (str, r') => Some (JString str, r')
            | None => None
            end
          else if Str.startsWith "null" t then Some (JNull, Str.drop 4 t)
          else if Str.startsWith "true" t then Some (JBool true, Str.drop 4 t)
          else if Str.startsWith "false" t
          then Some (JBool false, Str.drop 5 t)
          else match jsonNumber t with
               | Some (x, r') => Some (JNumber x, r')
               | None => None
               end
      end
  end
with jsonItems (fuel : nat) (s : string) (acc : list json)
  : option (json * string) :=
  match fuel with
  | O => None
  | S fuel' =>
      match jsonValue fuel' s with
      | Some (v, r) =>
          match skipSpace r with
          | String "," r' => jsonItems fuel' r' (acc ++ [v])
          | String "]" r' => Some (JArray (acc ++ [v]), r')
          | _ => None
          end
      | None => None
      end
  end
with jsonFields (fuel : nat) (s : string) (acc : list (string * json))
  : option (json * string) :=
  match fuel with
  | O => None
  | S fuel' =>
      match skipSpace s with
      | String q r =>
          if Nat.eqb (nat_of_ascii q) 34 then
            match jsonString (String.length r) r EmptyString with
            | Some (key, r1) =>
                match skipSpace r1 with
                | String ":" r2 =>
                    match jsonValue fuel' r2 with
                    | Some (v, r3) =>
                        match skipSpace r3 with
                        | String "," r' =>
                            jsonFields fuel' r' (acc ++ [(key, v)])
                        | String "}" r' =>
                            Some (JObject (acc ++ [(key, v)]), r')
                        | _ => None
                        end
                    | None => None
                    end
                | _ => None
                end
            | None => None
            end
          else None
      | EmptyString => None
      end
  end.

(** [JSON.parse(s)], [None] for a [SyntaxError]. *)
Definition JSON_parse (s : string) : option json :=
  match jsonValue (2 * String.length s + 2) s with
  | Some (v, r) => if Str.isEmpty (skipSpace r) then Some v else None
  | None => None
  end.

#[export] Instance host : Host :=
  Build_Host sin cos exp log pow Number numberToString JSON_parse
    4294967295 "Invalid typed array length"
    "Cannot read properties of undefined".

End Reference.

(* ------------------------------------------------------------------------- *)
(** ** The vocabulary of the specification *)

(** A grid with at least one row, all rows of length [cols]. *)
Definition rectangular {A} (g : list (list A)) (cols : nat) : Prop :=
  g <> [] /\ Forall (fun row => length row = cols) g.

(** The product of two grids in the words of the specification: the cell at
    row [i] and column [j] is the sum, over the inner index, of the left
    cell of row [i] times the right cell of column [j]. *)
Definition standardProduct (a b : list (list float)) : list (list float) :=
  map (fun row =>
         map (fun j =>
                fold_left
                  (fun sum xb => (sum + fst xb * nth j (snd xb) nan)%float)
                  (zip row b) zero)
           (seq 0 (length (hd [] b))))
    a.

(** [n] is a power of two. *)
Inductive PowerOfTwo : nat -> Prop :=
| pow2_one : PowerOfTwo 1
| pow2_double n : PowerOfTwo n -> PowerOfTwo (2 * n).

(** The number of times a character occurs in a string. *)
Fixpoint occurrences (c : ascii) (s : string) : nat :=
  match s with
  | EmptyString => O
  | String d s' => ((if Ascii.eqb d c then 1 else 0) + occurrences c s')%nat
  end.

(** Position [n] of [s] holds a closing parenthesis that balances the
    opening ones before it, of which there is one at least. *)
Definition closesAt (s : string) (n : nat) : Prop :=
  String.get n s = Some Workspace.rparen
  /\ occurrences Workspace.lparen (Str.take (S n) s)
     = occurrences Workspace.rparen (Str.take (S n) s)
  /\ (0 < occurrences Workspace.lparen (Str.take (S n) s))%nat.

(** [closesAt] for a scan that has read a prefix already: [count] is the
    balance of the prefix, [startFound] whether it holds an opening
    parenthesis, and [rest] what is left to read. *)
Definition closesFrom (rest : string) (count : Z) (startFound : bool)
           (n : nat) : Prop :=
  String.get n rest = Some Workspace.rparen
  /\ count + Z.of_nat (occurrences Workspace.lparen (Str.take (S n) rest))
     - Z.of_nat (occurrences Workspace.rparen (Str.take (S n) rest)) = 0
  /\ (startFound = true
      \/ (0 < occurrences Workspace.lparen (Str.take (S n) rest))%nat).

(** *** Inputs the examples run on *)

(** An exponential chirp from frequency zero, one millisecond long. *)
Definition zeroStartChirp : Signal.ChirpOptions :=
  Signal.mkChirpOptions 0%float 1000%float 0.001%float (Some false) None.

(** The two lines of the specification's example: an assignment, then a
    call that is never closed. *)
Definition twoLines : string :=
  Str.join (String Str.newline EmptyString) ["a = 1"; "badExpr("; EmptyString]%string.

Definition unmatched : JsError :=
  SimulationError "Unmatched parentheses" validation None.

(** The Workspace that the first line of [twoLines] leaves. *)
Definition afterFirstLine : Workspace.Workspace :=
  Workspace.pushHistory "a = 1"
    (Workspace.setVariable "a" (Workspace.VNumber 1) Workspace.newWorkspace).

(* ------------------------------------------------------------------------- *)
(** * Properties *)

Section ArrayLoops.
Context {A : Type}.
Implicit Types (z : A) (f : nat -> A).

Lemma lookup_map_seq {B} (F : nat -> B) (n j : nat) :
  map F (seq 0 n) !! j = if (j <? n)%nat then Some (F j) else None.
Proof.
  change (map F (seq 0 n)) with (F <$> seq 0 n).
  rewrite list_lookup_fmap.
  destruct (Nat.ltb_spec j n) as [Hlt|Hge].
  - rewrite lookup_seq_lt by done. done.
  - rewrite lookup_seq_ge by done. done.
Qed.

Lemma nth_map_seq {B} (F : nat -> B) (n j : nat) (d : B) :
  (j < n)%nat -> nth j (map F (seq 0 n)) d = F j.
Proof.
  intros Hj. apply nth_lookup_Some. rewrite lookup_map_seq.
  destruct (Nat.ltb_spec j n); [done | lia].
Qed.

Lemma lookup_nth_lt (l : list A) (i : nat) (d : A) :
  (i < length l)%nat -> l !! i = Some (nth i l d).
Proof.
  intros Hi. destruct (nth_lookup_or_length l i d) as [Hl|Hl]; [done | lia].
Qed.

Lemma map_seq_replicate z (n : nat) :
  map (fun _ => z) (seq 0 n) = replicate n z.
Proof.
  apply list_eq. intros j. rewrite lookup_map_seq.
  destruct (Nat.ltb_spec j n).
  - symmetry. by apply lookup_replicate_2.
  - symmetry. apply lookup_ge_None_2. rewrite length_replicate. lia.
Qed.

(** A loop that writes [a[i] = f i] for [i] below [k]. *)
Lemma fold_insert_seq f z (n k : nat) :
  (k <= n)%nat ->
  fold_left (fun a i => <[i := f i]> a) (seq 0 k) (replicate n z)
  = map f (seq 0 k) ++ replicate (n - k) z.
Proof.
  induction k as [|k IH]; intros Hk.
  - simpl. by rewrite Nat.sub_0_r.
  - rewrite seq_S, fold_left_app, IH by lia. simpl.
    rewrite map_app. simpl.
    rewrite insert_app_r_alt by (rewrite length_map, length_seq; lia).
    rewrite length_map, length_seq, Nat.sub_diag.
    replace (n - k)%nat with (S (n - S k)) by lia. simpl.
    by rewrite <- app_assoc.
Qed.
End ArrayLoops.

Lemma fillArray_map (n : nat) (f : nat -> float) :
  fillArray n f = map f (seq 0 n).
Proof.
  unfold fillArray. rewrite fold_insert_seq by lia.
  rewrite Nat.sub_diag. simpl. by rewrite app_nil_r.
Qed.

Section GridLoops.
Context {A : Type}.

(** The inner loop of a row-by-row fill: row [i] is written cell by cell. *)
Lemma fold_fill_row (v : nat -> A) (z : A) (i n k : nat)
      (r : list (list A)) :
  (k <= n)%nat -> (i < length r)%nat -> nth i r [] = replicate n z ->
  fold_left (fun r j => <[i := <[j := v j]> (nth i r [])]> r) (seq 0 k) r
  = <[i := map v (seq 0 k) ++ replicate (n - k) z]> r.
Proof.
  intros Hk Hi Hrow. induction k as [|k IH].
  - simpl. rewrite Nat.sub_0_r, <- Hrow.
    symmetry. apply list_insert_id. by apply lookup_nth_lt.
  - rewrite seq_S, fold_left_app, IH by lia. simpl.
    rewrite list_insert_insert_eq. f_equal.
    erewrite nth_lookup_Some
      by (apply list_lookup_insert_eq; exact Hi).
    rewrite insert_app_r_alt by (rewrite length_map, length_seq; lia).
    rewrite length_map, length_seq, Nat.sub_diag.
    replace (n - k)%nat with (S (n - S k)) by lia. simpl.
    rewrite map_app. simpl. by rewrite <- app_assoc.
Qed.

(** The two loops of a row-by-row fill. *)
Lemma fold_fill_rows (v : nat -> nat -> A) (z : A) (m n k : nat) :
  (k <= m)%nat ->
  fold_left
    (fun result i =>
       fold_left
         (fun result j => <[i := <[j := v i j]> (nth i result [])]> result)
         (seq 0 n) result)
    (seq 0 k) (replicate m (replicate n z))
  = map (fun i => map (v i) (seq 0 n)) (seq 0 k)
      ++ replicate (m - k) (replicate n z).
Proof.
  induction k as [|k IH]; intros Hk.
  - simpl. by rewrite Nat.sub_0_r.
  - rewrite seq_S, fold_left_app, IH by lia. simpl.
    assert (Hlen : length (map (fun i => map (v i) (seq 0 n)) (seq 0 k)) = k)
      by (by rewrite length_map, length_seq).
    rewrite (fold_fill_row (v k) z k n n).
    + rewrite Nat.sub_diag. simpl. rewrite app_nil_r.
      rewrite insert_app_r_alt by lia. rewrite Hlen, Nat.sub_diag.
      replace (m - k)%nat with (S (m - S k)) by lia. simpl.
      rewrite map_app. simpl. by rewrite <- app_assoc.
    + lia.
    + rewrite length_app, Hlen, length_replicate. lia.
    + apply nth_lookup_Some.
      rewrite lookup_app_r by lia. rewrite Hlen, Nat.sub_diag.
      replace (m - k)%nat with (S (m - S k)) by lia. done.
Qed.

(** The inner loop of a column-by-column fill: cell [i] of every row. *)
Lemma fold_fill_column (h : nat -> A) (R : nat -> list A) (i c k : nat) :
  (k <= c)%nat ->
  fold_left (fun r j => <[j := <[i := h j]> (nth j r [])]> r) (seq 0 k)
    (map R (seq 0 c))
  = map (fun j => if (j <? k)%nat then <[i := h j]> (R j) else R j)
      (seq 0 c).
Proof.
  induction k as [|k IH]; intros Hk.
  - simpl. done.
  - rewrite seq_S, fold_left_app, IH by lia. simpl.
    apply list_eq. intros j.
    rewrite nth_map_seq by lia. rewrite Nat.ltb_irrefl.
    rewrite !lookup_map_seq.
    destruct (decide (j = k)) as [->|Hjk].
    + rewrite list_lookup_insert_eq by (rewrite length_map, length_seq; lia).
      destruct (Nat.ltb_spec k c); [|lia].
      destruct (Nat.ltb_spec k (S k)); [done|lia].
    + rewrite list_lookup_insert_ne by done. rewrite lookup_map_seq.
      destruct (Nat.ltb_spec j c); [|done].
      destruct (Nat.ltb_spec j k), (Nat.ltb_spec j (S k)); try done; lia.
Qed.

(** The two loops of a column-by-column fill. *)
Lemma fold_fill_columns (g : nat -> nat -> A) (z : A) (rows cols k : nat) :
  (k <= rows)%nat ->
  fold_left
    (fun result i =>
       fold_left
         (fun result j => <[j := <[i := g i j]> (nth j result [])]> result)
         (seq 0 cols) result)
    (seq 0 k) (replicate cols (replicate rows z))
  = map (fun j => map (fun i => g i j) (seq 0 k) ++ replicate (rows - k) z)
      (seq 0 cols).
Proof.
  induction k as [|k IH]; intros Hk.
  - simpl. rewrite Nat.sub_0_r. symmetry. apply map_seq_replicate.
  - rewrite seq_S, fold_left_app, IH by lia. simpl.
    rewrite (fold_fill_column (g k) _ k cols cols) by lia.
    apply map_ext_in. intros j Hj. apply in_seq in Hj.
    destruct (Nat.ltb_spec j cols); [|lia].
    rewrite insert_app_r_alt by (rewrite length_map, length_seq; lia).
    rewrite length_map, length_seq, Nat.sub_diag.
    replace (rows - k)%nat with (S (rows - S k)) by lia. simpl.
    rewrite map_app. simpl. by rewrite <- app_assoc.
Qed.
End GridLoops.

(** A rectangular grid is the table of its cells. *)
Lemma grid_table {A} (d : A) (g : list (list A)) (cols : nat) :
  Forall (fun row => length row = cols) g ->
  map (fun i => map (fun j => nth j (nth i g []) d) (seq 0 cols))
    (seq 0 (length g)) = g.
Proof.
  intros Hg. apply list_eq. intros i. rewrite lookup_map_seq.
  destruct (Nat.ltb_spec i (length g)) as [Hi|Hi].
  - destruct (lookup_lt_is_Some_2 g i Hi) as [row Hrow]. rewrite Hrow. f_equal.
    rewrite (nth_lookup_Some _ _ _ _ Hrow).
    assert (Hlen : length row = cols)
      by (eapply Forall_lookup_1 in Hg; eauto).
    subst cols. apply list_eq. intros j. rewrite lookup_map_seq.
    destruct (Nat.ltb_spec j (length row)) as [Hj|Hj].
    + destruct (lookup_lt_is_Some_2 row j Hj) as [x Hx].
      rewrite Hx. f_equal. by apply nth_lookup_Some.
    + symmetry. by apply lookup_ge_None_2.
  - symmetry. by apply lookup_ge_None_2.
Qed.

(* ------------------------------------------------------------------------- *)
(** ** Matrices *)

Lemma forallb_length_Forall {A} (g : list (list A)) (n : nat) :
  forallb (fun row => Nat.eqb (length row) n) g = true
  <-> Forall (fun row => length row = n) g.
Proof.
  rewrite forallb_forall, Forall_forall. split; intros Hg row Hrow.
  - apply Nat.eqb_eq, Hg. by apply list_elem_of_In.
  - apply Nat.eqb_eq, Hg. by apply list_elem_of_In.
Qed.

Lemma rectangular_table {A} (F : nat -> list A) (rows cols : nat) :
  (0 < rows)%nat -> (forall i, length (F i) = cols) ->
  rectangular (map F (seq 0 rows)) cols.
Proof.
  intros Hrows HF. split.
  - destruct rows; [lia | done].
  - apply Forall_forall. intros row Hrow. apply list_elem_of_In in Hrow.
    apply in_map_iff in Hrow as (i & <- & _). apply HF.
Qed.

Module Matrix2Facts.
Import Matrix2.

Lemma newMatrix2_rectangular (g : list (list float)) (cols : nat) :
  rectangular g cols -> newMatrix g = Ok (mkMatrix g).
Proof.
  intros [Hne Hg]. unfold newMatrix, validateData.
  destruct g as [|row0 rest]; [done|].
  assert (Hrow0 : length row0 = cols) by (by inversion Hg).
  rewrite Hrow0.
  pose proof (proj2 (forallb_length_Forall (row0 :: rest) cols) Hg) as Hb.
  rewrite Hb. simpl. by rewrite map_id.
Qed.

Lemma newMatrix2_inv (g : list (list float)) (m : Matrix) :
  newMatrix g = Ok m ->
  data m = g /\ exists cols, rectangular g cols.
Proof.
  unfold newMatrix, validateData. destruct g as [|row0 rest]; [done|].
  destruct (forallb _ _) eqn:Hb; [|done]. simpl. intros [= <-]. simpl.
  rewrite map_id. split; [done|]. exists (length row0). split; [done|].
  by apply forallb_length_Forall.
Qed.

Section WithHost.
Context {H : Host}.

Lemma getCols_rectangular (g : list (list float)) (cols : nat) :
  rectangular g cols -> getCols (mkMatrix g) = Ok cols.
Proof.
  intros [Hne Hg]. unfold getCols. simpl. destruct g; [done|].
  by inversion Hg; subst.
Qed.

Lemma transposeLoops_table (d : list (list float)) (rows cols : nat) :
  transposeLoops d rows cols
  = map (fun j => map (fun i => nth j (nth i d []) nan) (seq 0 rows))
      (seq 0 cols).
Proof.
  unfold transposeLoops.
  rewrite (fold_fill_columns (fun i j => nth j (nth i d []) nan) zero
             rows cols rows) by lia.
  apply map_ext. intros j. rewrite Nat.sub_diag. simpl.
  by rewrite app_nil_r.
Qed.

Lemma transpose_rectangular (g : list (list float)) (cols : nat) :
  rectangular g cols -> (0 < cols)%nat ->
  transpose (mkMatrix g)
  = Ok (mkMatrix (map (fun j => map (fun i => nth j (nth i g []) nan)
                                  (seq 0 (length g)))
                    (seq 0 cols))).
Proof.
  intros Hg Hcols. unfold transpose.
  rewrite (getCols_rectangular g cols Hg). simpl.
  unfold getRows. simpl. rewrite transposeLoops_table.
  apply (newMatrix2_rectangular _ (length g)).
  apply rectangular_table; [done|].
  intros j. by rewrite length_map, length_seq.
Qed.

(** A grid without columns has no transpose: the outer array of the
    result is empty, and the constructor rejects it. *)
Lemma transpose_no_columns (g : list (list float)) :
  rectangular g 0 ->
  transpose (mkMatrix g) = Throw (PlainError "Invalid matrix data").
Proof.
  intros Hg. unfold transpose.
  rewrite (getCols_rectangular g 0 Hg). simpl.
  by rewrite transposeLoops_table.
Qed.
End WithHost.
End Matrix2Facts.

(** C9.  A Matrix built from a grid with at least one row and at least one
    column, transposed twice, holds the grid it was built from: the
    constructor and both calls of [transpose] return, and the data of the
    last Matrix is the original grid. *)
Theorem transpose_twice `{H : Host} (g : list (list float)) (cols : nat) :
  rectangular g cols -> (0 < cols)%nat ->
  (let* m := Matrix2.newMatrix g in
   let* t := Matrix2.transpose m in
   let* u := Matrix2.transpose t in
   Ok (Matrix2.data u)) = Ok g.
Proof.
  intros Hg Hcols.
  rewrite (Matrix2Facts.newMatrix2_rectangular g cols Hg). simpl.
  rewrite (Matrix2Facts.transpose_rectangular g cols Hg Hcols). simpl.
  assert (Hrows : (0 < length g)%nat)
    by (destruct Hg as [Hne _]; destruct g; [done | simpl; lia]).
  rewrite (Matrix2Facts.transpose_rectangular _ (length g)); [|
    apply rectangular_table; [done | intros j; by rewrite length_map, length_seq]
    | done].
  simpl. f_equal. rewrite length_map, length_seq.
  etrans; [|apply (grid_table nan g cols), Hg].
  apply map_ext_in. intros i Hi. apply in_seq in Hi.
  apply map_ext_in. intros j Hj. apply in_seq in Hj.
  rewrite (nth_map_seq _ cols j []) by lia.
  by rewrite nth_map_seq by lia.
Qed.

Lemma transpose_twice_witness :
  (let* m := Matrix2.newMatrix [[1; 2; 3]; [4; 5; 6]]%float in
   let* t := Matrix2.transpose (H := Reference.host) m in
   let* u := Matrix2.transpose (H := Reference.host) t in
   Ok (Matrix2.data u)) = Ok [[1; 2; 3]; [4; 5; 6]]%float.
Proof.
  apply (transpose_twice (H := Reference.host) _ 3%nat).
  - split; [done|]. repeat constructor.
  - lia.
Defined.

Lemma fold_left_seq_shift {S} (f : S -> nat -> S) (n : nat) (s : S) :
  fold_left f (seq 1 n) s = fold_left (fun s k => f s (Datatypes.S k)) (seq 0 n) s.
Proof.
  rewrite <- seq_shift. generalize (seq 0 n) as l. intros l. revert s.
  induction l as [|k l IH]; intros s; simpl; [done | apply IH].
Qed.

Lemma fold_left_seq_zip {A B S} (f : S -> A -> B -> S)
      (la : list A) (lb : list B) (da : A) (db : B) (s : S) :
  length la = length lb ->
  fold_left (fun s k => f s (nth k la da) (nth k lb db)) (seq 0 (length lb)) s
  = fold_left (fun s ab => f s (fst ab) (snd ab)) (zip la lb) s.
Proof.
  revert lb s. induction la as [|a la IH]; intros [|b lb] s Hlen;
    simpl in *; try done.
  rewrite fold_left_seq_shift. simpl. apply IH. lia.
Qed.

Lemma fold_left_ext_in {S B} (f g : S -> B -> S) (l : list B) (s : S) :
  (forall s x, In x l -> f s x = g s x) -> fold_left f l s = fold_left g l s.
Proof.
  revert s. induction l as [|x l IH]; intros s Hfg; simpl; [done|].
  rewrite Hfg by (by left). apply IH. intros. apply Hfg. by right.
Qed.

Lemma rectangular_nth {A} (g : list (list A)) (cols i : nat) :
  rectangular g cols -> (i < length g)%nat -> length (nth i g []) = cols.
Proof.
  intros [_ Hg] Hi.
  apply (Forall_lookup_1 _ g i (nth i g []) Hg). by apply lookup_nth_lt.
Qed.

Lemma rectangular_hd {A} (g : list (list A)) (cols : nat) :
  rectangular g cols -> length (hd [] g) = cols.
Proof. intros [Hne Hg]. destruct g; [done|]. by inversion Hg. Qed.

Lemma rectangular_rows {A} (g : list (list A)) (cols : nat) :
  rectangular g cols -> (0 < length g)%nat.
Proof. intros [Hne _]. destruct g; [done | simpl; lia]. Qed.

Module MatrixFacts.
Import Matrix.

Lemma newMatrix_rectangular {A} (g : list (list A)) (cols : nat) :
  rectangular g cols -> newMatrix g = Ok (mkMatrix g).
Proof.
  intros [Hne Hg]. unfold newMatrix, validateData.
  destruct g as [|row0 rest]; [done|].
  assert (Hrow0 : length row0 = cols) by (by inversion Hg).
  rewrite Hrow0.
  pose proof (proj2 (forallb_length_Forall (row0 :: rest) cols) Hg) as Hb.
  by rewrite Hb.
Qed.

Lemma newMatrix_inv {A} (g : list (list A)) (m : Matrix A) :
  newMatrix g = Ok m -> m = mkMatrix g /\ exists cols, rectangular g cols.
Proof.
  unfold newMatrix, validateData. destruct g as [|row0 rest]; [done|].
  destruct (forallb _ _) eqn:Hb; [|done]. simpl. intros [= <-].
  split; [done|]. exists (length row0). split; [done|].
  by apply forallb_length_Forall.
Qed.

Lemma productLoops_table (a b : list (list float)) (m n p : nat) :
  productLoops a b m n p
  = map (fun i => map (fun j => dot a b p i j) (seq 0 n)) (seq 0 m).
Proof.
  unfold productLoops.
  rewrite (fold_fill_rows (fun i j => dot a b p i j) zero m n m) by lia.
  rewrite Nat.sub_diag. simpl. by rewrite app_nil_r.
Qed.

Lemma dot_standard (a b : list (list float)) (i j : nat) :
  length (nth i a []) = length b ->
  dot a b (length b) i j
  = fold_left (fun sum xb => (sum + fst xb * nth j (snd xb) nan)%float)
      (zip (nth i a []) b) zero.
Proof.
  intros Hlen. unfold dot, cell.
  by rewrite <- (fold_left_seq_zip
                   (fun sum x brow => (sum + x * nth j brow nan)%float)
                   (nth i a []) b nan []).
Qed.

Lemma product_table_standard (a b : list (list float)) (cb : nat) :
  rectangular a (length b) -> rectangular b cb ->
  map (fun i => map (fun j => dot a b (length b) i j) (seq 0 cb))
    (seq 0 (length a))
  = standardProduct a b.
Proof.
  intros Ha Hb. unfold standardProduct.
  rewrite (rectangular_hd b cb Hb).
  apply list_eq. intros i. rewrite lookup_map_seq.
  change (map ?f a) with (f <$> a). rewrite list_lookup_fmap.
  destruct (Nat.ltb_spec i (length a)) as [Hi|Hi].
  - rewrite (lookup_nth_lt a i [] Hi). simpl. f_equal.
    apply map_ext. intros j. apply dot_standard.
    by apply rectangular_nth.
  - by rewrite (lookup_ge_None_2 a i).
Qed.

Lemma standardProduct_rectangular (a b : list (list float)) (ca cb : nat) :
  rectangular a ca -> rectangular b cb ->
  rectangular (standardProduct a b) cb.
Proof.
  intros [Hne Ha] Hb. unfold standardProduct. split.
  - destruct a; [done | done].
  - apply Forall_forall. intros row Hrow. apply list_elem_of_In in Hrow.
    apply in_map_iff in Hrow as (r & <- & _).
    by rewrite length_map, length_seq, (rectangular_hd b cb).
Qed.
End MatrixFacts.

Module ProductFacts.
Section WithHost.
Context {H : Host}.

(** The first class: the dimension check throws a validation error inside
    the [try] block, and the [catch] clause wraps it. *)
Lemma multiply_mismatch (a b : list (list float)) (ca : nat) :
  rectangular a ca -> ca <> length b ->
  Matrix.multiply (Matrix.mkMatrix a) (Matrix.mkMatrix b)
  = Throw (SimulationError "Matrix multiplication failed" computation
             (Some Matrix.dimensionError)).
Proof.
  intros Ha Hne. unfold Matrix.multiply. simpl.
  pose proof (rectangular_hd a ca Ha) as Hhd.
  destruct a as [|row0 rest]; [by destruct Ha|]. simpl in Hhd.
  rewrite Hhd. apply Nat.eqb_neq in Hne. by rewrite Hne.
Qed.

Lemma multiply_conform (a b : list (list float)) (cb : nat) :
  rectangular a (length b) -> rectangular b cb ->
  exists r,
    Matrix.multiply (Matrix.mkMatrix a) (Matrix.mkMatrix b) = Ok r
    /\ res_data r = Matrix.mkMatrix (standardProduct a b).
Proof.
  intros Ha Hb. unfold Matrix.multiply.
  pose proof (MatrixFacts.productLoops_table a b (length a) cb (length b))
    as Hloops.
  rewrite (MatrixFacts.product_table_standard a b cb Ha Hb) in Hloops.
  pose proof (MatrixFacts.newMatrix_rectangular _ cb
                (MatrixFacts.standardProduct_rectangular
                   a b (length b) cb Ha Hb)) as Hnew.
  pose proof (rectangular_hd a _ Ha) as Hhda.
  pose proof (rectangular_hd b _ Hb) as Hhdb.
  destruct a as [|row0 rest]; [by destruct Ha|].
  destruct b as [|brow0 brest]; [by destruct Hb|].
  cbn [Matrix.data hd] in *.
  rewrite Hhda, Nat.eqb_refl. cbn [negb]. rewrite Hhdb, Hloops, Hnew.
  simpl. eexists. split; [reflexivity | done].
Qed.

(** The second class. *)
Lemma get_in_bounds (g : list (list float)) (cols i j : nat) :
  rectangular g cols -> (i < length g)%nat -> (j < cols)%nat ->
  Matrix2.get (Matrix2.mkMatrix g) i j = Ok (nth j (nth i g []) nan).
Proof.
  intros Hg Hi Hj. unfold Matrix2.get.
  rewrite (Matrix2Facts.getCols_rectangular g cols Hg). simpl.
  unfold Matrix2.getRows. simpl.
  destruct (Nat.leb_spec (length g) i); [lia|].
  destruct (Nat.leb_spec cols j); [lia|]. done.
Qed.

Lemma dot2_in_bounds (a b : list (list float)) (cb i j k : nat) :
  rectangular a (length b) -> rectangular b cb ->
  (i < length a)%nat -> (j < cb)%nat -> (k <= length b)%nat ->
  Matrix2.dot (Matrix2.mkMatrix a) (Matrix2.mkMatrix b) k i j
  = Ok (Matrix.dot a b k i j).
Proof.
  intros Ha Hb Hi Hj. unfold Matrix2.dot, Matrix.dot.
  induction k as [|k IH]; intros Hk; [done|].
  rewrite seq_S, !fold_left_app, IH by lia. simpl.
  rewrite (get_in_bounds a (length b)) by (done || lia). simpl.
  by rewrite (get_in_bounds b cb) by (done || lia).
Qed.

Lemma productRow_in_bounds (a b : list (list float)) (cb i n : nat) :
  rectangular a (length b) -> rectangular b cb ->
  (i < length a)%nat -> (n <= cb)%nat ->
  Matrix2.productRow (Matrix2.mkMatrix a) (Matrix2.mkMatrix b) n
    (length b) i
  = Ok (map (fun j => Matrix.dot a b (length b) i j) (seq 0 n)).
Proof.
  intros Ha Hb Hi. unfold Matrix2.productRow.
  induction n as [|n IH]; intros Hn; [done|].
  rewrite seq_S, fold_left_app, IH by lia. simpl.
  rewrite (dot2_in_bounds a b cb) by (done || lia). simpl.
  by rewrite map_app.
Qed.

Lemma productRows_in_bounds (a b : list (list float)) (cb m : nat) :
  rectangular a (length b) -> rectangular b cb -> (m <= length a)%nat ->
  Matrix2.productRows (Matrix2.mkMatrix a) (Matrix2.mkMatrix b) m cb
    (length b)
  = Ok (map (fun i => map (fun j => Matrix.dot a b (length b) i j)
                        (seq 0 cb))
          (seq 0 m)).
Proof.
  intros Ha Hb. unfold Matrix2.productRows.
  induction m as [|m IH]; intros Hm; [done|].
  rewrite seq_S, fold_left_app, IH by lia. simpl.
  rewrite (productRow_in_bounds a b cb) by (done || lia). simpl.
  by rewrite map_app.
Qed.

Lemma multiply2_mismatch (a b : list (list float)) (ca : nat) :
  rectangular a ca -> ca <> length b ->
  Matrix2.multiply (Matrix2.mkMatrix a) (Matrix2.Mat (Matrix2.mkMatrix b))
  = Throw (PlainError "Invalid matrix dimensions for multiplication").
Proof.
  intros Ha Hne. unfold Matrix2.multiply.
  rewrite (Matrix2Facts.getCols_rectangular a ca Ha). simpl.
  unfold Matrix2.getRows. simpl.
  apply Nat.eqb_neq in Hne. by rewrite Hne.
Qed.

Lemma multiply2_conform (a b : list (list float)) (cb : nat) :
  rectangular a (length b) -> rectangular b cb ->
  Matrix2.multiply (Matrix2.mkMatrix a) (Matrix2.Mat (Matrix2.mkMatrix b))
  = Ok (Matrix2.mkMatrix (standardProduct a b)).
Proof.
  intros Ha Hb. unfold Matrix2.multiply.
  rewrite (Matrix2Facts.getCols_rectangular a _ Ha). simpl.
  unfold Matrix2.getRows. simpl. rewrite Nat.eqb_refl. simpl.
  rewrite (Matrix2Facts.getCols_rectangular b cb Hb). simpl.
  rewrite (productRows_in_bounds a b cb) by (done || lia). simpl.
  rewrite (MatrixFacts.product_table_standard a b cb) by done.
  apply (Matrix2Facts.newMatrix2_rectangular _ cb).
  by apply (MatrixFacts.standardProduct_rectangular a b (length b) cb).
Qed.
End WithHost.
End ProductFacts.

(** C8, as amended.  For two Matrices whose inner dimensions differ,
    [multiply] never returns a product: the class that wraps its work in
    [try]/[catch] throws the error "Matrix multiplication failed", whose
    cause is the validation error "Invalid matrix dimensions for
    multiplication", and the other class throws a plain [Error] with that
    message.  When the inner dimensions agree both classes return the
    standard matrix product. *)
Theorem multiply_checks_dimensions `{H : Host}
        (a b : list (list float)) (ca cb : nat) :
  rectangular a ca -> rectangular b cb ->
  (ca <> length b ->
   Matrix.multiply (Matrix.mkMatrix a) (Matrix.mkMatrix b)
   = Throw (SimulationError "Matrix multiplication failed" computation
              (Some (SimulationError
                       "Invalid matrix dimensions for multiplication"
                       validation None)))
   /\ Matrix2.multiply (Matrix2.mkMatrix a) (Matrix2.Mat (Matrix2.mkMatrix b))
      = Throw (PlainError "Invalid matrix dimensions for multiplication"))
  /\ (ca = length b ->
      (exists r,
          Matrix.multiply (Matrix.mkMatrix a) (Matrix.mkMatrix b) = Ok r
          /\ res_data r = Matrix.mkMatrix (standardProduct a b))
      /\ Matrix2.multiply (Matrix2.mkMatrix a)
           (Matrix2.Mat (Matrix2.mkMatrix b))
         = Ok (Matrix2.mkMatrix (standardProduct a b))).
Proof.
  intros Ha Hb. split.
  - intros Hne. split.
    + by apply (ProductFacts.multiply_mismatch a b ca).
    + by apply (ProductFacts.multiply2_mismatch a b ca).
  - intros ->. split.
    + by apply (ProductFacts.multiply_conform a b cb).
    + by apply (ProductFacts.multiply2_conform a b cb).
Qed.

Lemma multiply_checks_dimensions_witness :
  Matrix2.multiply (H := Reference.host)
    (Matrix2.mkMatrix [[1; 2]; [3; 4]]%float)
    (Matrix2.Mat (Matrix2.mkMatrix [[5; 6]; [7; 8]]%float))
  = Ok (Matrix2.mkMatrix (standardProduct [[1; 2]; [3; 4]]%float
                            [[5; 6]; [7; 8]]%float)).
Proof.
  refine (proj2 (proj2 (multiply_checks_dimensions (H := Reference.host)
                          [[1; 2]; [3; 4]]%float [[5; 6]; [7; 8]]%float
                          2%nat 2%nat _ _) eq_refl));
    (split; [discriminate | repeat constructor]).
Defined.

(** C8 fails as stated: the product of a 1x2 grid with a 1x2 grid fails with
    an error classified as a computation error in the one class and with an
    unclassified error in the other, never with a validation error. *)
Lemma multiply_mismatch_not_validation :
  exists e1 e2,
    Matrix.multiply (H := Reference.host)
      (Matrix.mkMatrix [[1; 2]]%float) (Matrix.mkMatrix [[1; 2]]%float)
    = Throw e1
    /\ Matrix2.multiply (H := Reference.host)
         (Matrix2.mkMatrix [[1; 2]]%float)
         (Matrix2.Mat (Matrix2.mkMatrix [[1; 2]]%float))
       = Throw e2
    /\ errorType e1 = Some computation
    /\ errorType e2 = None
    /\ errorType e1 <> Some validation
    /\ errorType e2 <> Some validation.
Proof.
  eexists _, _. split; [vm_compute; reflexivity|].
  split; [vm_compute; reflexivity|]. repeat split; done.
Qed.

(* ------------------------------------------------------------------------- *)
(** ** Facts about binary64 arithmetic *)

Module FloatFacts.

Lemma one_shape : Prim2SF 1 = S754_finite false 4503599627370496 (-52).
Proof. reflexivity. Qed.

Lemma nan_shape (x : float) : Prim2SF x = S754_nan -> x = nan.
Proof. intros Hx. apply Prim2SF_inj. by rewrite Hx. Qed.

Lemma infinity_shape (x : float) (s : bool) :
  Prim2SF x = S754_infinity s ->
  x = if s then neg_infinity else infinity.
Proof. intros Hx. apply Prim2SF_inj. rewrite Hx. by destruct s. Qed.

Lemma is_nan_shape (x : float) :
  is_nan x = true <-> Prim2SF x = S754_nan.
Proof.
  unfold is_nan. rewrite FloatAxioms.eqb_spec. unfold SFeqb.
  destruct (Prim2SF x) as [s| s | |s m e] eqn:Hx; simpl.
  - split; done.
  - destruct s; split; done.
  - split; done.
  - rewrite Z.compare_refl, Pos.compare_cont_refl. destruct s; split; done.
Qed.

Lemma is_nan_nan (x : float) : is_nan x = true -> x = nan.
Proof. intros Hx. by apply nan_shape, is_nan_shape. Qed.

Lemma mul_nan_r (x : float) : (x * nan)%float = nan.
Proof.
  apply Prim2SF_inj. rewrite mul_spec.
  change (Prim2SF nan) with S754_nan. by destruct (Prim2SF x).
Qed.

Lemma mul_nan_l (x : float) : (nan * x)%float = nan.
Proof. apply Prim2SF_inj. by rewrite mul_spec. Qed.

Lemma div_nan_l (x : float) : (nan / x)%float = nan.
Proof. apply Prim2SF_inj. by rewrite div_spec. Qed.

Lemma add_nan_l (x : float) : (nan + x)%float = nan.
Proof. apply Prim2SF_inj. by rewrite add_spec. Qed.

Lemma add_nan_r (x : float) : (x + nan)%float = nan.
Proof.
  apply Prim2SF_inj. rewrite add_spec.
  change (Prim2SF nan) with S754_nan. by destruct (Prim2SF x).
Qed.

Lemma sub_nan_l (x : float) : (nan - x)%float = nan.
Proof. apply Prim2SF_inj. by rewrite sub_spec. Qed.

Lemma sub_nan_r (x : float) : (x - nan)%float = nan.
Proof.
  apply Prim2SF_inj. rewrite sub_spec.
  change (Prim2SF nan) with S754_nan. by destruct (Prim2SF x).
Qed.

Lemma is_zero_null (x : float) : is_zero x = true -> Num.null x.
Proof.
  unfold is_zero, Num.null. rewrite FloatAxioms.eqb_spec. unfold SFeqb.
  change (Prim2SF zero) with (S754_zero false).
  destruct (Prim2SF x) as [s| s | |s m e]; simpl; try done.
  - by destruct s.
  - by destruct s.
Qed.

Lemma div_null_unbounded (x y : float) : Num.null y -> Num.unbounded (x / y).
Proof.
  unfold Num.null, Num.unbounded. rewrite div_spec.
  destruct (Prim2SF y); try done; by destruct (Prim2SF x).
Qed.

Lemma div_unbounded (x y : float) : Num.unbounded x -> Num.unbounded (x / y).
Proof.
  unfold Num.unbounded. rewrite div_spec.
  destruct (Prim2SF x); try done; by destruct (Prim2SF y).
Qed.

Lemma div_zero_null (y : float) : Num.null (zero / y).
Proof.
  unfold Num.null. rewrite div_spec. change (Prim2SF zero) with (S754_zero false).
  by destruct (Prim2SF y).
Qed.

Lemma mul_unbounded_null (x y : float) :
  Num.unbounded x -> Num.null y -> (x * y)%float = nan.
Proof.
  unfold Num.unbounded, Num.null. intros Hx Hy. apply Prim2SF_inj.
  rewrite mul_spec. change (Prim2SF nan) with S754_nan.
  destruct (Prim2SF x); try done; by destruct (Prim2SF y).
Qed.

Lemma unit_not_infinite (v : float) :
  (abs v <=? 1)%float = true -> is_infinity v = false.
Proof.
  unfold is_infinity. rewrite FloatAxioms.leb_spec, FloatAxioms.eqb_spec, FloatAxioms.abs_spec, one_shape.
  change (Prim2SF infinity) with (S754_infinity false).
  by destruct (Prim2SF v).
Qed.

(** Multiplying by one changes nothing: the product of the mantissas is
    the mantissa followed by 52 zero bits, which the rounding shifts out
    again. *)
Lemma digits_shifted (m : positive) :
  Z.pos (digits2_pos (4503599627370496 * m)) = Z.pos (digits2_pos m) + 52.
Proof.
  change (digits2_pos (4503599627370496 * m))
    with (Nat.iter 52 Pos.succ (digits2_pos m)).
  cbv [Nat.iter nat_rect]. rewrite !Pos2Z.inj_succ. lia.
Qed.

Lemma shift_out (m : positive) :
  SpecFloat.iter_pos shr_1 52
    (Build_shr_record (Z.pos (4503599627370496 * m)) false false)
  = Build_shr_record (Z.pos m) false false.
Proof. reflexivity. Qed.

Lemma mul_one_l (y : float) : (1 * y)%float = y.
Proof.
  apply Prim2SF_inj. rewrite mul_spec, one_shape.
  pose proof (Prim2SF_valid y) as Hvalid.
  destruct (Prim2SF y) as [s| s | |s m e]; try done.
  unfold valid_binary, bounded, canonical_mantissa in Hvalid.
  apply andb_prop in Hvalid as [Hcanon Hbound].
  apply Z.eqb_eq in Hcanon.
  unfold SF64mul, SFmul, binary_round_aux, shr_fexp.
  cbn [xorb Zdigits2 shr_record_of_loc].
  rewrite digits_shifted.
  replace (Z.pos (digits2_pos m) + 52 + (-52 + e))
    with (Z.pos (digits2_pos m) + e) by lia.
  rewrite Hcanon. replace (e - (-52 + e)) with 52 by lia.
  unfold shr at 1. rewrite shift_out.
  cbn [shr_m loc_of_shr_record round_nearest_even Zdigits2].
  replace (-52 + e + 52) with e by lia.
  rewrite Hcanon, Z.sub_diag. cbn [shr shr_m]. by rewrite Hbound.
Qed.
End FloatFacts.

Module FloorFacts.

Lemma double_bounds (a b c : Z) :
  a <= b < c -> 2 * a <= 2 * b < 2 * c /\ 2 * a <= 2 * b + 1 < 2 * c.
Proof. lia. Qed.

(** A number of [d] binary digits lies between 2^(d-1) and 2^d. *)
Lemma digits_bounds (q : positive) :
  2 ^ (Z.pos (digits2_pos q) - 1) <= Z.pos q < 2 ^ Z.pos (digits2_pos q).
Proof.
  induction q as [q IH|q IH|]; cbn [digits2_pos].
  - rewrite Pos2Z.inj_succ, Pos2Z.inj_xI.
    replace (Z.succ (Z.pos (digits2_pos q)) - 1)
      with (Z.succ (Z.pos (digits2_pos q) - 1)) by lia.
    rewrite !Z.pow_succ_r by lia. apply (double_bounds _ _ _ IH).
  - rewrite Pos2Z.inj_succ, Pos2Z.inj_xO.
    replace (Z.succ (Z.pos (digits2_pos q)) - 1)
      with (Z.succ (Z.pos (digits2_pos q) - 1)) by lia.
    rewrite !Z.pow_succ_r by lia. apply (double_bounds _ _ _ IH).
  - simpl. lia.
Qed.

Lemma iter_xO_value (q d : positive) :
  Z.pos (Pos.iter xO q d) = Z.pos q * 2 ^ Z.pos d.
Proof.
  induction d as [|d IH] using Pos.peano_ind.
  - simpl. lia.
  - rewrite Pos.iter_succ, Pos2Z.inj_xO, IH, Pos2Z.inj_succ, Z.pow_succ_r
      by lia. lia.
Qed.

Lemma iter_xO_digits (q d : positive) :
  Z.pos (digits2_pos (Pos.iter xO q d)) = Z.pos (digits2_pos q) + Z.pos d.
Proof.
  induction d as [|d IH] using Pos.peano_ind.
  - simpl. lia.
  - rewrite Pos.iter_succ. cbn [digits2_pos].
    rewrite Pos2Z.inj_succ, IH, Pos2Z.inj_succ. lia.
Qed.

(** A mantissa of 53 digits with an exponent in range is rounded to
    itself. *)
Lemma round_canonical (s : bool) (m : positive) (e : Z) :
  Z.pos (digits2_pos m) = 53 -> -1074 <= e <= 971 ->
  binary_round_aux prec emax s (Z.pos m) e loc_Exact = S754_finite s m e.
Proof.
  intros Hd He. unfold binary_round_aux, shr_fexp.
  cbn [Zdigits2 shr_record_of_loc]. rewrite Hd.
  assert (Hfexp : fexp prec emax (53 + e) = e).
  { unfold fexp, emin, prec, emax. lia. }
  rewrite Hfexp, Z.sub_diag. cbn [shr shr_m loc_of_shr_record
                                   round_nearest_even Zdigits2].
  rewrite Hd, Hfexp, Z.sub_diag. cbn [shr shr_m].
  replace (e <=? emax - prec) with true; [done|].
  symmetry. apply Z.leb_le. unfold emax, prec. lia.
Qed.

(** An integer of at most 53 binary digits is a number. *)
Lemma normalize_small (s : bool) (q : positive) :
  Z.pos (digits2_pos q) <= 53 ->
  exists m e,
    binary_normalize prec emax (Num.signedZ s q) 0 false = S754_finite s m e
    /\ valid_binary (S754_finite s m e) = true
    /\ e <= 0
    /\ Z.pos m = Z.pos q * 2 ^ (- e).
Proof.
  intros Hd.
  assert (Hnorm : binary_normalize prec emax (Num.signedZ s q) 0 false
                  = binary_round prec emax s q 0) by (by destruct s).
  rewrite Hnorm. unfold binary_round, shl_align.
  assert (Hfexp : fexp prec emax (Z.pos (digits2_pos q) + 0)
                  = Z.pos (digits2_pos q) - 53).
  { unfold fexp, emin, prec, emax. lia. }
  rewrite Hfexp.
  destruct (Z.pos (digits2_pos q) - 53 - 0) as [|p|p] eqn:Hshift; [|lia|].
  - exists q, 0. rewrite round_canonical by lia.
    split; [done|]. split; [|split; [lia|simpl; lia]].
    unfold valid_binary, bounded, canonical_mantissa.
    replace (Z.pos (digits2_pos q)) with 53 by lia. reflexivity.
  - exists (Pos.iter xO q p), (Z.pos (digits2_pos q) - 53).
    rewrite round_canonical
      by (rewrite ?iter_xO_digits; lia).
    split; [done|]. split; [|split; [lia|]].
    + unfold valid_binary, bounded, canonical_mantissa.
      rewrite iter_xO_digits.
      replace (Z.pos (digits2_pos q) + Z.pos p
               + (Z.pos (digits2_pos q) - 53))
        with (53 + (Z.pos (digits2_pos q) - 53)) by lia.
      apply andb_true_intro. split.
      * apply Z.eqb_eq. unfold fexp, emin, prec, emax. lia.
      * apply Z.leb_le. unfold emax, prec. lia.
    + rewrite iter_xO_value. f_equal. f_equal. lia.
Qed.

(** Such an integer is the integer part of the number it becomes. *)
Lemma truncZ_ofZ (s : bool) (q : positive) :
  Z.pos (digits2_pos q) <= 53 ->
  Num.truncZ (Num.ofZ (Num.signedZ s q)) = Some (Num.signedZ s q)
  /\ is_nan (Num.ofZ (Num.signedZ s q)) = false.
Proof.
  intros Hd. destruct (normalize_small s q Hd) as (m & e & Hn & Hv & He & Hm).
  unfold Num.ofZ. rewrite Hn. split.
  - unfold Num.truncZ. rewrite (Prim2SF_SF2Prim _ Hv).
    f_equal. destruct (Z.leb_spec 0 e) as [H0|H0].
    + assert (e = 0) as -> by lia. simpl in Hm.
      destruct s; simpl; lia.
    + assert (Hpow : 0 < 2 ^ (- e)) by (apply Z.pow_pos_nonneg; lia).
      destruct s; simpl Num.signedZ.
      * change (Z.neg m) with (- Z.pos m). rewrite Hm.
        rewrite Z.quot_opp_l by lia. rewrite Z.quot_mul by lia. done.
      * rewrite Hm. rewrite Z.quot_mul by lia. done.
  - destruct (is_nan (SF2Prim (S754_finite s m e))) eqn:Hnan; [|done].
    apply FloatFacts.is_nan_shape in Hnan.
    by rewrite (Prim2SF_SF2Prim _ Hv) in Hnan.
Qed.

Lemma div_magnitude (a p : Z) : 1 <= p -> Z.abs (a / p) <= Z.abs a.
Proof.
  intros Hp. pose proof (Z.div_mod a p ltac:(lia)) as Hdm.
  pose proof (Z.mod_pos_bound a p ltac:(lia)) as Hmod.
  generalize dependent (a / p). generalize dependent (a mod p).
  intros r Hr q Hq. nia.
Qed.

Lemma small_digits (q : positive) :
  Z.pos q < 2 ^ 53 -> Z.pos (digits2_pos q) <= 53.
Proof.
  intros Hq. pose proof (digits_bounds q) as [Hlow _].
  destruct (Z.le_gt_cases (Z.pos (digits2_pos q)) 53) as [|Hgt]; [done|].
  assert (2 ^ 53 <= 2 ^ (Z.pos (digits2_pos q) - 1))
    by (apply Z.pow_le_mono_r; lia).
  lia.
Qed.

(** The mantissa of a number is below 2^53. *)
Lemma mantissa_bound (x : float) (s : bool) (m : positive) (e : Z) :
  Prim2SF x = S754_finite s m e -> Z.pos m < 2 ^ 53.
Proof.
  intros Hx. pose proof (Prim2SF_valid x) as Hv. rewrite Hx in Hv.
  unfold valid_binary, bounded, canonical_mantissa in Hv.
  apply andb_prop in Hv as [Hc _]. apply Z.eqb_eq in Hc.
  assert (Hd : Z.pos (digits2_pos m) <= 53)
    by (unfold fexp, emin, prec, emax in Hc; lia).
  pose proof (digits_bounds m) as [_ Hup].
  assert (2 ^ Z.pos (digits2_pos m) <= 2 ^ 53)
    by (apply Z.pow_le_mono_r; lia).
  lia.
Qed.

(** Rounding a non-negative significand never gives NaN. *)
Lemma iter_pos_invariant {A : Type} (P : A -> Prop) (f : A -> A) :
  (forall x, P x -> P (f x)) ->
  forall (p : positive) (x : A), P x -> P (SpecFloat.iter_pos f p x).
Proof.
  intros Hf. induction p as [p IH|p IH|]; intros x Hx; cbn [SpecFloat.iter_pos].
  - by apply IH, IH, Hf.
  - by apply IH, IH.
  - by apply Hf.
Qed.

Lemma shr_1_nonneg (r : shr_record) : 0 <= shr_m r -> 0 <= shr_m (shr_1 r).
Proof.
  destruct r as [m r s]. cbn [shr_m shr_1].
  destruct m as [|[p|p|]|[p|p|]]; cbn [shr_m]; lia.
Qed.

Lemma shr_fexp_nonneg (m e : Z) (l : location) :
  0 <= m -> 0 <= shr_m (fst (shr_fexp prec emax m e l)).
Proof.
  intros Hm. unfold shr_fexp, shr.
  assert (Hr : 0 <= shr_m (shr_record_of_loc m l))
    by (by destruct l as [|[| |]]).
  destruct (_ - e) as [|p|p]; cbn [fst]; [done| |done].
  by apply (iter_pos_invariant (fun r => 0 <= shr_m r)), Hr;
    [apply shr_1_nonneg].
Qed.

Lemma round_nearest_even_nonneg (m : Z) (l : location) :
  0 <= m -> 0 <= round_nearest_even m l.
Proof.
  intros Hm. destruct l as [|[| |]]; cbn [round_nearest_even];
    [done| |done|lia].
  destruct (Z.even m); lia.
Qed.

Lemma round_not_nan (s : bool) (m : positive) (e : Z) :
  binary_round_aux prec emax s (Z.pos m) e loc_Exact <> S754_nan.
Proof.
  unfold binary_round_aux.
  pose proof (shr_fexp_nonneg (Z.pos m) e loc_Exact ltac:(lia)) as H1.
  destruct (shr_fexp prec emax (Z.pos m) e loc_Exact) as [r1 e1].
  cbn [fst] in H1.
  pose proof (shr_fexp_nonneg _ e1 loc_Exact
                (round_nearest_even_nonneg _ (loc_of_shr_record r1) H1))
    as H2.
  destruct (shr_fexp prec emax _ e1 loc_Exact) as [r2 e2].
  cbn [fst] in H2.
  destruct (shr_m r2) as [|q|q]; [done| |lia].
  by destruct (_ <=? _).
Qed.

(** The product of a number with a finite number is a number. *)
Lemma mul_finite_not_nan (x y : float) (s : bool) (m : positive) (e : Z) :
  is_nan x = false ->
  Prim2SF y = S754_finite s m e ->
  is_nan (x * y)%float = false.
Proof.
  intros Hx Hy. apply not_true_is_false. intros Hnan.
  apply FloatFacts.is_nan_shape in Hnan.
  rewrite mul_spec, Hy in Hnan.
  destruct (Prim2SF x) as [sx|sx| |sx mx ex] eqn:Hsx;
    cbn [SF64mul SFmul] in Hnan; try done.
  - apply FloatFacts.is_nan_shape in Hsx. congruence.
  - by apply round_not_nan in Hnan.
Qed.

Section WithHost.
Context {H : Host}.

(** The length of the typed array that [Math.floor(y)] sizes is the
    integer below [y]. *)
Lemma floor_length (y : float) (n : nat) :
  is_nan y = false ->
  newFloat64Array (Num.floor y) = Ok n ->
  Num.floorZ y = Some (Z.of_nat n).
Proof.
  intros Hnan. unfold Num.floor, Num.floorZ.
  destruct (Prim2SF y) as [s|s| |s m e] eqn:Hy.
  - unfold newFloat64Array, Num.truncZ. rewrite Hnan, Hy.
    destruct (_ || _)%bool; [done|]. by intros [= <-].
  - unfold newFloat64Array, Num.truncZ. by rewrite Hnan, Hy.
  - apply FloatFacts.is_nan_shape in Hy. congruence.
  - destruct (Z.leb_spec 0 e) as [He|He].
    + unfold newFloat64Array, Num.truncZ. rewrite Hnan, Hy.
      destruct (Z.leb_spec 0 e); [|lia].
      destruct (Z.ltb_spec (Num.signedZ s m * 2 ^ e) 0); [done|].
      destruct (_ <? _); [done|]. cbn [orb]. intros [= <-].
      f_equal. lia.
    + pose proof (mantissa_bound y s m e Hy) as Hm.
      assert (Hpow : 1 <= 2 ^ (- e))
        by (pose proof (Z.pow_pos_nonneg 2 (- e)); lia).
      pose proof (div_magnitude (Num.signedZ s m) (2 ^ (- e)) Hpow) as Hz.
      assert (Habs : Z.abs (Num.signedZ s m) = Z.pos m) by (by destruct s).
      rewrite Habs in Hz.
      destruct (Num.signedZ s m / 2 ^ (- e)) as [|q|q] eqn:Hq.
      * cbn [Z.eqb]. unfold newFloat64Array.
        change (is_nan zero) with false.
        change (Num.truncZ zero) with (Some 0). cbv beta iota.
        destruct (_ || _)%bool; [done|]. by intros [= <-].
      * cbn [Z.eqb].
        destruct (truncZ_ofZ false q) as [Ht Hn];
          [apply small_digits; lia|].
        unfold newFloat64Array. cbn [Num.signedZ] in Ht, Hn.
        rewrite Hn, Ht. cbv beta iota.
        destruct (_ || _)%bool; [done|]. intros [= <-]. f_equal. lia.
      * cbn [Z.eqb].
        destruct (truncZ_ofZ true q) as [Ht Hn];
          [apply small_digits; lia|].
        unfold newFloat64Array. cbn [Num.signedZ] in Ht, Hn.
        rewrite Hn, Ht. cbv beta iota.
        change (Z.neg q <? 0) with true. done.
Qed.
End WithHost.
End FloorFacts.

(* ------------------------------------------------------------------------- *)
(** ** Facts about strings *)

Module StrFacts.
Import Str.

Lemma isEmpty_true (s : string) : isEmpty s = true <-> s = EmptyString.
Proof. destruct s; split; done. Qed.

Lemma isEmpty_false (s : string) : isEmpty s = false <-> s <> EmptyString.
Proof. destruct s; split; done. Qed.

Lemma split_not_nil (c : ascii) (s : string) : split c s <> [].
Proof.
  induction s as [|d s IH]; [done|]. simpl.
  destruct (Ascii.eqb d c); [done|]. by destruct (split c s).
Qed.

(** A string without the separator is its own single segment; a string
    with it has two segments at least. *)
Lemma split_includes (c : ascii) (s : string) :
  if includes c s then exists s1 s2 rest, split c s = s1 :: s2 :: rest
  else split c s = [s].
Proof.
  induction s as [|d s IH]; [done|]. simpl.
  destruct (Ascii.eqb d c) eqn:Hd; simpl.
  - pose proof (split_not_nil c s) as Hne.
    destruct (split c s) as [|h t]; [done|]. by exists EmptyString, h, t.
  - destruct (includes c s).
    + destruct IH as (s1 & s2 & rest & ->). by exists (String d s1), s2, rest.
    + by rewrite IH.
Qed.

Lemma split_two_includes (c : ascii) (s s1 s2 : string) (rest : list string) :
  split c s = s1 :: s2 :: rest -> includes c s = true /\ s <> EmptyString.
Proof.
  intros Hs. pose proof (split_includes c s) as Hi.
  destruct (includes c s); [|by rewrite Hi in Hs].
  split; [done|]. by intros ->.
Qed.

Lemma trimStart_length (s : string) :
  (String.length (trimStart s) <= String.length s)%nat.
Proof.
  induction s as [|c s IH]; [done|]. simpl.
  destruct (isWhitespace c); simpl; lia.
Qed.

Lemma trimEnd_length (s : string) :
  (String.length (trimEnd s) <= String.length s)%nat.
Proof.
  induction s as [|c s IH]; [done|]. simpl.
  destruct (isWhitespace c && isEmpty (trimEnd s))%bool; simpl; lia.
Qed.

Lemma trim_length (s : string) :
  (String.length (trim s) <= String.length s)%nat.
Proof.
  unfold trim. pose proof (trimEnd_length (trimStart s)).
  pose proof (trimStart_length s). lia.
Qed.

Lemma split_length (c : ascii) (s piece : string) :
  In piece (split c s) -> (String.length piece <= String.length s)%nat.
Proof.
  revert piece. induction s as [|d s IH]; intros piece.
  - simpl. intros [<-|[]]. done.
  - simpl. destruct (Ascii.eqb d c).
    + intros [<-|Hin]; [simpl; lia|]. apply IH in Hin. lia.
    + destruct (split c s) as [|h t] eqn:Hs.
      * intros [<-|[]]. simpl. lia.
      * intros [<-|Hin].
        -- simpl. specialize (IH h (or_introl eq_refl)). lia.
        -- specialize (IH piece (or_intror Hin)). lia.
Qed.

Lemma take_length (n : nat) (s : string) :
  (String.length (take n s) <= n)%nat.
Proof.
  revert s. induction n as [|n IH]; intros [|c s]; simpl; try lia.
  specialize (IH s). lia.
Qed.

(** A substring that starts after the first character is shorter than the
    string. *)
Lemma substring_length (a b : Z) (s : string) :
  1 <= a -> 1 <= b ->
  s <> EmptyString ->
  (String.length (substring a b s) < String.length s)%nat.
Proof.
  intros Ha Hb Hs. unfold substring.
  assert (0 < String.length s)%nat by (destruct s; [done | simpl; lia]).
  match goal with |- (String.length (take ?n _) < _)%nat =>
    pose proof (take_length n (drop (Z.to_nat
      (Z.min (Z.min (Z.max a 0) (Z.of_nat (String.length s)))
             (Z.min (Z.max b 0) (Z.of_nat (String.length s))))) s)) end.
  lia.
Qed.

Lemma indexOf_nonneg_or_missing (p s : string) :
  indexOf p s = -1 \/ 0 <= indexOf p s.
Proof.
  induction s as [|c s IH]; simpl.
  - destruct (startsWith p EmptyString); [by right | by left].
  - destruct (startsWith p (String c s)); [by right|].
    destruct (indexOf p s <? 0) eqn:Hlt; [by left|]. right. lia.
Qed.

Lemma indexOf_includes (c : ascii) (s : string) :
  includes c s = true -> 0 <= indexOf (String c EmptyString) s.
Proof.
  induction s as [|d s IH]; [done|]. simpl.
  destruct (Ascii.eqb c d) eqn:Hcd.
  - destruct (startsWith EmptyString s) eqn:He; [done|]. by destruct s.
  - rewrite Ascii.eqb_sym, Hcd. simpl. intros Hin.
    specialize (IH Hin).
    destruct (indexOf (String c EmptyString) s <? 0) eqn:Hlt; lia.
Qed.

(** Splitting at a character gives one segment more than the string has
    occurrences of it. *)
Lemma split_occurrences (c : ascii) (s : string) :
  length (split c s) = S (occurrences c s).
Proof.
  induction s as [|d s IH]; [done|]. simpl.
  destruct (Ascii.eqb d c); simpl; [by rewrite IH|].
  destruct (split c s); simpl in *; lia.
Qed.

(** The segments, joined with the character again, are the string. *)
Lemma split_join (c : ascii) (s : string) :
  join (String c EmptyString) (split c s) = s.
Proof.
  induction s as [|d s IH]; [done|]. simpl.
  pose proof (split_not_nil c s) as Hne.
  destruct (Ascii.eqb_spec d c) as [->|Hdc].
  - destruct (split c s) as [|h t]; [done|].
    change (join (String c EmptyString) (EmptyString :: h :: t))
      with (String c (join (String c EmptyString) (h :: t))).
    by rewrite IH.
  - destruct (split c s) as [|h t]; [done|].
    rewrite <- IH. by destruct t.
Qed.

(** No segment holds the character. *)
Lemma split_free (c : ascii) (s : string) :
  Forall (fun piece => occurrences c piece = 0%nat) (split c s).
Proof.
  induction s as [|d s IH]; [by constructor|]. simpl.
  destruct (Ascii.eqb d c) eqn:Hd; [by constructor|].
  destruct (split c s) as [|h t]; [constructor; [|done]; simpl; by rewrite Hd|].
  inversion IH as [|? ? Hh Ht]; subst.
  constructor; [|done]. simpl. by rewrite Hd, Hh.
Qed.
End StrFacts.

Module SignalFacts.
Import Signal.

Section WithHost.
Context {H : Host}.

Lemma validateData_ok (d : list float) :
  validateData d = Ok tt <-> Forall (fun v => is_nan v = false) d.
Proof.
  unfold validateData. rewrite Forall_forall.
  destruct (forallb _ d) eqn:Hall.
  - split; [|done]. intros _ v Hv. apply list_elem_of_In in Hv.
    rewrite forallb_forall in Hall. apply Hall in Hv.
    by apply negb_true_iff in Hv.
  - split; [done|]. intros Hd. exfalso.
    assert (forallb (fun v => negb (Num.isNaN v)) d = true) as Hd'.
    { apply forallb_forall. intros v Hv. apply negb_true_iff, Hd.
      by apply list_elem_of_In. }
    congruence.
Qed.

Lemma validateData_cases (d : list float) :
  validateData d = Ok tt \/ validateData d = Throw invalidData.
Proof. unfold validateData. destruct (forallb _ d); [by left|by right]. Qed.

Lemma validateData_nan (d : list float) :
  In nan d -> validateData d = Throw invalidData.
Proof.
  intros Hin. destruct (validateData_cases d) as [Hok|Hbad]; [|done].
  apply validateData_ok in Hok. rewrite Forall_forall in Hok.
  by apply list_elem_of_In, Hok in Hin.
Qed.

Lemma newSignal_ok (d : list float) (rate : float) (s : Signal) :
  newSignal d rate = Ok s ->
  s = mkSignal d rate ∅ /\ Forall (fun v => is_nan v = false) d.
Proof.
  unfold newSignal. destruct (validateData d) as [[]|e] eqn:Hv; [|done].
  simpl. intros [= <-]. split; [done|]. by apply validateData_ok.
Qed.

Lemma newSignal_cases (d : list float) (rate : float) :
  newSignal d rate = Ok (mkSignal d rate ∅)
  \/ newSignal d rate = Throw invalidData.
Proof.
  unfold newSignal.
  destruct (validateData_cases d) as [->| ->]; [by left | by right].
Qed.

(** What [generateSine] returns is made of the sines it computed, one per
    slot of the typed array. *)
Lemma generateSine_ok (frequency duration rate amplitude phase : float)
      (r : SimulationResult Signal) :
  generateSine frequency duration rate amplitude phase = Ok r ->
  exists n,
    newFloat64Array (Num.floor (duration * rate)) = Ok n
    /\ data (res_data r)
       = map (fun i =>
                (amplitude
                 * Math_sin ((2 * Num.PI * frequency * Num.ofNat i) / rate
                             + phase))%float)
           (seq 0 n)
    /\ sampleRate (res_data r) = rate
    /\ Forall (fun v => is_nan v = false) (data (res_data r)).
Proof.
  unfold generateSine.
  destruct (newFloat64Array _) as [n|e] eqn:Hn; [|done]. cbn [bind tryCatch].
  rewrite fillArray_map.
  destruct (newSignal _ rate) as [s|e] eqn:Hs; [|done].
  apply newSignal_ok in Hs as [-> Hd]. cbn [bind tryCatch].
  intros [= <-]. exists n. by repeat split.
Qed.

Lemma generateChirp_ok (o : ChirpOptions) (r : SimulationResult Signal) :
  generateChirp o = Ok r ->
  Forall (fun v => is_nan v = false /\ exists a, v = Math_sin a)
    (data (res_data r)).
Proof.
  unfold generateChirp.
  destruct (newFloat64Array _) as [n|e] eqn:Hn; [|done]. cbn [bind].
  destruct (newSignal _ _) as [s|e] eqn:Hs; [|done].
  apply newSignal_ok in Hs as [-> Hd]. cbn [bind].
  intros [= <-]. cbn [res_data data].
  rewrite Forall_forall in Hd. apply Forall_forall. intros v Hv.
  split; [by apply Hd|]. apply list_elem_of_In in Hv.
  destruct (default true (method o));
    rewrite fillArray_map in Hv; apply in_map_iff in Hv as (i & <- & _);
    by eexists.
Qed.

Context {L : HostLaws H}.

Lemma sin_bounded (a : float) :
  is_nan (Math_sin a) = false -> (abs (Math_sin a) <=? 1)%float = true.
Proof. intros Hnan. destruct (sin_range a) as [Hn|Hb]; congruence. Qed.

(** The first sample of an exponential chirp that starts at frequency
    zero is NaN. *)
Lemma exponential_first_sample (f0 f1 dur rate : float) :
  is_zero f0 = true ->
  Math_sin ((2 * Num.PI * f0
             * (Math_exp (Math_log (f1 / f0) / dur * (Num.ofNat 0 / rate))
                - 1))
            / (Math_log (f1 / f0) / dur))%float = nan.
Proof.
  intros Hf0.
  assert (Hscale : Num.unbounded (Math_log (f1 / f0) / dur)).
  { apply FloatFacts.div_unbounded.
    pose proof (FloatFacts.div_null_unbounded f1 f0
                  (FloatFacts.is_zero_null f0 Hf0)) as Hratio.
    unfold Num.unbounded in Hratio.
    destruct (Prim2SF (f1 / f0)%float) as [s|s| |s m e] eqn:Hshape;
      try done.
    - apply FloatFacts.infinity_shape in Hshape. rewrite Hshape.
      destruct s.
      + by rewrite log_neg_infinity.
      + by rewrite log_infinity.
    - apply FloatFacts.nan_shape in Hshape. rewrite Hshape.
      by rewrite log_nan. }
  change (Num.ofNat 0) with zero.
  rewrite (FloatFacts.mul_unbounded_null _ _ Hscale
             (FloatFacts.div_zero_null rate)).
  rewrite exp_nan. change (nan - 1)%float with nan.
  rewrite FloatFacts.mul_nan_r, FloatFacts.div_nan_l. apply sin_nan.
Qed.
End WithHost.
End SignalFacts.

Module DecomposeFacts.
Import Signal.

Lemma nth_replicate_nan (n i : nat) : nth i (replicate n nan) nan = nan.
Proof.
  revert i. induction n as [|n IH]; intros [|i]; cbn [replicate nth];
    by rewrite ?IH.
Qed.

Lemma imap_constant {A B} (f : nat -> A -> B) (c : B) (l : list A) :
  (forall i v, l !! i = Some v -> f i v = c) ->
  imap f l = replicate (length l) c.
Proof.
  intros Hf. apply list_eq. intros i. rewrite list_lookup_imap.
  destruct (l !! i) as [v|] eqn:Hv; cbn.
  - rewrite (Hf i v Hv). symmetry. apply lookup_replicate_2.
    by apply lookup_lt_Some in Hv.
  - symmetry. apply lookup_ge_None_2. rewrite length_replicate.
    by apply lookup_ge_None_1.
Qed.

Lemma fold_left_absorbing {A} (g : float -> A -> float) (l : list A) :
  (forall sum i, g sum i = nan) -> l <> [] ->
  forall sum, fold_left g l sum = nan.
Proof.
  intros Hg. induction l as [|i l IH]; [done|]. intros _ sum.
  cbn [fold_left]. rewrite Hg. destruct l as [|j l]; [done|].
  by apply IH.
Qed.

Lemma fold_left_skip {A B} (b : A -> bool) (g : list B -> A -> list B)
      (l : list A) (acc : list B) :
  (forall i, b i = false) ->
  fold_left (fun extrema i => if b i then g extrema i else extrema) l acc
  = acc.
Proof.
  intros Hb. revert acc. induction l as [|i l IH]; intros acc; [done|].
  cbn [fold_left]. by rewrite Hb, IH.
Qed.

Section WithHost.
Context {H : Host}.

(** Without extrema the weights sum to zero, and every point of the
    envelope is 0/0. *)
Lemma computeEnvelope_no_extrema (d : list float) (type : EnvelopeType) :
  findExtrema type d = [] ->
  computeEnvelope d type = replicate (length d) nan.
Proof.
  intros Hnone. unfold computeEnvelope. rewrite Hnone.
  change (fold_left _ _ _)
    with (fillArray (length d) (envelopeAt [])).
  rewrite fillArray_map.
  change (envelopeAt []) with (fun _ : nat => nan).
  apply map_seq_replicate.
Qed.

Lemma length_computeEnvelope (d : list float) (type : EnvelopeType) :
  length (computeEnvelope d type) = length d.
Proof.
  unfold computeEnvelope.
  change (fold_left _ _ _)
    with (fillArray (length d) (envelopeAt (findExtrema type d))).
  by rewrite fillArray_map, length_map, length_seq.
Qed.

(** No comparison with NaN holds: an array of NaN has no extremum. *)
Lemma findExtrema_nan (type : EnvelopeType) (n : nat) :
  findExtrema type (replicate n nan) = [].
Proof.
  unfold findExtrema.
  apply (fold_left_skip (isExtremum type (replicate n nan))
           (fun extrema i =>
              extrema ++ [(i, nth i (replicate n nan) nan)])).
  intros i. unfold isExtremum. rewrite !nth_replicate_nan.
  by destruct type.
Qed.

(** One pass of the sifting loop on data without an interior maximum
    turns every sample into NaN. *)
Lemma siftStep_no_maximum (d : list float) :
  findExtrema envMax d = [] ->
  siftStep d = replicate (length d) nan.
Proof.
  intros Hnone. unfold siftStep.
  rewrite (computeEnvelope_no_extrema d envMax Hnone).
  rewrite (imap_constant _ nan (replicate (length d) nan)).
  - rewrite length_replicate. apply imap_constant. intros i v _.
    rewrite nth_replicate_nan. apply FloatFacts.sub_nan_r.
  - intros i v Hv. apply lookup_replicate_1 in Hv as [-> _].
    by rewrite FloatFacts.add_nan_l, FloatFacts.div_nan_l.
Qed.

(** The criterion is never met by an array of NaN. *)
Lemma checkIMFCriterion_nan (n : nat) (previous : list float) :
  (0 < n)%nat ->
  checkIMFCriterion (replicate n nan) previous = false.
Proof.
  intros Hn. unfold checkIMFCriterion.
  rewrite fold_left_absorbing; [done| |].
  - intros sum i. rewrite nth_replicate_nan, FloatFacts.sub_nan_l.
    change (abs nan * abs nan)%float with nan.
    apply FloatFacts.add_nan_r.
  - rewrite length_replicate. destruct n; [lia|done].
Qed.

Lemma sift_nan (fuel n : nat) :
  (0 < n)%nat -> sift fuel (replicate n nan) = None.
Proof.
  intros Hn. induction fuel as [|fuel IH]; [done|].
  cbn [sift].
  rewrite (siftStep_no_maximum _ (findExtrema_nan envMax n)).
  rewrite length_replicate.
  by rewrite checkIMFCriterion_nan.
Qed.

(** On data with a sample and without an interior maximum the sifting
    loop never ends: no number of passes meets the criterion. *)
Lemma sift_diverges (fuel : nat) (d : list float) :
  d <> [] -> findExtrema envMax d = [] -> sift fuel d = None.
Proof.
  intros Hd Hnone. destruct fuel as [|fuel]; [done|].
  assert (Hn : (0 < length d)%nat) by (destruct d; [done|simpl; lia]).
  cbn [sift]. rewrite (siftStep_no_maximum d Hnone).
  rewrite checkIMFCriterion_nan by done.
  by apply sift_nan.
Qed.

Lemma decompose_diverges (fuel k : nat) (self : Signal) :
  data self <> [] -> findExtrema envMax (data self) = [] ->
  decompose fuel self emd (S k) = None.
Proof.
  intros Hd Hnone. unfold decompose. cbn [emdModes].
  by rewrite sift_diverges.
Qed.

(** A Signal of one sample is such data. *)
Lemma decompose_one_sample (fuel k : nat) (x rate : float)
      (meta : gmap string float) :
  decompose fuel (mkSignal [x] rate meta) emd (S k) = None.
Proof. by apply decompose_diverges. Qed.
End WithHost.
End DecomposeFacts.

(* ------------------------------------------------------------------------- *)
(** ** The sifting loop on data with samples *)

Module SiftFacts.
Import Signal.

Lemma mul_unbounded_r (v w : float) :
  Num.unbounded w -> Num.unbounded (v * w).
Proof.
  unfold Num.unbounded. rewrite mul_spec.
  destruct (Prim2SF w); try done; by destruct (Prim2SF v).
Qed.

Lemma add_unbounded_r (a b : float) :
  Num.unbounded b -> Num.unbounded (a + b).
Proof.
  unfold Num.unbounded. rewrite add_spec.
  destruct (Prim2SF b) as [sb|sb| |sb mb eb]; try done;
    destruct (Prim2SF a) as [sa|sa| |sa ma ea]; try done.
  by destruct sa, sb.
Qed.

Lemma add_unbounded_l (a b : float) :
  Num.unbounded a -> Num.unbounded (a + b).
Proof.
  unfold Num.unbounded. rewrite add_spec.
  destruct (Prim2SF a) as [sa|sa| |sa ma ea]; try done;
    destruct (Prim2SF b) as [sb|sb| |sb mb eb]; try done.
  by destruct sa, sb.
Qed.

Lemma div_unbounded_nan (a b : float) :
  Num.unbounded a -> Num.unbounded b -> (a / b)%float = nan.
Proof.
  unfold Num.unbounded. intros Ha Hb. apply Prim2SF_inj.
  rewrite div_spec. change (Prim2SF nan) with S754_nan.
  destruct (Prim2SF a); try done; by destruct (Prim2SF b).
Qed.

(** The distance of an index to itself is zero, or NaN when the index is
    beyond the finite numbers. *)
Lemma abs_sub_self (x : float) :
  abs (x - x)%float = zero \/ abs (x - x)%float = nan.
Proof.
  destruct (Prim2SF x) as [s|s| |s m e] eqn:Hx.
  - left. apply Prim2SF_inj. rewrite abs_spec, sub_spec, Hx. by destruct s.
  - right. apply Prim2SF_inj. rewrite abs_spec, sub_spec, Hx. by destruct s.
  - right. apply Prim2SF_inj. by rewrite abs_spec, sub_spec, Hx.
  - left. apply Prim2SF_inj. rewrite abs_spec, sub_spec, Hx.
    unfold SF64sub, SFsub. by rewrite Z.sub_diag.
Qed.

Lemma nth_imap {A B} (f : nat -> A -> B) (l : list A) (i : nat)
      (da : A) (db : B) :
  (i < length l)%nat -> nth i (imap f l) db = f i (nth i l da).
Proof.
  intros Hi. apply nth_lookup_Some. rewrite list_lookup_imap.
  by rewrite (lookup_nth_lt l i da Hi).
Qed.

Lemma fold_left_nan_from (g : float -> nat -> float) (l : list nat) :
  (forall k, g nan k = nan) -> fold_left g l nan = nan.
Proof.
  intros Hg. induction l as [|k l IH]; [done|].
  cbn [fold_left]. by rewrite Hg.
Qed.

(** An element that is NaN keeps the criterion from holding. *)
Lemma criterion_nan_at (current previous : list float) (i : nat) :
  (i < length current)%nat -> nth i current nan = nan ->
  checkIMFCriterion current previous = false.
Proof.
  intros Hi Hnan. unfold checkIMFCriterion.
  replace (seq 0 (length current))
    with (seq 0 i ++ i :: seq (S i) (length current - S i)).
  - rewrite fold_left_app. cbn [fold_left].
    rewrite Hnan, FloatFacts.sub_nan_l.
    change (abs nan * abs nan)%float with nan.
    rewrite FloatFacts.add_nan_r.
    rewrite fold_left_nan_from; [done|].
    intros k. apply FloatFacts.add_nan_l.
  - change (i :: seq (S i) (length current - S i))
      with (seq i (S (length current - S i))).
    rewrite <- seq_app. f_equal. lia.
Qed.

(** The extrema that are found lie inside the data. *)
Lemma findExtrema_index (type : EnvelopeType) (d : list float)
      (i : nat) (v : float) :
  In (i, v) (findExtrema type d) -> (i < length d)%nat.
Proof.
  unfold findExtrema.
  assert (Hfold : forall l acc,
             In (i, v)
               (fold_left
                  (fun extrema k =>
                     if isExtremum type d k
                     then extrema ++ [(k, nth k d nan)] else extrema)
                  l acc) ->
             In (i, v) acc \/ In i l).
  { induction l as [|k l IH]; intros acc Hin; [by left|].
    cbn [fold_left] in Hin. apply IH in Hin as [Hacc|Hl].
    - destruct (isExtremum type d k); [|by left].
      apply in_app_or in Hacc as [Hacc|[[= <- _]|[]]];
        [by left | right; by left].
    - right. by right. }
  intros Hin. apply Hfold in Hin as [[]|Hseq].
  apply in_seq in Hseq. lia.
Qed.

Section WithHost.
Context {H : Host}.

Lemma length_siftStep (d : list float) :
  length (siftStep d) = length d.
Proof. unfold siftStep. by rewrite length_imap. Qed.

Lemma envelope_point (d : list float) (type : EnvelopeType) (i : nat) :
  (i < length d)%nat ->
  nth i (computeEnvelope d type) nan
  = envelopeAt (findExtrema type d) i.
Proof.
  intros Hi. unfold computeEnvelope.
  change (fold_left _ _ _)
    with (fillArray (length d) (envelopeAt (findExtrema type d))).
  rewrite fillArray_map. by apply nth_map_seq.
Qed.

(** A pass of the sifting loop turns into NaN every sample at which the
    upper envelope is NaN, and keeps NaN where it finds it. *)
Lemma siftStep_point (d : list float) (i : nat) :
  (i < length d)%nat ->
  nth i (computeEnvelope d envMax) nan = nan \/ nth i d nan = nan ->
  nth i (siftStep d) nan = nan.
Proof.
  intros Hi Hnan. unfold siftStep.
  rewrite (nth_imap _ d i nan nan Hi).
  rewrite (nth_imap _ _ i nan nan)
    by (by rewrite DecomposeFacts.length_computeEnvelope).
  destruct Hnan as [-> | ->].
  - by rewrite FloatFacts.add_nan_l, FloatFacts.div_nan_l,
      FloatFacts.sub_nan_r.
  - apply FloatFacts.sub_nan_l.
Qed.

(** Once a sample is NaN the loop never ends. *)
Lemma sift_nan_at (fuel : nat) :
  forall (imf : list float) (i : nat),
    (i < length imf)%nat -> nth i imf nan = nan -> sift fuel imf = None.
Proof.
  induction fuel as [|fuel IH]; intros imf i Hi Hnan; [done|].
  cbn [sift].
  assert (Hstep : nth i (siftStep imf) nan = nan)
    by (apply siftStep_point; [done | by right]).
  rewrite (criterion_nan_at (siftStep imf) imf i)
    by (by rewrite ?length_siftStep).
  apply (IH _ i); [by rewrite length_siftStep | done].
Qed.

Context {L : PowLaws H}.

(** The weight of an extremum at its own index is infinite, or NaN. *)
Lemma weight_unbounded (x : float) :
  Num.unbounded (1 / Math_pow (abs (x - x)) 2)%float.
Proof.
  destruct (abs_sub_self x) as [-> | ->].
  - by rewrite pow_zero.
  - by rewrite pow_nan.
Qed.

(** At the index of an extremum both sums of the interpolation are
    infinite or NaN, and stay so. *)
Lemma envelope_sums (extrema : list (nat * float)) (i : nat) :
  forall numerator denominator,
    (Num.unbounded numerator /\ Num.unbounded denominator)
    \/ (exists val, In (i, val) extrema) ->
    let '(n, dn) :=
      fold_left
        (fun '(numerator, denominator) '(idx, val) =>
           let weight :=
             (1 / Math_pow (abs (Num.ofNat i - Num.ofNat idx)) 2)%float in
           ((numerator + val * weight)%float,
            (denominator + weight)%float))
        extrema (numerator, denominator) in
    Num.unbounded n /\ Num.unbounded dn.
Proof.
  induction extrema as [|[idx val] extrema IH];
    intros numerator denominator Hstate.
  - cbn [fold_left]. by destruct Hstate as [Hs|[v []]].
  - cbn [fold_left]. apply IH.
    destruct Hstate as [[Hn Hd]|[v [[= -> ->]|Hin]]].
    + left. split; by apply add_unbounded_l.
    + left. pose proof (weight_unbounded (Num.ofNat i)) as Hw. split.
      * by apply add_unbounded_r, mul_unbounded_r.
      * by apply add_unbounded_r.
    + right. by exists v.
Qed.

Lemma envelopeAt_extremum (extrema : list (nat * float)) (i : nat)
      (val : float) :
  In (i, val) extrema -> envelopeAt extrema i = nan.
Proof.
  intros Hin. unfold envelopeAt.
  pose proof (envelope_sums extrema i zero zero
                (or_intror (ex_intro _ val Hin))) as Hsums.
  destruct (fold_left _ extrema (zero, zero)) as [n dn].
  destruct Hsums as [Hn Hd]. by apply div_unbounded_nan.
Qed.

(** The upper envelope of data with a sample is NaN somewhere: at every
    index when there is no maximum, at every maximum otherwise. *)
Lemma envelope_has_nan (d : list float) :
  d <> [] ->
  exists i, (i < length d)%nat
            /\ nth i (computeEnvelope d envMax) nan = nan.
Proof.
  intros Hd.
  assert (Hlen : (0 < length d)%nat) by (destruct d; [done|simpl; lia]).
  destruct (findExtrema envMax d) as [|[i v] rest] eqn:Hext.
  - exists 0%nat. split; [done|].
    rewrite (DecomposeFacts.computeEnvelope_no_extrema d envMax Hext).
    apply DecomposeFacts.nth_replicate_nan.
  - assert (Hin : In (i, v) (findExtrema envMax d))
      by (rewrite Hext; by left).
    pose proof (findExtrema_index envMax d i v Hin) as Hi.
    exists i. split; [done|].
    rewrite envelope_point by done.
    by apply (envelopeAt_extremum _ i v).
Qed.

(** On data with a sample the sifting loop never ends: no number of
    passes meets the criterion. *)
Lemma sift_never_ends (fuel : nat) (d : list float) :
  d <> [] -> sift fuel d = None.
Proof.
  intros Hd. destruct (envelope_has_nan d Hd) as (i & Hi & Hnan).
  destruct fuel as [|fuel]; [done|]. cbn [sift].
  assert (Hstep : nth i (siftStep d) nan = nan)
    by (apply siftStep_point; [done | by left]).
  rewrite (criterion_nan_at (siftStep d) d i)
    by (by rewrite ?length_siftStep).
  apply (sift_nan_at fuel _ i); [by rewrite length_siftStep | done].
Qed.

Lemma emdModes_never_returns (fuel k : nat) (rate : float)
      (d : list float) (modes : list Signal) :
  d <> [] -> emdModes fuel rate (S k) d modes = None.
Proof.
  intros Hd. cbn [emdModes]. by rewrite sift_never_ends.
Qed.
End WithHost.
End SiftFacts.

Lemma PowerOfTwo_exp (n : nat) : PowerOfTwo n <-> exists k, n = (2 ^ k)%nat.
Proof.
  split.
  - induction 1 as [|n _ [k ->]]; [by exists 0%nat | exists (S k)].
    simpl. lia.
  - intros [k ->]. induction k as [|k IH]; [constructor|].
    change (2 ^ S k)%nat with (2 * 2 ^ k)%nat. by constructor.
Qed.

Lemma PowerOfTwo_odd (n : nat) : PowerOfTwo (2 * n + 1) -> n = 0%nat.
Proof. inversion 1; lia. Qed.

Lemma PowerOfTwo_half (n : nat) :
  (0 < n)%nat -> PowerOfTwo (2 * n) -> PowerOfTwo n.
Proof.
  intros Hn Hp. inversion Hp as [|m Hm Heq]; [lia|].
  by replace n with m by lia.
Qed.

Module FftFacts.
Import Signal2.

Lemma filter_parity_length {A} (l : list A) (s : nat) :
  length (filter (fun ix : nat * A => Nat.even (fst ix) = true)
            (zip (seq s (length l)) l))
  = (if Nat.even s then (length l + 1) / 2 else length l / 2)%nat
  /\ length (filter (fun ix : nat * A => Nat.odd (fst ix) = true)
               (zip (seq s (length l)) l))
     = (if Nat.even s then length l / 2 else (length l + 1) / 2)%nat.
Proof.
  revert s. induction l as [|x l IH]; intros s.
  - simpl. by destruct (Nat.even s).
  - cbn [length seq zip zip_with]. rewrite !filter_cons. simpl fst.
    destruct (IH (S s)) as [IHe IHo].
    rewrite Nat.even_succ in IHe, IHo. unfold Nat.odd in *.
    destruct (Nat.even s) eqn:Hs; simpl negb in *.
    + rewrite decide_True by done. rewrite decide_False by done.
      cbn [length]. rewrite IHe, IHo. split.
      * lia.
      * lia.
    + rewrite decide_False by done. rewrite decide_True by done.
      cbn [length]. rewrite IHe, IHo. split.
      * lia.
      * lia.
Qed.

Lemma filterIndex_even_length {A} (l : list A) :
  length (filterIndex Nat.even l) = ((length l + 1) / 2)%nat.
Proof.
  unfold filterIndex. rewrite length_map.
  by destruct (filter_parity_length l 0) as [-> _].
Qed.

Lemma filterIndex_odd_length {A} (l : list A) :
  length (filterIndex Nat.odd l) = (length l / 2)%nat.
Proof.
  unfold filterIndex. rewrite length_map.
  by destruct (filter_parity_length l 0) as [_ ->].
Qed.

Section WithHost.
Context {H : Host}.

Lemma slot_filled (a : list (option Complex)) (k : nat) :
  filled a -> (k < length a)%nat -> exists c, slot a k = Some c.
Proof.
  intros Ha Hk. unfold slot.
  destruct (lookup_lt_is_Some_2 a k Hk) as [x Hx]. rewrite Hx.
  destruct (Forall_lookup_1 _ _ _ _ Ha Hx) as [c ->]. by exists c.
Qed.

Lemma slot_missing (a : list (option Complex)) (k : nat) :
  (length a <= k)%nat -> slot a k = None.
Proof. intros Hk. unfold slot. by rewrite lookup_ge_None_2. Qed.

Lemma butterfly_cases (N : nat) (even odd result : list (option Complex))
      (k : nat) :
  butterfly N even odd result k = Throw typeError
  \/ exists r, butterfly N even odd result k = Ok r
               /\ length r = length result.
Proof.
  unfold butterfly. destruct (slot odd k); [|by left].
  destruct (slot even k); [|by left]. right. eexists. split; [done|].
  destruct (Nat.even N); by rewrite ?length_insert.
Qed.

Lemma butterflies_app (N : nat) (even odd : list (option Complex))
      (ks1 ks2 : list nat) (result : list (option Complex)) :
  butterflies N even odd (ks1 ++ ks2) result
  = let* r := butterflies N even odd ks1 result in
    butterflies N even odd ks2 r.
Proof.
  revert result. induction ks1 as [|k ks1 IH]; intros result; [done|].
  simpl. destruct (butterfly N even odd result k); [apply IH | done].
Qed.

Lemma butterflies_cases (N : nat) (even odd : list (option Complex))
      (ks : list nat) (result : list (option Complex)) :
  butterflies N even odd ks result = Throw typeError
  \/ exists r, butterflies N even odd ks result = Ok r
               /\ length r = length result.
Proof.
  revert result. induction ks as [|k ks IH]; intros result.
  - right. by exists result.
  - simpl. destruct (butterfly_cases N even odd result k)
      as [->|(r & -> & Hr)]; [by left|].
    simpl. destruct (IH r) as [->|(r' & -> & Hr')]; [by left|].
    right. exists r'. split; [done | congruence].
Qed.

(** The loop reaches an index the odd half does not have. *)
Lemma butterflies_missing (N : nat) (even odd : list (option Complex))
      (ks : list nat) (result : list (option Complex)) (k : nat) :
  In k ks -> slot odd k = None ->
  butterflies N even odd ks result = Throw typeError.
Proof.
  intros Hin Hodd. revert result.
  induction ks as [|j ks IH]; intros result; [done|].
  simpl. destruct Hin as [->|Hin].
  - unfold butterfly. by rewrite Hodd.
  - destruct (butterfly_cases N even odd result j)
      as [->|(r & -> & _)]; [done|]. simpl. by apply IH.
Qed.

(** With both halves complete, the loop fills the whole array. *)
Lemma butterflies_fill (N k : nat) (even odd : list (option Complex))
      (t : nat) :
  N = (2 * k)%nat -> (0 < k)%nat -> filled even -> filled odd ->
  length even = k -> length odd = k -> (t <= k)%nat ->
  exists r,
    butterflies N even odd (seq 0 t) (replicate N None) = Ok r
    /\ length r = N
    /\ forall i, (i < t \/ (k <= i /\ i < k + t))%nat ->
                 exists c, r !! i = Some (Some c).
Proof.
  intros HN Hk He Ho Hle Hlo.
  assert (Heven : Nat.even N = true)
    by (apply Nat.even_spec; by exists k).
  assert (Hhalf : (N / 2)%nat = k) by lia.
  induction t as [|t IH]; intros Ht.
  - exists (replicate N None). split; [done|]. split.
    + by rewrite length_replicate.
    + intros i Hi. lia.
  - destruct IH as (r & Hr & Hlen & Hset); [lia|].
    rewrite seq_S, butterflies_app, Hr.
    cbn [bind butterflies Nat.add]. unfold butterfly.
    destruct (slot_filled odd t Ho) as [o ->]; [lia|].
    destruct (slot_filled even t He) as [e ->]; [lia|].
    rewrite Heven, Hhalf. cbn [bind].
    eexists. split; [reflexivity|]. split.
    + by rewrite !length_insert.
    + intros i Hi.
      destruct (decide (i = t + k)%nat) as [->|Hne1].
      { rewrite list_lookup_insert_eq
          by (rewrite length_insert; lia). by eexists. }
      rewrite list_lookup_insert_ne by lia.
      destruct (decide (i = t)) as [->|Hne2].
      { rewrite list_lookup_insert_eq by lia. by eexists. }
      rewrite list_lookup_insert_ne by lia. apply Hset. lia.
Qed.

(** [fft] either fails on a missing element or returns a complete array
    as long as its input; on a length that is not a power of two it
    fails, and on a power of two it returns.  In particular the depth
    bound is never what stops it. *)
Lemma fftAt_cases (N : nat) :
  forall (depth : nat) (d : list float),
    length d = N -> (N <= depth)%nat ->
    (fftAt depth d = Throw typeError
     \/ exists r, fftAt depth d = Ok r /\ length r = N /\ filled r)
    /\ ((1 < N)%nat -> ~ PowerOfTwo N -> fftAt depth d = Throw typeError)
    /\ (PowerOfTwo N ->
        exists r, fftAt depth d = Ok r /\ length r = N /\ filled r).
Proof.
  induction N as [N IH] using lt_wf_ind. intros depth d Hlen Hdepth.
  destruct depth as [|depth'].
  { assert (N = 0)%nat as -> by lia. destruct d; [|done].
    assert (Hnil : exists r : list (option Complex),
               Ok [] = Ok r /\ length r = 0%nat /\ filled r)
      by (exists []; by repeat split; try constructor).
    split; [by right|]. split; [lia | done]. }
  cbn [fftAt]. rewrite Hlen.
  destruct (Nat.leb_spec N 1) as [Hsmall|Hbig].
  { assert (Hbase : exists r,
               Ok (map (fun x => Some (mkComplex x zero)) d) = Ok r
               /\ length r = N /\ filled r).
    { eexists. split; [done|]. split.
      - by rewrite length_map.
      - apply Forall_forall. intros c Hc. apply list_elem_of_In in Hc.
        apply in_map_iff in Hc as (x & <- & _). by eexists. }
    split; [by right|]. split; [lia | done]. }
  pose proof (filterIndex_even_length d) as Hevens.
  pose proof (filterIndex_odd_length d) as Hodds.
  rewrite Hlen in Hevens, Hodds.
  destruct (IH ((N + 1) / 2)%nat) with (depth := depth')
                                       (d := filterIndex Nat.even d)
    as (Heven & HevenBad & HevenGood); [| done | |].
  { lia. }
  { lia. }
  destruct (IH (N / 2)%nat) with (depth := depth')
                                 (d := filterIndex Nat.odd d)
    as (Hodd & HoddBad & HoddGood); [| done | |].
  { lia. }
  { lia. }
  destruct (Nat.Even_or_Odd N) as [[k Hk]|[k Hk]].
  - (* an even length: both halves have length k *)
    assert (Hh1 : ((N + 1) / 2)%nat = k) by lia.
    assert (Hh2 : (N / 2)%nat = k) by lia.
    rewrite Hh1 in *. rewrite Hh2 in *.
    assert (Hsub : ~ PowerOfTwo N -> ~ PowerOfTwo k).
    { intros Hn Hp. apply Hn. rewrite Hk. by constructor. }
    assert (Hk1 : ~ PowerOfTwo N -> (1 < k)%nat).
    { intros Hn. destruct (decide (k = 1)%nat) as [->|].
      - exfalso. apply Hn. rewrite Hk. repeat constructor.
      - lia. }
    assert (Hfill : forall even odd,
               length even = k -> filled even ->
               length odd = k -> filled odd ->
               exists r,
                 butterflies N even odd (seq 0 k) (replicate N None) = Ok r
                 /\ length r = N /\ filled r).
    { intros even odd HevenLen HevenFull HoddLen HoddFull.
      destruct (butterflies_fill N k even odd k) as (r & Hr & Hrl & Hrs);
        try done; try lia.
      exists r. split; [done|]. split; [done|].
      apply Forall_lookup. intros i c Hi.
      destruct (Hrs i) as [c' Hc'].
      { apply lookup_lt_Some in Hi. lia. }
      rewrite Hi in Hc'. injection Hc' as ->. by eexists. }
    split; [|split].
    + destruct Heven as [->|(even & -> & HevenLen & HevenFull)];
        [by left|].
      destruct Hodd as [->|(odd & -> & HoddLen & HoddFull)];
        [by left|].
      cbn [bind]. right. by apply Hfill.
    + intros _ Hnot. rewrite HevenBad; [done | by apply Hk1 | by apply Hsub].
    + intros Hpow.
      assert (Hhalf : PowerOfTwo k)
        by (apply PowerOfTwo_half; [lia | by rewrite <- Hk]).
      destruct (HevenGood Hhalf) as (even & -> & HevenLen & HevenFull).
      destruct (HoddGood Hhalf) as (odd & -> & HoddLen & HoddFull).
      cbn [bind]. by apply Hfill.
  - (* an odd length: the odd half is one element short *)
    assert (Hh1 : ((N + 1) / 2)%nat = (k + 1)%nat) by lia.
    assert (Hh2 : (N / 2)%nat = k) by lia.
    rewrite Hh1 in *. rewrite Hh2 in *.
    assert (Hthrow :
              (let* even := fftAt depth' (filterIndex Nat.even d) in
               let* odd := fftAt depth' (filterIndex Nat.odd d) in
               butterflies N even odd (seq 0 (k + 1)) (replicate N None))
              = Throw typeError).
    { destruct Heven as [->|(even & -> & _)]; [done|].
      destruct Hodd as [->|(odd & -> & HoddLen & _)]; [done|].
      cbn [bind]. apply (butterflies_missing _ _ _ _ _ k).
      - apply in_seq. lia.
      - apply slot_missing. lia. }
    rewrite Hthrow. split; [by left|]. split; [done|].
    intros Hpow. rewrite Hk in Hpow. apply PowerOfTwo_odd in Hpow. lia.
Qed.
End WithHost.
End FftFacts.

(* ------------------------------------------------------------------------- *)
(** ** The evaluator *)

Module WorkspaceFacts.
Import Workspace.

(** The closing parenthesis comes after an opening one. *)
Lemma findMatchingFrom_bound (rest : string) (i count : Z) (found : bool)
      (close : Z) :
  findMatchingFrom rest i count found = Ok close ->
  i <= close /\ (found = false -> i < close).
Proof.
  revert i count found. induction rest as [|c rest IH];
    intros i count found; [done|]. simpl.
  destruct (Ascii.eqb c lparen).
  - intros Hr. apply IH in Hr as [Hle _]. split; lia.
  - destruct (Ascii.eqb c rparen).
    + destruct (found && (count - 1 =? 0))%bool eqn:Hf.
      * intros [= <-]. split; [lia|]. intros ->. done.
      * intros Hr. apply IH in Hr as [Hle Hlt]. split; [lia|].
        intros Hf'. specialize (Hlt Hf'). lia.
    + intros Hr. apply IH in Hr as [Hle Hlt]. split; [lia|].
      intros Hf'. specialize (Hlt Hf'). lia.
Qed.

Lemma mapResult_ext_in {A B} (f g : A -> Result B) (l : list A) :
  (forall x, In x l -> f x = g x) -> mapResult f l = mapResult g l.
Proof.
  induction l as [|x l IH]; intros Hfg; [done|]. simpl.
  rewrite Hfg by (by left). destruct (g x); [|done]. simpl.
  rewrite IH; [done|]. intros y Hy. apply Hfg. by right.
Qed.

Section WithHost.
Context {H : Host}.

Lemma parseArguments_ext (f g : string -> Result WorkspaceValue)
      (argsStr funcName : string) :
  (forall arg, (String.length arg <= String.length argsStr)%nat ->
               f arg = g arg) ->
  parseArguments f argsStr funcName = parseArguments g argsStr funcName.
Proof.
  intros Hfg. unfold parseArguments.
  destruct (Str.isEmpty argsStr); [done|].
  destruct (String.eqb funcName "matrix"); [done|].
  destruct (String.eqb funcName "chirp" && Str.startsWith "{" argsStr)%bool;
    [done|].
  apply mapResult_ext_in. intros arg Harg.
  destruct (negb (Num.isNaN (Number (Str.trim arg)))); [done|].
  rewrite Hfg; [done|].
  pose proof (StrFacts.trim_length arg).
  pose proof (StrFacts.split_length _ _ _ Harg). lia.
Qed.

(** The arguments of a call are shorter than the call. *)
Lemma evaluateFunctionCall_ext (f g : string -> Result WorkspaceValue)
      (vars : gmap string WorkspaceValue) (expr : string) :
  Str.includes lparen expr = true ->
  (forall arg, (String.length arg < String.length expr)%nat ->
               f arg = g arg) ->
  evaluateFunctionCall f vars expr = evaluateFunctionCall g vars expr.
Proof.
  intros Hparen Hfg. unfold evaluateFunctionCall.
  destruct (findMatchingParenthesis expr) as [close|e] eqn:Hclose; [|done].
  cbn [bind].
  destruct (vars !! _) as [[| | |func]|]; try done.
  rewrite (parseArguments_ext f g); [done|].
  intros arg Harg. apply Hfg.
  apply findMatchingFrom_bound in Hclose as [_ Hlt].
  specialize (Hlt eq_refl).
  pose proof (StrFacts.indexOf_includes lparen expr Hparen) as Hidx.
  change (String lparen EmptyString) with "("%string in Hidx.
  pose proof (StrFacts.trim_length
                (Str.substring (Str.indexOf "(" expr + 1) close expr)).
  assert (Hne : expr <> EmptyString) by (by intros ->).
  pose proof (StrFacts.substring_length
                (Str.indexOf "(" expr + 1) close expr
                ltac:(lia) ltac:(lia) Hne).
  lia.
Qed.

Lemma evaluateExpressionAt_step (vars : gmap string WorkspaceValue)
      (depth : nat) :
  forall expr,
    (String.length expr <= depth)%nat ->
    evaluateExpressionAt depth vars expr
    = evaluateExpressionAt (S depth) vars expr.
Proof.
  induction depth as [|depth IH]; intros expr Hlen.
  - destruct expr; [done | simpl in Hlen; lia].
  - cbn [evaluateExpressionAt].
    destruct (Str.isEmpty expr); [done|].
    destruct (Str.includes lparen expr) eqn:Hparen; [|done].
    apply evaluateFunctionCall_ext; [done|].
    intros arg Harg. apply IH. lia.
Qed.

(** A depth equal to the length of the expression is never exhausted:
    any larger depth gives the same result. *)
Lemma evaluateExpressionAt_depth (vars : gmap string WorkspaceValue)
      (expr : string) (depth : nat) :
  (String.length expr <= depth)%nat ->
  evaluateExpressionAt depth vars expr = evaluateExpression vars expr.
Proof.
  unfold evaluateExpression. intros Hlen.
  induction depth as [|depth IH].
  - by replace (String.length expr) with 0%nat by lia.
  - destruct (decide (String.length expr = S depth)) as [->|Hne];
      [done|].
    rewrite <- evaluateExpressionAt_step by lia. apply IH. lia.
Qed.

(** *** The effect of a line on the Workspace *)

Lemma executeLineTry_throw (ws ws' : Workspace) (line : string)
      (err : JsError) :
  executeLineTry ws line = (ws', Throw err) -> ws' = ws.
Proof.
  unfold executeLineTry.
  destruct (Str.includes equals line).
  - destruct (map Str.trim (Str.split equals line))
      as [|varName [|expression rest]]; try (by intros [= <-]).
    destruct (Str.isEmpty varName || Str.isEmpty expression)%bool;
      [by intros [= <-]|].
    destruct (evaluateExpression _ _); [done | by intros [= <-]].
  - destruct (evaluateExpression _ _); [done | by intros [= <-]].
Qed.

Lemma executeLineTry_variables (ws ws' : Workspace) (line : string)
      (r : Result string) :
  executeLineTry ws line = (ws', r) ->
  ws' = ws
  \/ exists name value,
       assignedName line = Some name /\ ws' = setVariable name value ws.
Proof.
  unfold executeLineTry, assignedName.
  destruct (Str.includes equals line).
  - destruct (map Str.trim (Str.split equals line))
      as [|varName [|expression rest]]; try (intros [= <- _]; by left).
    destruct (Str.isEmpty varName || Str.isEmpty expression)%bool;
      [intros [= <- _]; by left|].
    destruct (evaluateExpression _ _) as [value|e].
    + intros [= <- _]. right. by exists varName, value.
    + intros [= <- _]. by left.
  - destruct (evaluateExpression _ _); intros [= <- _]; by left.
Qed.

(** [executeLine] wraps what its [try] block throws, and throws nothing
    else. *)
Lemma executeLine_throw (ws ws' : Workspace) (line : string)
      (err : JsError) :
  executeLine ws line = (ws', Throw err) ->
  ws' = ws
  /\ exists cause,
       executeLineTry ws line = (ws, Throw cause)
       /\ err = lineError line cause.
Proof.
  unfold executeLine. destruct (Str.isEmpty line); [done|].
  destruct (executeLineTry ws line) as [w [out|cause]] eqn:Htry; [done|].
  cbn [tryCatch]. intros [= <- <-].
  pose proof (executeLineTry_throw _ _ _ _ Htry) as ->.
  split; [done|]. by exists cause.
Qed.

Lemma executeLine_variables (ws ws' : Workspace) (line : string)
      (r : Result string) :
  executeLine ws line = (ws', r) ->
  ws' = ws
  \/ exists name value,
       assignedName line = Some name /\ ws' = setVariable name value ws.
Proof.
  unfold executeLine. destruct (Str.isEmpty line);
    [intros [= <- _]; by left|].
  destruct (executeLineTry ws line) as [w r'] eqn:Htry.
  intros [= <- _]. by apply (executeLineTry_variables _ _ _ _ Htry).
Qed.

Lemma executeLines_app (ws : Workspace) (l1 l2 : list string)
      (result : string) :
  executeLines ws (l1 ++ l2) result
  = match executeLines ws l1 result with
    | (ws', Ok result') => executeLines ws' l2 result'
    | (ws', Throw err) => (ws', Throw err)
    end.
Proof.
  revert ws result. induction l1 as [|line l1 IH]; intros ws result;
    [done|].
  cbn [app executeLines].
  destruct (executeLine ws (removeInlineComments line)) as [w [out|e]];
    [|done].
  destruct (Str.isEmpty out); apply IH.
Qed.

(** A failing run of lines fails at a first line, after a prefix that
    ran to its end. *)
Lemma executeLines_throw (lines : list string) :
  forall (ws ws' : Workspace) (result : string) (err : JsError),
    executeLines ws lines result = (ws', Throw err) ->
    exists pre bad post out,
      lines = pre ++ bad :: post
      /\ executeLines ws pre result = (ws', Ok out)
      /\ executeLine ws' (removeInlineComments bad) = (ws', Throw err).
Proof.
  induction lines as [|line lines IH]; intros ws ws' result err; [done|].
  cbn [executeLines].
  destruct (executeLine ws (removeInlineComments line))
    as [w [out|e]] eqn:Hline.
  - intros Hrest.
    assert (Hstep : exists w' result',
               executeLines ws [line] result = (w', Ok result')
               /\ executeLines w' lines result' = (ws', Throw err)).
    { destruct (Str.isEmpty out) eqn:Hout; eexists _, _;
        (split; [cbn [executeLines]; rewrite Hline, Hout; reflexivity
                | exact Hrest]). }
    destruct Hstep as (w' & result' & Hone & Hrest').
    apply IH in Hrest' as (pre & bad & post & out' & -> & Hpre & Hbad).
    exists (line :: pre), bad, post, out'. split; [done|]. split; [|done].
    change (line :: pre) with ([line] ++ pre).
    by rewrite executeLines_app, Hone.
  - intros [= <- <-].
    pose proof (executeLine_throw _ _ _ _ Hline) as [-> _].
    by exists [], line, lines, result.
Qed.

(** A run of lines keeps the value of a name none of them assigns to. *)
Lemma executeLines_keeps (lines : list string) (name : string) :
  forall (ws ws' : Workspace) (result : string) (r : Result string),
    Forall (fun line =>
              assignedName (removeInlineComments line) <> Some name)
      lines ->
    executeLines ws lines result = (ws', r) ->
    getValue ws' name = getValue ws name.
Proof.
  induction lines as [|line lines IH]; intros ws ws' result r Hno.
  - by intros [= <- _].
  - apply Forall_cons in Hno as [Hline Hrest]. cbn [executeLines].
    destruct (executeLine ws (removeInlineComments line))
      as [w r1] eqn:Hexec.
    assert (Hw : getValue w name = getValue ws name).
    { destruct (executeLine_variables _ _ _ _ Hexec)
        as [->|(x & v & Hx & ->)]; [done|].
      unfold getValue, setVariable. cbn [variables].
      apply lookup_insert_ne. congruence. }
    destruct r1 as [out|e].
    + destruct (Str.isEmpty out); intros Hrun;
        apply (IH _ _ _ _ Hrest) in Hrun; by rewrite Hrun.
    + by intros [= <- _].
Qed.
End WithHost.
End WorkspaceFacts.

(** The reference host has the values the standard fixes. *)
Lemma clampUnit_range (t : float) :
  is_nan (Reference.clampUnit t) = true
  \/ (abs (Reference.clampUnit t) <=? 1)%float = true.
Proof.
  unfold Reference.clampUnit.
  destruct (1 <? t)%float; [by right|].
  destruct (t <? -1)%float; [by right|].
  destruct (abs t <=? 1)%float eqn:Hle; [by right | by left].
Qed.

Lemma reference_laws : HostLaws Reference.host.
Proof.
  split; try reflexivity.
  intros x. cbn [Math_sin Reference.host]. unfold Reference.sin.
  destruct (is_nan x || is_infinity x)%bool; [by left|].
  apply clampUnit_range.
Qed.

#[export] Existing Instance reference_laws.

Lemma reference_pow_laws : PowLaws Reference.host.
Proof. split; reflexivity. Qed.

#[export] Existing Instance reference_pow_laws.

(** C3, as amended.  Applying a Hamming window to a Signal of one sample
    throws: the factor is computed as a cosine of 0/0, the windowed sample is
    NaN, the Signal constructor rejects it, and [applyWindow] rethrows the
    failure as the computation error "Failed to apply window". *)
Theorem hamming_single_sample `{H : Host} `{!HostLaws H}
        (x rate : float) (meta : gmap string float) :
  Signal.applyWindow (Signal.mkSignal [x] rate meta) Signal.hamming
  = Throw (SimulationError "Failed to apply window" computation
             (Some (SimulationError
                      "Invalid signal data: array must contain only numbers"
                      validation None))).
Proof.
  unfold Signal.applyWindow. cbn [Signal.data length].
  rewrite fillArray_map. cbn [seq map nth]. unfold Signal.windowFactor.
  change ((2 * Num.PI * Num.ofNat 0) / (Num.ofNat 1 - 1))%float with nan.
  rewrite cos_nan. change (0.54 - 0.46 * nan)%float with nan.
  rewrite FloatFacts.mul_nan_r. reflexivity.
Qed.

Lemma hamming_single_sample_witness :
  Signal.applyWindow (H := Reference.host)
    (Signal.mkSignal [0.7%float] 1000%float ∅) Signal.hamming
  = Throw (SimulationError "Failed to apply window" computation
             (Some (SimulationError
                      "Invalid signal data: array must contain only numbers"
                      validation None))).
Proof.
  exact (hamming_single_sample (H := Reference.host) 0.7%float 1000%float ∅).
Defined.

(** C3 fails as stated: on the one-sample Signal [0.7] the call throws, it
    does not return the sample. *)
Lemma hamming_single_sample_throws :
  exists e,
    Signal.applyWindow (H := Reference.host)
      (Signal.mkSignal [0.7%float] 1000%float ∅) Signal.hamming = Throw e
    /\ errorType e = Some computation.
Proof. eexists. split; [vm_compute; reflexivity | reflexivity]. Qed.

(** C4, as amended.  What [decompose] with the method "emd" hands back is
    never the modes: every result it returns has the empty array as payload.
    It returns, with that payload, when no mode is asked for and when the
    Signal has no sample (one pass of the sifting loop is then enough).  On a
    Signal with a sample, asked for a mode, it does not return, however many
    passes the sifting loop is given: the envelope is NaN at an extremum, or
    everywhere when there is none, and the criterion fails on NaN. *)
Theorem decompose_returns_no_modes `{H : Host} `{!PowLaws H}
        (fuel numModes : nat) (self : Signal.Signal) :
  (numModes = 0%nat \/ (Signal.data self = [] /\ (0 < fuel)%nat) ->
   Signal.decompose fuel self Signal.emd numModes
   = Some (Ok (mkResult [] zero 64%float true)))
  /\ (Signal.data self <> [] -> numModes <> 0%nat ->
      Signal.decompose fuel self Signal.emd numModes = None)
  /\ (forall r,
         Signal.decompose fuel self Signal.emd numModes = Some (Ok r) ->
         res_data r = []).
Proof.
  split; [|split].
  - intros [-> | [Hdata Hfuel]]; [done|].
    unfold Signal.decompose. rewrite Hdata.
    assert (Hmodes : forall modes,
               exists modes',
                 Signal.emdModes fuel (Signal.sampleRate self) numModes []
                   modes = Some (Ok modes')).
    { induction numModes as [|k IH]; intros modes; [by eexists|].
      cbn [Signal.emdModes]. destruct fuel as [|fuel']; [lia|].
      cbn [Signal.sift]. change (Signal.siftStep []) with (@nil float).
      change (Signal.checkIMFCriterion [] []) with true. cbv iota.
      change (Signal.newSignal [] (Signal.sampleRate self))
        with (Ok (Signal.mkSignal [] (Signal.sampleRate self) ∅)).
      cbv iota. cbn [imap]. apply IH. }
    destruct (Hmodes []) as [modes' ->]. done.
  - intros Hdata Hmodes. destruct numModes as [|k]; [done|].
    unfold Signal.decompose.
    by rewrite SiftFacts.emdModes_never_returns.
  - intros r. unfold Signal.decompose.
    destruct (Signal.emdModes _ _ _ _ _) as [[modes|e]|]; [|done|done].
    by intros [= <-].
Qed.

Lemma decompose_returns_no_modes_witness :
  Signal.decompose (H := Reference.host) 1000
    (Signal.mkSignal [1%float; 2%float; 1%float] 1000%float ∅) Signal.emd 1
  = None
  /\ Signal.decompose (H := Reference.host) 1
       (Signal.mkSignal [] 1000%float ∅) Signal.emd 2
     = Some (Ok (mkResult [] zero 64%float true)).
Proof.
  split.
  - apply (decompose_returns_no_modes (H := Reference.host) 1000 1
             (Signal.mkSignal [1%float; 2%float; 1%float] 1000%float ∅));
      [discriminate | lia].
  - apply (decompose_returns_no_modes (H := Reference.host) 1 2
             (Signal.mkSignal [] 1000%float ∅)).
    right. split; [reflexivity | lia].
Defined.

(** C4 fails as stated.  Asked for one mode of the Signal with the samples
    1, 2, 1, [decompose] returns nothing, whatever the number of passes
    allowed: the upper envelope at the maximum is infinity over infinity.
    Asked for one mode of the Signal without samples, it returns a payload
    that holds none. *)
Lemma decompose_one_mode_none_returned :
  (forall fuel,
      Signal.decompose (H := Reference.host) fuel
        (Signal.mkSignal [1%float; 2%float; 1%float] 1000%float ∅)
        Signal.emd 1 = None)
  /\ nth 1 (Signal.computeEnvelope (H := Reference.host)
              [1%float; 2%float; 1%float] Signal.envMax) zero = nan
  /\ exists r,
       Signal.decompose (H := Reference.host) 1
         (Signal.mkSignal [] 1000%float ∅) Signal.emd 1 = Some (Ok r)
       /\ length (res_data r) = 0%nat
       /\ length (res_data r) <> 1%nat.
Proof.
  split; [|split].
  - intros fuel. unfold Signal.decompose. cbn [Signal.data Signal.sampleRate].
    by rewrite SiftFacts.emdModes_never_returns.
  - vm_compute. reflexivity.
  - eexists. split; [vm_compute; reflexivity|]. split; [done | done].
Qed.

(** C6, as amended.  [generateChirp] with the exponential method and a start
    frequency of zero has no guard of its own.  When the typed array has at
    least one slot, the first sample is NaN and the Signal constructor
    rejects the data with its validation error, which [generateChirp] lets
    through unchanged; and whatever the options, a Signal it returns holds
    neither NaN nor an infinity. *)
Theorem chirp_zero_start `{H : Host} `{!HostLaws H} (o : Signal.ChirpOptions) :
  is_zero (Signal.startFreq o) = true ->
  Signal.method o = Some false ->
  (forall n,
      newFloat64Array
        (Num.floor (Signal.duration o
                    * default 44100 (Signal.optSampleRate o))%float)
      = Ok (S n) ->
      Signal.generateChirp o
      = Throw (SimulationError
                 "Invalid signal data: array must contain only numbers"
                 validation None))
  /\ (forall r,
         Signal.generateChirp o = Ok r ->
         Forall (fun v => is_nan v = false /\ is_infinity v = false)
           (Signal.data (res_data r))).
Proof.
  intros Hzero Hmethod. split.
  - intros n Hn. unfold Signal.generateChirp. rewrite Hn, Hmethod.
    cbn [bind]. change (default true (Some false)) with false. cbv iota.
    rewrite fillArray_map. unfold Signal.newSignal.
    rewrite SignalFacts.validateData_nan; [done|].
    cbn [seq map In]. left.
    by apply SignalFacts.exponential_first_sample.
  - intros r Hr. apply SignalFacts.generateChirp_ok in Hr.
    eapply Forall_impl; [exact Hr|]. intros v [Hnan [a ->]]. split; [done|].
    by apply FloatFacts.unit_not_infinite, SignalFacts.sin_bounded.
Qed.

Lemma chirp_zero_start_witness :
  Signal.generateChirp (H := Reference.host) zeroStartChirp
  = Throw (SimulationError
             "Invalid signal data: array must contain only numbers"
             validation None).
Proof.
  refine (proj1 (chirp_zero_start (H := Reference.host) zeroStartChirp
                   eq_refl eq_refl) 43%nat _).
  vm_compute. reflexivity.
Defined.

(** C6 fails as stated: the error of a chirp from frequency zero is
    classified as a validation error, not as a computation error. *)
Lemma chirp_zero_start_is_validation :
  exists e,
    Signal.generateChirp (H := Reference.host) zeroStartChirp = Throw e
    /\ errorType e = Some validation
    /\ errorType e <> Some computation.
Proof. eexists. split; [vm_compute; reflexivity|]. split; [done | done]. Qed.

(** C2, as amended.  [fft] validates no length.  On a Signal with one sample
    at most it returns each sample as a complex value with imaginary part
    zero; on a Signal whose count of samples is a power of two it returns one
    complex value for each sample; and on a Signal with more than one sample
    whose count is not a power of two it returns no result: the call fails
    with the engine's [TypeError], which carries no classification, when the
    butterfly loop reads an element that the odd half of the samples does not
    have. *)
Theorem fft_power_of_two `{H : Host} (self : Signal2.Signal) :
  ((length (Signal2.data self) <= 1)%nat ->
   Signal2.fft self
   = Ok (map (fun x => Some (Signal2.mkComplex x zero)) (Signal2.data self)))
  /\ ((exists k, length (Signal2.data self) = (2 ^ k)%nat) ->
      exists r,
        Signal2.fft self = Ok r
        /\ length r = length (Signal2.data self)
        /\ Signal2.filled r)
  /\ ((1 < length (Signal2.data self))%nat ->
      ~ (exists k, length (Signal2.data self) = (2 ^ k)%nat) ->
      Signal2.fft self = Throw typeError).
Proof.
  unfold Signal2.fft. split; [|split].
  - intros Hsmall. destruct (Signal2.data self) as [|x [|y d]];
      [done | done | simpl in Hsmall; lia].
  - intros Hpow.
    apply (FftFacts.fftAt_cases (length (Signal2.data self))); try done.
    by rewrite PowerOfTwo_exp.
  - intros Hbig Hnot.
    apply (FftFacts.fftAt_cases (length (Signal2.data self))); try done.
    by rewrite PowerOfTwo_exp.
Qed.

Lemma fft_power_of_two_witness :
  Signal2.fft (H := Reference.host) (Signal2.newSignal [1; 2; 3]%float)
  = Throw (typeError (H := Reference.host)).
Proof.
  refine (proj2 (proj2 (fft_power_of_two (H := Reference.host)
                          (Signal2.newSignal [1; 2; 3]%float))) _ _).
  - simpl. lia.
  - intros [k Hk]. simpl in Hk.
    destruct k as [|[|k]]; simpl in Hk; lia.
Defined.

(** C2 fails as stated: on three samples the call fails with an error that
    carries no classification, not with a validation error. *)
Lemma fft_three_samples_type_error :
  exists e,
    Signal2.fft (H := Reference.host) (Signal2.newSignal [1; 2; 3]%float)
    = Throw e
    /\ e = NativeError TypeError "Cannot read properties of undefined"
    /\ errorType e <> Some validation.
Proof. eexists. split; [vm_compute; reflexivity|]. split; done. Qed.

Module WorkspaceFacts2.
Import Workspace WorkspaceFacts.
Section WithHost.
Context {H : Host}.

(** A run of lines never unbinds a name. *)
Lemma executeLines_bound (lines : list string) (name : string) :
  forall (ws ws' : Workspace) (result : string) (r : Result string),
    executeLines ws lines result = (ws', r) ->
    is_Some (getValue ws name) -> is_Some (getValue ws' name).
Proof.
  induction lines as [|line lines IH]; intros ws ws' result r.
  - by intros [= <- _].
  - cbn [executeLines].
    destruct (executeLine ws (removeInlineComments line))
      as [w r1] eqn:Hexec.
    intros Hrun Hbound.
    assert (Hw : is_Some (getValue w name)).
    { destruct (executeLine_variables _ _ _ _ Hexec)
        as [->|(x & v & _ & ->)]; [done|].
      unfold getValue, setVariable. cbn [variables].
      destruct (decide (x = name)) as [->|Hne].
      - rewrite lookup_insert_eq. by eexists.
      - by rewrite lookup_insert_ne. }
    destruct r1 as [out|e].
    + destruct (Str.isEmpty out); by apply (IH _ _ _ _ Hrun).
    + by injection Hrun as <- _.
Qed.

(** What an assignment line bound is still bound, to the same value,
    after later lines that assign to other names. *)
Lemma executeLines_persist (p1 p2 : list string) (line name : string)
      (value : WorkspaceValue) (ws wa ws' : Workspace)
      (o out : string) :
  executeLines ws (p1 ++ line :: p2) EmptyString = (ws', Ok out) ->
  executeLines ws p1 EmptyString = (wa, Ok o) ->
  fst (executeLine wa (removeInlineComments line))
  = setVariable name value wa ->
  (is_Some (getValue ws' name))
  /\ (Forall (fun l => assignedName (removeInlineComments l) <> Some name)
        p2 ->
      getValue ws' name = Some value).
Proof.
  intros Hall Hp1 Hline. rewrite executeLines_app, Hp1 in Hall.
  cbn [executeLines] in Hall.
  destruct (executeLine wa (removeInlineComments line)) as [wb r1].
  cbn [fst] in Hline. subst wb.
  assert (Hset : forall w, variables w = variables (setVariable name value wa) ->
                           getValue w name = Some value).
  { intros w Hw. unfold getValue. rewrite Hw. cbn [setVariable variables].
    apply lookup_insert_eq. }
  destruct r1 as [out1|e]; [|done].
  destruct (Str.isEmpty out1).
  - split.
    + apply (executeLines_bound _ _ _ _ _ _ Hall). rewrite Hset; done.
    + intros Hp2. rewrite (executeLines_keeps _ _ _ _ _ _ Hp2 Hall).
      by apply Hset.
  - split.
    + apply (executeLines_bound _ _ _ _ _ _ Hall). rewrite Hset; done.
    + intros Hp2. rewrite (executeLines_keeps _ _ _ _ _ _ Hp2 Hall).
      by apply Hset.
Qed.

(** An assignment line whose two first segments are not empty does what
    the evaluation of the second one decides. *)
Lemma executeLine_assignment (ws : Workspace) (line name expression : string)
      (rest : list string) :
  map Str.trim (Str.split equals line) = name :: expression :: rest ->
  name <> EmptyString -> expression <> EmptyString ->
  executeLine ws line
  = match evaluateExpression (variables ws) expression with
    | Ok value =>
        (setVariable name value ws,
         Ok (name +:+ " = " +:+ formatOutput value))
    | Throw cause => (ws, Throw (lineError line cause))
    end.
Proof.
  intros Hsplit H1 H2.
  destruct (Str.split equals line) as [|s1 [|s2 rest']] eqn:Hs; try done.
  destruct (StrFacts.split_two_includes _ _ _ _ _ Hs) as [Hinc Hne].
  unfold executeLine, executeLineTry.
  apply StrFacts.isEmpty_false in Hne, H1, H2.
  rewrite Hne, Hinc, Hs, Hsplit, H1, H2. cbn [orb].
  by destruct (evaluateExpression _ _).
Qed.

(** An expression with a parenthesis is a call, and its arguments are
    evaluated as expressions of their own. *)
Lemma evaluateExpression_call (vars : gmap string WorkspaceValue)
      (expr : string) :
  Str.includes lparen expr = true ->
  evaluateExpression vars expr
  = evaluateFunctionCall (evaluateExpression vars) vars expr.
Proof.
  intros Hparen. unfold evaluateExpression at 1.
  destruct (String.length expr) as [|depth] eqn:Hlen.
  { destruct expr; [done | simpl in Hlen; lia]. }
  cbn [evaluateExpressionAt].
  assert (Hne : Str.isEmpty expr = false) by (by destruct expr).
  rewrite Hne, Hparen.
  apply evaluateFunctionCall_ext; [done|]. intros arg Harg.
  apply evaluateExpressionAt_depth. lia.
Qed.
End WithHost.
End WorkspaceFacts2.

(** X20.  When [execute] fails, its source lines split into a prefix that
    ran to its end, the line that failed, and the lines never reached; the
    Workspace is left as the prefix made it, and the error wraps the error
    of that line. *)
Lemma execute_fails_at_line `{H : Host}
      (ws : Workspace.Workspace) (code : string) (err : JsError) :
  snd (Workspace.execute ws code) = Throw err ->
  exists pre bad post out cause,
    Workspace.sourceLines code = pre ++ bad :: post
    /\ Workspace.executeLines ws pre EmptyString
       = (fst (Workspace.execute ws code), Ok out)
    /\ Workspace.executeLineTry (fst (Workspace.execute ws code))
         (Workspace.removeInlineComments bad)
       = (fst (Workspace.execute ws code), Throw cause)
    /\ err = Workspace.executionError
               (Workspace.lineError (Workspace.removeInlineComments bad) cause).
Proof.
  unfold Workspace.execute.
  destruct (Workspace.executeLines ws (Workspace.sourceLines code) EmptyString)
    as [ws' [result|e]] eqn:Hrun; [done|].
  cbn [fst snd tryCatch bind]. intros [= <-].
  apply WorkspaceFacts.executeLines_throw in Hrun
    as (pre & bad & post & out & Hlines & Hpre & Hbad).
  apply WorkspaceFacts.executeLine_throw in Hbad as [_ (cause & Htry & ->)].
  by exists pre, bad, post, out, cause.
Qed.

(** C1.  Let the lines before some line of the code run to their end, and
    let that line fail.  Then the line failed with the runtime error
    "Line <text>: <cause>", where <text> is the line without its trailing
    comment and <cause> the message of the error raised inside it, which the
    error wraps; and the whole call of [execute] fails with the runtime error
    "Execution error: Line <text>: <cause>", which wraps the error of the
    line.  The Workspace is left as the earlier lines made it: a name one of
    them assigned to is still bound after the call, and [getValue] returns
    the value of that assignment unless a later line, before the failing
    one, assigned to the same name. *)
Theorem execute_line_atomic `{H : Host}
        (ws wa : Workspace.Workspace) (code : string)
        (pre post : list string) (bad out : string) (err : JsError) :
  Workspace.sourceLines code = pre ++ bad :: post ->
  Workspace.executeLines ws pre EmptyString = (wa, Ok out) ->
  snd (Workspace.executeLine wa (Workspace.removeInlineComments bad))
  = Throw err ->
  (exists cause,
      Workspace.executeLineTry wa (Workspace.removeInlineComments bad)
      = (wa, Throw cause)
      /\ err = SimulationError
                 ("Line " +:+ Str.dquote
                    +:+ Workspace.removeInlineComments bad +:+ Str.dquote
                    +:+ ": " +:+ message cause)
                 runtime (Some cause)
      /\ Workspace.execute ws code
         = (wa,
            Throw (SimulationError
                     ("Execution error: Line " +:+ Str.dquote
                        +:+ Workspace.removeInlineComments bad +:+ Str.dquote
                        +:+ ": " +:+ message cause)
                     runtime (Some err))))
  /\ forall p1 line p2 w1 o name value,
       pre = p1 ++ line :: p2 ->
       Workspace.executeLines ws p1 EmptyString = (w1, Ok o) ->
       fst (Workspace.executeLine w1 (Workspace.removeInlineComments line))
       = Workspace.setVariable name value w1 ->
       is_Some (Workspace.getValue (fst (Workspace.execute ws code)) name)
       /\ (Forall (fun l =>
                     Workspace.assignedName
                       (Workspace.removeInlineComments l) <> Some name) p2 ->
           Workspace.getValue (fst (Workspace.execute ws code)) name
           = Some value).
Proof.
  intros Hlines Hpre Hbad.
  destruct (Workspace.executeLine wa (Workspace.removeInlineComments bad))
    as [wb r] eqn:Hline.
  cbn [snd] in Hbad. subst r.
  destruct (WorkspaceFacts.executeLine_throw _ _ _ _ Hline)
    as [-> (cause & Htry & Herr)].
  assert (Hrun : Workspace.execute ws code
                 = (wa, Throw (Workspace.executionError err))).
  { unfold Workspace.execute.
    rewrite Hlines, WorkspaceFacts.executeLines_app, Hpre.
    cbn [Workspace.executeLines]. by rewrite Hline. }
  split.
  - exists cause. split; [done|]. split; [done|].
    rewrite Hrun, Herr. reflexivity.
  - rewrite Hrun. cbn [fst].
    intros p1 line p2 w1 o name value -> Hp1 Hset.
    by apply (WorkspaceFacts2.executeLines_persist p1 p2 line name value
                ws w1 wa o out).
Qed.

(** The example of the specification, through the theorem: the call fails
    with the text of the second line and the cause in its message, and [a]
    is still 1 afterwards. *)
Lemma execute_line_atomic_witness :
  Workspace.execute (H := Reference.host) Workspace.newWorkspace twoLines
  = (afterFirstLine,
     Throw (SimulationError
              ("Execution error: Line " +:+ Str.dquote +:+ "badExpr("
                 +:+ Str.dquote +:+ ": Unmatched parentheses")
              runtime
              (Some (SimulationError
                       ("Line " +:+ Str.dquote +:+ "badExpr("
                          +:+ Str.dquote +:+ ": Unmatched parentheses")
                       runtime
                       (Some (SimulationError "Unmatched parentheses"
                                validation None))))))
  /\ Workspace.getValue
       (fst (Workspace.execute (H := Reference.host) Workspace.newWorkspace
               twoLines)) "a"
     = Some (Workspace.VNumber 1).
Proof.
  assert (Hthm := execute_line_atomic (H := Reference.host)
                    Workspace.newWorkspace afterFirstLine twoLines
                    ["a = 1"%string] [] "badExpr("
                    ("a = 1" +:+ String Str.newline EmptyString)
                    (Workspace.lineError "badExpr(" unmatched)).
  destruct Hthm as [(cause & Htry & Herr & Hrun) Hkeep];
    [vm_compute; reflexivity | vm_compute; reflexivity
     | vm_compute; reflexivity |].
  split.
  - rewrite Hrun. vm_compute in Htry. injection Htry as <-.
    vm_compute. reflexivity.
  - apply (Hkeep [] "a = 1"%string [] Workspace.newWorkspace EmptyString
             "a"%string (Workspace.VNumber 1));
      [reflexivity | reflexivity | vm_compute; reflexivity | constructor].
Defined.

(** The example of the specification: after the failed call, [a] is 1. *)
Lemma execute_example :
  let '(ws, r) := Workspace.execute (H := Reference.host)
                    Workspace.newWorkspace twoLines in
  r = Throw (Workspace.executionError
               (Workspace.lineError "badExpr(" unmatched))
  /\ Workspace.getValue ws "a" = Some (Workspace.VNumber 1).
Proof. vm_compute. split; reflexivity. Qed.

(** C10, as amended.  A line with more than one equals sign is split at
    every one of them, and only the first two segments, trimmed, are used:
    the text before the first sign and the text between the first and the
    second.  When one of them is empty the line fails with the runtime error
    that wraps "Invalid assignment", and binds nothing.  Otherwise the
    outcome of the line is the outcome of evaluating the second segment: on
    success the name in the first segment is bound to the value, no other
    name changes and the output names the first segment and the value; on
    failure the line fails with the runtime error that wraps the cause, and
    binds nothing.  Whatever follows the second equals sign plays no part,
    and raises no error of its own. *)
Theorem assignment_uses_two_segments `{H : Host}
        (ws : Workspace.Workspace) (line : string) :
  (2 <= occurrences Workspace.equals line)%nat ->
  exists s1 s2 rest,
    Str.split Workspace.equals line = s1 :: s2 :: rest
    /\ line = s1 +:+ "=" +:+ s2 +:+ "=" +:+ Str.join "=" rest
    /\ occurrences Workspace.equals s1 = 0%nat
    /\ occurrences Workspace.equals s2 = 0%nat
    /\ (Str.trim s1 = EmptyString \/ Str.trim s2 = EmptyString ->
        Workspace.executeLine ws line
        = (ws,
           Throw (SimulationError
                    ("Line " +:+ Str.dquote +:+ line +:+ Str.dquote
                       +:+ ": Invalid assignment")
                    runtime
                    (Some (SimulationError "Invalid assignment"
                             validation None)))))
    /\ (Str.trim s1 <> EmptyString -> Str.trim s2 <> EmptyString ->
        match Workspace.evaluateExpression (Workspace.variables ws)
                (Str.trim s2)
        with
        | Ok value =>
            snd (Workspace.executeLine ws line)
            = Ok (Str.trim s1 +:+ " = " +:+ Workspace.formatOutput value)
            /\ Workspace.getValue (fst (Workspace.executeLine ws line))
                 (Str.trim s1)
               = Some value
            /\ (forall other,
                   other <> Str.trim s1 ->
                   Workspace.getValue (fst (Workspace.executeLine ws line))
                     other
                   = Workspace.getValue ws other)
            /\ Workspace.history (fst (Workspace.executeLine ws line))
               = Workspace.history ws
        | Throw cause =>
            Workspace.executeLine ws line
            = (ws,
               Throw (SimulationError
                        ("Line " +:+ Str.dquote +:+ line +:+ Str.dquote
                           +:+ ": " +:+ message cause)
                        runtime (Some cause)))
        end).
Proof.
  intros Hocc.
  pose proof (StrFacts.split_occurrences Workspace.equals line) as Hlen.
  pose proof (StrFacts.split_join Workspace.equals line) as Hjoin.
  pose proof (StrFacts.split_free Workspace.equals line) as Hfree.
  destruct (Str.split Workspace.equals line) as [|s1 [|s2 [|s3 rest]]] eqn:Hs;
    simpl in Hlen; try lia.
  exists s1, s2, (s3 :: rest).
  apply Forall_cons in Hfree as [Hf1 Hfree'].
  apply Forall_cons in Hfree' as [Hf2 _].
  split; [done|]. split; [by rewrite <- Hjoin at 1|].
  split; [done|]. split; [done|].
  destruct (StrFacts.split_two_includes _ _ _ _ _ Hs) as [Hinc Hne].
  apply StrFacts.isEmpty_false in Hne.
  split.
  - intros Hempty. unfold Workspace.executeLine, Workspace.executeLineTry.
    rewrite Hne, Hinc, Hs. cbn [map].
    assert (Hor : (Str.isEmpty (Str.trim s1) || Str.isEmpty (Str.trim s2))%bool
                  = true).
    { destruct Hempty as [-> | ->]; [done|]. apply orb_true_r. }
    rewrite Hor. reflexivity.
  - intros H1 H2.
    rewrite (WorkspaceFacts2.executeLine_assignment ws line (Str.trim s1)
               (Str.trim s2) (map Str.trim (s3 :: rest)))
      by (by rewrite ?Hs).
    destruct (Workspace.evaluateExpression _ _) as [value|cause];
      [|reflexivity].
    cbn [fst snd]. split; [done|].
    unfold Workspace.getValue, Workspace.setVariable.
    cbn [Workspace.variables Workspace.history].
    split; [apply lookup_insert_eq|]. split; [|done].
    intros other Hother. by apply lookup_insert_ne.
Qed.

Lemma assignment_uses_two_segments_witness :
  snd (Workspace.executeLine (H := Reference.host) Workspace.newWorkspace
         "a = 1 = zzz(")
  = Ok "a = 1"%string
  /\ Workspace.getValue
       (fst (Workspace.executeLine (H := Reference.host)
               Workspace.newWorkspace "a = 1 = zzz(")) "a"
     = Some (Workspace.VNumber 1)
  /\ Workspace.getValue
       (fst (Workspace.executeLine (H := Reference.host)
               Workspace.newWorkspace "a = 1 = zzz(")) "zzz"
     = None.
Proof.
  destruct (assignment_uses_two_segments (H := Reference.host)
              Workspace.newWorkspace "a = 1 = zzz(")
    as (s1 & s2 & rest & Hsplit & _ & _ & _ & _ & Hvalid);
    [vm_compute; lia|].
  vm_compute in Hsplit. injection Hsplit as <- <- <-.
  assert (H1 : Str.trim "a " <> EmptyString) by (vm_compute; discriminate).
  assert (H2 : Str.trim " 1 " <> EmptyString) by (vm_compute; discriminate).
  specialize (Hvalid H1 H2).
  change (Workspace.evaluateExpression (H := Reference.host)
            (Workspace.variables Workspace.newWorkspace) (Str.trim " 1 "))
    with (@Ok Workspace.WorkspaceValue (Workspace.VNumber 1)) in Hvalid.
  destruct Hvalid as (Hout & Hbound & Hothers & _).
  split; [|split].
  - rewrite Hout. vm_compute. reflexivity.
  - rewrite <- Hbound. reflexivity.
  - rewrite (Hothers "zzz"%string) by (vm_compute; discriminate).
    vm_compute. reflexivity.
Defined.

(** C10 fails as stated.  The line [a == 1] holds two equals signs; its
    second segment is empty, the line fails with "Invalid assignment" and
    [a] is not bound.  The line [a = b = 1] fails in a new Workspace, where
    [b] is not bound, and leaves [a] unbound as well. *)
Lemma double_equals_invalid :
  (2 <= occurrences Workspace.equals "a == 1")%nat
  /\ Workspace.executeLine (H := Reference.host) Workspace.newWorkspace
       "a == 1"
     = (Workspace.newWorkspace,
        Throw (SimulationError
                 ("Line " +:+ Str.dquote +:+ "a == 1" +:+ Str.dquote
                    +:+ ": Invalid assignment")
                 runtime
                 (Some (SimulationError "Invalid assignment"
                          validation None))))
  /\ Workspace.getValue
       (fst (Workspace.executeLine (H := Reference.host)
               Workspace.newWorkspace "a == 1")) "a"
     = None
  /\ Workspace.executeLine (H := Reference.host) Workspace.newWorkspace
       "a = b = 1"
     = (Workspace.newWorkspace,
        Throw (SimulationError
                 ("Line " +:+ Str.dquote +:+ "a = b = 1" +:+ Str.dquote
                    +:+ ": Cannot evaluate expression: 'b'")
                 runtime
                 (Some (SimulationError "Cannot evaluate expression: 'b'"
                          validation None))))
  /\ Workspace.getValue
       (fst (Workspace.executeLine (H := Reference.host)
               Workspace.newWorkspace "a = b = 1")) "a"
     = None.
Proof.
  split; [vm_compute; lia|].
  split; [vm_compute; reflexivity|].
  split; [vm_compute; reflexivity|].
  split; vm_compute; reflexivity.
Qed.

(** C7, as amended.  The four built-in functions are registered at
    construction, in the same map that holds the user's variables.  A
    successful assignment replaces the entry of its name, built-in or not,
    and leaves every other entry alone; and a call through a name whose
    entry is not a function fails with "Function '<name>' is not defined".
    So assigning to a built-in name overwrites the built-in in that
    Workspace. *)
Theorem assignment_replaces_binding `{H : Host}
        (ws : Workspace.Workspace) (line name expression : string)
        (rest : list string) (value : Workspace.WorkspaceValue) :
  map Str.trim (Str.split Workspace.equals line) = name :: expression :: rest ->
  name <> EmptyString -> expression <> EmptyString ->
  Workspace.evaluateExpression (Workspace.variables ws) expression = Ok value ->
  (Workspace.getValue Workspace.newWorkspace "sine"
   = Some (Workspace.VFunction Workspace.sine)
   /\ Workspace.getValue Workspace.newWorkspace "square"
      = Some (Workspace.VFunction Workspace.square)
   /\ Workspace.getValue Workspace.newWorkspace "chirp"
      = Some (Workspace.VFunction Workspace.chirp)
   /\ Workspace.getValue Workspace.newWorkspace "matrix"
      = Some (Workspace.VFunction Workspace.matrix))
  /\ Workspace.getValue (fst (Workspace.executeLine ws line)) name = Some value
  /\ (forall other,
         other <> name ->
         Workspace.getValue (fst (Workspace.executeLine ws line)) other
         = Workspace.getValue ws other)
  /\ (forall call close,
         (forall f, value <> Workspace.VFunction f) ->
         Str.includes Workspace.lparen call = true ->
         Str.trim (Str.substring 0 (Str.indexOf "(" call) call) = name ->
         Workspace.findMatchingParenthesis call = Ok close ->
         Workspace.evaluateExpression
           (Workspace.variables (fst (Workspace.executeLine ws line))) call
         = Throw (SimulationError
                    ("Function '" +:+ name +:+ "' is not defined")
                    validation None)).
Proof.
  intros Hsplit Hname Hexpr Hvalue.
  assert (Hline : Workspace.executeLine ws line
                  = (Workspace.setVariable name value ws,
                     Ok (name +:+ " = " +:+ Workspace.formatOutput value))).
  { by rewrite (WorkspaceFacts2.executeLine_assignment
                   ws line name expression rest), Hvalue. }
  rewrite Hline. cbn [fst]. split; [by vm_compute|].
  unfold Workspace.getValue, Workspace.setVariable. cbn [Workspace.variables].
  split; [apply lookup_insert_eq|]. split.
  - intros other Hother. by apply lookup_insert_ne.
  - intros call close Hnotf Hparen Hfunc Hclose.
    rewrite WorkspaceFacts2.evaluateExpression_call by done.
    unfold Workspace.evaluateFunctionCall.
    rewrite Hclose, Hfunc. cbn [bind]. rewrite lookup_insert_eq.
    destruct value; try done. by destruct (Hnotf f).
Qed.

Lemma assignment_replaces_binding_witness :
  Workspace.getValue
    (fst (Workspace.executeLine (H := Reference.host) Workspace.newWorkspace
            "sine = 5")) "sine"
  = Some (Workspace.VNumber 5).
Proof.
  refine (proj1 (proj2 (assignment_replaces_binding (H := Reference.host)
                          Workspace.newWorkspace "sine = 5" "sine" "5" []
                          (Workspace.VNumber 5) _ _ _ _)));
    [reflexivity | discriminate | discriminate | vm_compute; reflexivity].
Defined.

(** C7 fails as stated: after [sine = 5] the name [sine] holds 5, and the
    built-in generator can no longer be called. *)
Lemma builtin_overwritten :
  let ws := fst (Workspace.execute (H := Reference.host)
                   Workspace.newWorkspace "sine = 5") in
  Workspace.getValue ws "sine" = Some (Workspace.VNumber 5)
  /\ Workspace.getValue ws "sine" <> Some (Workspace.VFunction Workspace.sine)
  /\ snd (Workspace.execute (H := Reference.host) ws "x = sine(2, 1)")
     = Throw (Workspace.executionError
                (Workspace.lineError "x = sine(2, 1)"
                   (SimulationError "Function 'sine' is not defined"
                      validation None))).
Proof. vm_compute. repeat split; done. Qed.

(** C5.  Take an assignment line whose right-hand side is a call of the
    built-in [sine] with two numbers, the frequency [f] and the duration
    [d] (a number, as every numeric literal of a line is), and which
    executes without error.  Afterwards the assigned name holds a Signal;
    the number of its samples is the integer below [d * 44100] (44100 being
    the sample rate the built-in supplies); and every sample is at most 1,
    the amplitude, in absolute value. *)
Theorem sine_assignment `{H : Host} `{!HostLaws H}
        (ws : Workspace.Workspace) (line x expression : string)
        (rest : list string) (close : Z) (f d : float) (out : string) :
  map Str.trim (Str.split Workspace.equals line) = x :: expression :: rest ->
  x <> EmptyString ->
  Str.includes Workspace.lparen expression = true ->
  Str.trim (Str.substring 0 (Str.indexOf "(" expression) expression)
  = "sine"%string ->
  Workspace.getValue ws "sine" = Some (Workspace.VFunction Workspace.sine) ->
  Workspace.findMatchingParenthesis expression = Ok close ->
  Workspace.parseArguments
    (Workspace.evaluateExpression (Workspace.variables ws))
    (Str.trim (Str.substring (Str.indexOf "(" expression + 1) close expression))
    "sine"
  = Ok [Workspace.AValue (Workspace.VNumber f);
        Workspace.AValue (Workspace.VNumber d)] ->
  is_nan d = false ->
  snd (Workspace.executeLine ws line) = Ok out ->
  exists s,
    Workspace.getValue (fst (Workspace.executeLine ws line)) x
    = Some (Workspace.VSignal s)
    /\ Num.floorZ (d * 44100)%float = Some (Z.of_nat (length (Signal.data s)))
    /\ Forall (fun v => (abs v <=? 1)%float = true) (Signal.data s).
Proof.
  intros Hsplit Hx Hparen Hname Hsine Hclose Hargs Hd Hok.
  assert (Hexpr : expression <> EmptyString) by (by intros ->).
  assert (Hproduct : is_nan (d * 44100)%float = false)
    by (eapply FloorFacts.mul_finite_not_nan; [exact Hd|reflexivity]).
  assert (Heval :
            Workspace.evaluateExpression (Workspace.variables ws) expression
            = let* result := Signal.generateSine f d 44100 1 0 in
              Ok (Workspace.VSignal (res_data result))).
  { rewrite WorkspaceFacts2.evaluateExpression_call by done.
    unfold Workspace.evaluateFunctionCall. rewrite Hclose. cbn [bind].
    rewrite Hname. unfold Workspace.getValue in Hsine.
    rewrite Hsine, Hargs. reflexivity. }
  rewrite (WorkspaceFacts2.executeLine_assignment ws line x expression rest)
    in Hok |- * by done.
  rewrite Heval in Hok |- *.
  destruct (Signal.generateSine f d 44100 1 0) as [result|e] eqn:Hsine';
    [|done].
  cbn [bind fst] in *.
  apply SignalFacts.generateSine_ok in Hsine'
    as (n & Hn & Hdata & _ & Hnan).
  exists (res_data result). split.
  - unfold Workspace.getValue, Workspace.setVariable.
    cbn [Workspace.variables]. apply lookup_insert_eq.
  - rewrite Hdata in *. rewrite length_map, length_seq.
    split; [by apply FloorFacts.floor_length|].
    rewrite Forall_forall in Hnan. apply Forall_forall. intros v Hv.
    specialize (Hnan v Hv). apply list_elem_of_In in Hv.
    apply in_map_iff in Hv as (i & <- & _).
    rewrite FloatFacts.mul_one_l in *.
    by apply SignalFacts.sin_bounded.
Qed.

Lemma sine_assignment_witness :
  exists s,
    Workspace.getValue
      (fst (Workspace.executeLine (H := Reference.host) Workspace.newWorkspace
              "x = sine(2, 0.001)")) "x"
    = Some (Workspace.VSignal s)
    /\ Num.floorZ (0.001 * 44100)%float
       = Some (Z.of_nat (length (Signal.data s)))
    /\ Forall (fun v => (abs v <=? 1)%float = true) (Signal.data s).
Proof.
  refine (sine_assignment (H := Reference.host) Workspace.newWorkspace
            "x = sine(2, 0.001)" "x" "sine(2, 0.001)" [] 13 2%float
            0.001%float _ _ _ _ _ _ _ _ _ _);
    [reflexivity | discriminate | reflexivity | reflexivity | reflexivity
    | reflexivity | vm_compute; reflexivity | reflexivity
    | vm_compute; reflexivity].
Defined.

(* ------------------------------------------------------------------------- *)
(** ** The algebra of the arithmetic on numbers *)

Module FloatAlgebra.

Lemma add_comm (x y : float) : (x + y)%float = (y + x)%float.
Proof.
  apply Prim2SF_inj. rewrite !add_spec.
  destruct (Prim2SF x) as [sx|sx| |sx mx ex],
           (Prim2SF y) as [sy|sy| |sy my ey];
    try done; try (by destruct sx, sy).
  unfold SF64add, SFadd. by rewrite Z.min_comm, Z.add_comm.
Qed.

Lemma mul_comm (x y : float) : (x * y)%float = (y * x)%float.
Proof.
  apply Prim2SF_inj. rewrite !mul_spec.
  destruct (Prim2SF x) as [sx|sx| |sx mx ex],
           (Prim2SF y) as [sy|sy| |sy my ey];
    try done; unfold SF64mul, SFmul; try (by rewrite xorb_comm).
  by rewrite xorb_comm, Pos.mul_comm, Z.add_comm.
Qed.

Lemma mul_one_r (x : float) : (x * 1)%float = x.
Proof. rewrite mul_comm. apply FloatFacts.mul_one_l. Qed.

End FloatAlgebra.

Module SignFacts.

Lemma round_aux_opp (s : bool) (m e : Z) (l : location) :
  binary_round_aux prec emax (negb s) m e l
  = SFopp (binary_round_aux prec emax s m e l).
Proof.
  unfold binary_round_aux.
  destruct (shr_fexp prec emax m e l) as [r1 e1].
  destruct (shr_fexp prec emax _ e1 loc_Exact) as [r2 e2].
  destruct (shr_m r2); [done| |done]. by destruct (_ <=? _)%Z.
Qed.

Lemma mul_opp_r (x y : float) : (x * - y)%float = (- (x * y))%float.
Proof.
  apply Prim2SF_inj. rewrite opp_spec, !mul_spec, opp_spec.
  destruct (Prim2SF x) as [sx|sx| |sx mx ex],
           (Prim2SF y) as [sy|sy| |sy my ey];
    try done; unfold SF64mul, SFmul, SFopp;
    try (by rewrite negb_xorb_r).
  fold (SFopp (binary_round_aux prec emax (xorb sx sy)
                 (Z.pos (mx * my)) (ex + ey) loc_Exact)).
  by rewrite <- round_aux_opp, negb_xorb_r.
Qed.

Lemma mul_neg_one (x : float) : (x * -1)%float = (- x)%float.
Proof.
  change (-1)%float with (PrimFloat.opp 1%float).
  by rewrite mul_opp_r, FloatAlgebra.mul_one_r.
Qed.

Lemma is_zero_shape (x : float) (s : bool) :
  Prim2SF x = S754_zero s -> is_zero x = true.
Proof.
  intros Hx. unfold is_zero. rewrite FloatAxioms.eqb_spec, Hx.
  by destruct s.
Qed.

Lemma zero_shape (x : float) :
  is_zero x = true -> exists s, Prim2SF x = S754_zero s.
Proof.
  unfold is_zero. rewrite FloatAxioms.eqb_spec. unfold SFeqb.
  change (Prim2SF zero) with (S754_zero false).
  destruct (Prim2SF x) as [s|s| |s m e]; simpl; try done.
  - intros _. by exists s.
  - by destruct s.
  - by destruct s.
Qed.

(** A product with a zero is a zero, unless it is NaN. *)
Lemma mul_zero_r (a x : float) :
  is_zero x = true -> is_nan (a * x)%float = false ->
  is_zero (a * x)%float = true.
Proof.
  intros Hx Hnan. apply zero_shape in Hx as [s Hs].
  destruct (Prim2SF (a * x)%float) as [sz|sz| |sz mz ez] eqn:Hp.
  - by apply (is_zero_shape _ sz).
  - rewrite mul_spec, Hs in Hp. by destruct (Prim2SF a).
  - apply FloatFacts.is_nan_shape in Hp. congruence.
  - rewrite mul_spec, Hs in Hp. by destruct (Prim2SF a).
Qed.

(** [Math.sign] returns NaN, its argument when that is a zero, -1 or 1. *)
Lemma sign_cases (x : float) :
  Num.sign x = nan
  \/ (is_zero x = true /\ Num.sign x = x)
  \/ Num.sign x = (-1)%float
  \/ Num.sign x = 1%float.
Proof.
  unfold Num.sign. destruct (is_nan x); [by left|].
  destruct (is_zero x); [right; by left|].
  destruct (x <? 0)%float; right; right; [by left | by right].
Qed.
End SignFacts.

(* ------------------------------------------------------------------------- *)
(** ** More on matrices: cells, sums, scalings and transposes *)

Module GridFacts.

Lemma nth_insert_eq {A} (l : list A) (i : nat) (x d : A) :
  (i < length l)%nat -> nth i (<[i := x]> l) d = x.
Proof.
  intros Hi. apply nth_lookup_Some. by apply list_lookup_insert_eq.
Qed.

Lemma nth_insert_ne {A} (l : list A) (i j : nat) (x d : A) :
  i <> j -> nth j (<[i := x]> l) d = nth j l d.
Proof.
  intros Hne. by rewrite !nth_lookup, list_lookup_insert_ne.
Qed.

Lemma rectangular_insert {A} (g : list (list A)) (cols i : nat)
      (row : list A) :
  rectangular g cols -> length row = cols ->
  rectangular (<[i := row]> g) cols.
Proof.
  intros [Hne Hg] Hrow. split.
  - intros Hnil. apply (f_equal length) in Hnil.
    rewrite length_insert in Hnil. by destruct g.
  - by apply Forall_insert.
Qed.

Lemma zip_with_comm {A B} (f : A -> A -> B) (l1 l2 : list A) :
  (forall x y, f x y = f y x) -> zip_with f l1 l2 = zip_with f l2 l1.
Proof.
  intros Hf. revert l2. induction l1 as [|x l1 IH]; intros [|y l2];
    simpl; try done.
  by rewrite Hf, IH.
Qed.

Lemma drop_nth_cons {A} (l : list A) (j : nat) (d : A) :
  (j < length l)%nat -> drop j l = nth j l d :: drop (S j) l.
Proof.
  revert j. induction l as [|x l IH]; intros [|j] Hj; simpl in *;
    try lia; [done|].
  apply IH. lia.
Qed.

Lemma nth_zip_with {A B C} (f : A -> B -> C) (l1 : list A) (l2 : list B)
      (i : nat) (da : A) (db : B) (dc : C) :
  (i < length l1)%nat -> (i < length l2)%nat ->
  nth i (zip_with f l1 l2) dc = f (nth i l1 da) (nth i l2 db).
Proof.
  revert l2 i. induction l1 as [|x l1 IH]; intros [|y l2] [|i] H1 H2;
    simpl in *; try lia; [done|].
  apply IH; lia.
Qed.

Lemma rectangular_zip_with {A B C} (f : list A -> list B -> list C)
      (g1 : list (list A)) (g2 : list (list B)) (cols : nat) :
  rectangular g1 cols -> rectangular g2 cols ->
  (forall r1 r2, length r1 = cols -> length r2 = cols ->
                 length (f r1 r2) = cols) ->
  rectangular (zip_with f g1 g2) cols.
Proof.
  intros [Hne1 Hg1] [Hne2 Hg2] Hf. split.
  - by destruct g1, g2.
  - clear Hne1 Hne2. revert g2 Hg2.
    induction Hg1 as [|r1 g1 Hr1 _ IH]; intros g2 Hg2; [constructor|].
    destruct Hg2 as [|r2 g2 Hr2 Hg2]; [constructor|].
    simpl. constructor; [by apply Hf | by apply IH].
Qed.
End GridFacts.

Module Matrix2Cells.
Import Matrix2 GridFacts.

Section WithHost.
Context {H : Host}.

Lemma get_rectangular (g : list (list float)) (cols i j : nat) :
  rectangular g cols ->
  get (mkMatrix g) i j
  = if ((length g <=? i) || (cols <=? j))%nat%bool
    then Throw (PlainError "Index out of bounds")
    else Ok (nth j (nth i g []) nan).
Proof.
  intros Hg. unfold get.
  by rewrite (Matrix2Facts.getCols_rectangular g cols Hg).
Qed.

Lemma set_rectangular (g : list (list float)) (cols i j : nat)
      (v : float) :
  rectangular g cols ->
  set (mkMatrix g) i j v
  = if ((length g <=? i) || (cols <=? j))%nat%bool
    then Throw (PlainError "Index out of bounds")
    else Ok (mkMatrix (<[i := <[j := v]> (nth i g [])]> g)).
Proof.
  intros Hg. unfold set.
  by rewrite (Matrix2Facts.getCols_rectangular g cols Hg).
Qed.

Lemma addRow_in_bounds (g : list (list float)) (cols i : nat)
      (row : list float) :
  rectangular g cols -> (i < length g)%nat ->
  forall j, (j + length row <= cols)%nat ->
            addRow (mkMatrix g) i j row
            = Ok (zip_with PrimFloat.add row (drop j (nth i g []))).
Proof.
  intros Hg Hi. pose proof (rectangular_nth g cols i Hg Hi) as Hlen.
  induction row as [|val rest IH]; intros j Hj; [done|].
  simpl in Hj. cbn [addRow].
  rewrite (get_rectangular g cols i j Hg).
  destruct (Nat.leb_spec (length g) i); [lia|].
  destruct (Nat.leb_spec cols j); [lia|]. cbn [orb bind].
  rewrite IH by lia. cbn [bind].
  by rewrite (drop_nth_cons (nth i g []) j nan) by lia.
Qed.

Lemma addRows_in_bounds (g : list (list float)) (cols : nat)
      (rows : list (list float)) :
  rectangular g cols -> Forall (fun row => length row = cols) rows ->
  forall i, (i + length rows <= length g)%nat ->
            addRows (mkMatrix g) i rows
            = Ok (zip_with (zip_with PrimFloat.add) rows (drop i g)).
Proof.
  intros Hg Hrows.
  induction Hrows as [|row rows Hrow _ IH]; intros i Hi; [done|].
  simpl in Hi. cbn [addRows].
  rewrite (addRow_in_bounds g cols i row Hg) by lia.
  cbn [bind]. rewrite IH by lia. cbn [bind].
  by rewrite (drop_nth_cons g i []) by lia.
Qed.

Lemma add_mismatch (g1 g2 : list (list float)) (c1 c2 : nat) :
  rectangular g1 c1 -> rectangular g2 c2 ->
  length g1 <> length g2 \/ c1 <> c2 ->
  add (mkMatrix g1) (mkMatrix g2)
  = Throw (PlainError "Matrix dimensions must match").
Proof.
  intros Hg1 Hg2 Hne. unfold add, getRows. simpl.
  destruct (Nat.eqb_spec (length g1) (length g2)) as [Hrows|]; [|done].
  cbn [negb].
  rewrite (Matrix2Facts.getCols_rectangular g1 c1 Hg1).
  rewrite (Matrix2Facts.getCols_rectangular g2 c2 Hg2). cbn [bind].
  destruct (Nat.eqb_spec c1 c2); [|done]. by destruct Hne.
Qed.

Lemma add_conform (g1 g2 : list (list float)) (cols : nat) :
  rectangular g1 cols -> rectangular g2 cols -> length g1 = length g2 ->
  add (mkMatrix g1) (mkMatrix g2)
  = Ok (mkMatrix (zip_with (zip_with PrimFloat.add) g1 g2)).
Proof.
  intros Hg1 Hg2 Hrows. unfold add, getRows. simpl.
  rewrite Hrows, Nat.eqb_refl. cbn [negb].
  rewrite (Matrix2Facts.getCols_rectangular g1 cols Hg1).
  rewrite (Matrix2Facts.getCols_rectangular g2 cols Hg2). cbn [bind].
  rewrite Nat.eqb_refl. cbn [negb].
  rewrite (addRows_in_bounds g2 cols g1 Hg2);
    [| by destruct Hg1 | simpl; lia].
  cbn [bind drop].
  apply (Matrix2Facts.newMatrix2_rectangular _ cols).
  apply rectangular_zip_with; try done.
  intros r1 r2 Hr1 Hr2. rewrite length_zip_with. lia.
Qed.
End WithHost.
End Matrix2Cells.

(** X1.  Writing a cell of a Matrix and reading it back: for a Matrix built
    from a grid and a position inside it, [set] succeeds, [get] at the same
    position then returns the value written, every other position reads as
    before, and the grid keeps its shape.  At a position outside the grid
    both [set] and [get] throw "Index out of bounds". *)
Theorem set_then_get `{H : Host}
        (g : list (list float)) (m : Matrix2.Matrix) (cols i j : nat)
        (v : float) :
  Matrix2.newMatrix g = Ok m -> Matrix2.getCols m = Ok cols ->
  ((i < Matrix2.getRows m)%nat -> (j < cols)%nat ->
   exists m',
     Matrix2.set m i j v = Ok m'
     /\ Matrix2.get m' i j = Ok v
     /\ (forall i' j', (i', j') <> (i, j) ->
                       Matrix2.get m' i' j' = Matrix2.get m i' j')
     /\ Matrix2.getRows m' = Matrix2.getRows m
     /\ Matrix2.getCols m' = Ok cols)
  /\ ((Matrix2.getRows m <= i)%nat \/ (cols <= j)%nat ->
      Matrix2.set m i j v = Throw (PlainError "Index out of bounds")
      /\ Matrix2.get m i j = Throw (PlainError "Index out of bounds")).
Proof.
  intros Hnew Hcols.
  apply Matrix2Facts.newMatrix2_inv in Hnew as [Hdata [c Hg]].
  destruct m as [d]. simpl in Hdata. subst d.
  rewrite (Matrix2Facts.getCols_rectangular g c Hg) in Hcols.
  injection Hcols as ->. unfold Matrix2.getRows. simpl. split.
  - intros Hi Hj.
    pose proof (rectangular_nth g cols i Hg Hi) as Hrow.
    assert (Hg' : rectangular (<[i := <[j := v]> (nth i g [])]> g) cols).
    { apply GridFacts.rectangular_insert; [done|].
      by rewrite length_insert. }
    eexists. split.
    { rewrite (Matrix2Cells.set_rectangular g cols) by done.
      destruct (Nat.leb_spec (length g) i); [lia|].
      destruct (Nat.leb_spec cols j); [lia|]. reflexivity. }
    split; [|split; [|split]].
    + rewrite (Matrix2Cells.get_rectangular _ cols) by done.
      rewrite length_insert.
      destruct (Nat.leb_spec (length g) i); [lia|].
      destruct (Nat.leb_spec cols j); [lia|]. cbn [orb]. f_equal.
      rewrite GridFacts.nth_insert_eq by done.
      apply GridFacts.nth_insert_eq. lia.
    + intros i' j' Hne.
      rewrite (Matrix2Cells.get_rectangular _ cols) by done.
      rewrite (Matrix2Cells.get_rectangular g cols) by done.
      rewrite length_insert.
      destruct ((length g <=? i') || (cols <=? j'))%nat%bool; [done|].
      f_equal. destruct (decide (i = i')) as [<-|Hi'].
      * rewrite GridFacts.nth_insert_eq by done.
        apply GridFacts.nth_insert_ne. congruence.
      * by rewrite GridFacts.nth_insert_ne.
    + simpl. by rewrite length_insert.
    + by apply Matrix2Facts.getCols_rectangular.
  - intros Hout.
    rewrite (Matrix2Cells.set_rectangular g cols) by done.
    rewrite (Matrix2Cells.get_rectangular g cols) by done.
    assert (((length g <=? i) || (cols <=? j))%nat%bool = true) as ->; [|done].
    apply orb_true_iff. destruct Hout; [left | right]; by apply Nat.leb_le.
Qed.

Lemma set_then_get_witness :
  (exists m',
      Matrix2.set (H := Reference.host)
        (Matrix2.mkMatrix [[1; 2]; [3; 4]]%float) 1 0 7%float = Ok m'
      /\ Matrix2.get (H := Reference.host) m' 1 0 = Ok 7%float
      /\ (forall i' j', (i', j') <> (1, 0)%nat ->
                        Matrix2.get (H := Reference.host) m' i' j'
                        = Matrix2.get (H := Reference.host)
                            (Matrix2.mkMatrix [[1; 2]; [3; 4]]%float) i' j')
      /\ Matrix2.getRows m' = 2%nat
      /\ Matrix2.getCols (H := Reference.host) m' = Ok 2%nat).
Proof.
  refine (proj1 (set_then_get (H := Reference.host)
                   [[1; 2]; [3; 4]]%float
                   (Matrix2.mkMatrix [[1; 2]; [3; 4]]%float) 2 1 0 7%float
                   eq_refl eq_refl) _ _); cbv; lia.
Defined.

(** X2.  [add] on two Matrices: when the numbers of rows or of columns
    differ it throws "Matrix dimensions must match"; otherwise it returns the
    Matrix whose cell at every position is the sum of the two cells there,
    with the shape of its operands. *)
Theorem add_cellwise `{H : Host}
        (g1 g2 : list (list float)) (c1 c2 : nat) :
  rectangular g1 c1 -> rectangular g2 c2 ->
  (length g1 <> length g2 \/ c1 <> c2 ->
   Matrix2.add (Matrix2.mkMatrix g1) (Matrix2.mkMatrix g2)
   = Throw (PlainError "Matrix dimensions must match"))
  /\ (length g1 = length g2 -> c1 = c2 ->
      exists sum,
        Matrix2.add (Matrix2.mkMatrix g1) (Matrix2.mkMatrix g2) = Ok sum
        /\ Matrix2.getRows sum = length g1
        /\ Matrix2.getCols sum = Ok c1
        /\ forall i j, (i < length g1)%nat -> (j < c1)%nat ->
             Matrix2.get sum i j
             = Ok (nth j (nth i g1 []) nan + nth j (nth i g2 []) nan)%float).
Proof.
  intros Hg1 Hg2. split.
  - by apply Matrix2Cells.add_mismatch.
  - intros Hrows <-.
    assert (Hsum : rectangular (zip_with (zip_with PrimFloat.add) g1 g2) c1).
    { apply GridFacts.rectangular_zip_with; try done.
      intros r1 r2 Hr1 Hr2. rewrite length_zip_with. lia. }
    eexists. split; [by apply (Matrix2Cells.add_conform g1 g2 c1)|].
    split; [|split].
    + unfold Matrix2.getRows. simpl. rewrite length_zip_with. lia.
    + by apply Matrix2Facts.getCols_rectangular.
    + intros i j Hi Hj.
      rewrite (Matrix2Cells.get_rectangular _ c1) by done.
      rewrite length_zip_with.
      destruct (Nat.leb_spec (length g1 `min` length g2) i); [lia|].
      destruct (Nat.leb_spec c1 j); [lia|]. cbn [orb]. f_equal.
      rewrite (GridFacts.nth_zip_with _ g1 g2 i [] [] []) by lia.
      apply GridFacts.nth_zip_with.
      * by rewrite (rectangular_nth g1 c1 i Hg1 Hi).
      * rewrite (rectangular_nth g2 c1 i Hg2); [done | lia].
Qed.

Lemma add_cellwise_witness :
  exists sum,
    Matrix2.add (H := Reference.host)
      (Matrix2.mkMatrix [[1; 2]; [3; 4]]%float)
      (Matrix2.mkMatrix [[10; 20]; [30; 40]]%float) = Ok sum
    /\ Matrix2.getRows sum = 2%nat
    /\ Matrix2.getCols (H := Reference.host) sum = Ok 2%nat
    /\ forall i j, (i < 2)%nat -> (j < 2)%nat ->
         Matrix2.get (H := Reference.host) sum i j
         = Ok (nth j (nth i [[1; 2]; [3; 4]] []) nan
               + nth j (nth i [[10; 20]; [30; 40]] []) nan)%float.
Proof.
  refine (proj2 (add_cellwise (H := Reference.host)
                   [[1; 2]; [3; 4]]%float [[10; 20]; [30; 40]]%float 2 2
                   _ _) eq_refl eq_refl);
    (split; [done | repeat constructor]).
Defined.

(** X3.  [add] does not depend on the order of its operands: for two
    Matrices, [a.add(b)] and [b.add(a)] either throw the same error or
    return the same Matrix, bit for bit. *)
Theorem add_commutes `{H : Host}
        (g1 g2 : list (list float)) (c1 c2 : nat) :
  rectangular g1 c1 -> rectangular g2 c2 ->
  Matrix2.add (Matrix2.mkMatrix g1) (Matrix2.mkMatrix g2)
  = Matrix2.add (Matrix2.mkMatrix g2) (Matrix2.mkMatrix g1).
Proof.
  intros Hg1 Hg2.
  destruct (decide (length g1 = length g2 /\ c1 = c2)) as [[Hrows <-]|Hne].
  - rewrite (Matrix2Cells.add_conform g1 g2 c1) by done.
    rewrite (Matrix2Cells.add_conform g2 g1 c1) by done.
    do 2 f_equal. apply GridFacts.zip_with_comm. intros r1 r2.
    apply GridFacts.zip_with_comm, FloatAlgebra.add_comm.
  - assert (Hdiff : length g1 <> length g2 \/ c1 <> c2).
    { destruct (decide (length g1 = length g2)); [right | left]; [|done].
      intros ->. by apply Hne. }
    rewrite (Matrix2Cells.add_mismatch g1 g2 c1 c2) by done.
    rewrite (Matrix2Cells.add_mismatch g2 g1 c2 c1); [done..|].
    destruct Hdiff; [left | right]; congruence.
Qed.

Lemma add_commutes_witness :
  Matrix2.add (H := Reference.host)
    (Matrix2.mkMatrix [[1; 2]; [3; 4]]%float)
    (Matrix2.mkMatrix [[10; 20]; [30; 40]]%float)
  = Matrix2.add (H := Reference.host)
      (Matrix2.mkMatrix [[10; 20]; [30; 40]]%float)
      (Matrix2.mkMatrix [[1; 2]; [3; 4]]%float).
Proof.
  apply (add_commutes (H := Reference.host) _ _ 2 2);
    (split; [done | repeat constructor]).
Defined.

(** X4.  [multiply] by a number scales every cell and keeps the shape, and
    it never throws; multiplying by 1 returns a Matrix equal to the
    receiver. *)
Theorem scale_cells `{H : Host} (g : list (list float)) (cols : nat)
        (x : float) :
  rectangular g cols ->
  (exists r,
      Matrix2.multiply (Matrix2.mkMatrix g) (Matrix2.Scalar x) = Ok r
      /\ Matrix2.getRows r = length g
      /\ Matrix2.getCols r = Ok cols
      /\ forall i j, (i < length g)%nat -> (j < cols)%nat ->
           Matrix2.get r i j = Ok (nth j (nth i g []) nan * x)%float)
  /\ Matrix2.multiply (Matrix2.mkMatrix g) (Matrix2.Scalar 1)
     = Ok (Matrix2.mkMatrix g).
Proof.
  intros Hg.
  assert (Hscaled : forall y,
             rectangular (map (fun row => map (fun val => (val * y)%float) row)
                            g) cols).
  { intros y. destruct Hg as [Hne Hrows]. split.
    - by destruct g.
    - apply Forall_forall. intros row Hrow. apply list_elem_of_In in Hrow.
      apply in_map_iff in Hrow as (r & <- & Hr). rewrite length_map.
      rewrite Forall_forall in Hrows. by apply Hrows, list_elem_of_In. }
  split.
  - eexists. split.
    { cbn [Matrix2.multiply Matrix2.data].
      apply (Matrix2Facts.newMatrix2_rectangular _ cols), Hscaled. }
    split; [|split].
    + unfold Matrix2.getRows. simpl. by rewrite length_map.
    + apply Matrix2Facts.getCols_rectangular, Hscaled.
    + intros i j Hi Hj.
      rewrite (Matrix2Cells.get_rectangular _ cols) by apply Hscaled.
      rewrite length_map.
      destruct (Nat.leb_spec (length g) i); [lia|].
      destruct (Nat.leb_spec cols j); [lia|]. cbn [orb]. f_equal.
      pose proof (rectangular_nth g cols i Hg Hi) as Hrow.
      rewrite (nth_indep _ [] (map (fun val => (val * x)%float) []))
        by (rewrite length_map; lia).
      rewrite (map_nth (fun row => map (fun val => (val * x)%float) row)).
      rewrite (nth_indep _ nan (nan * x)%float)
        by (rewrite length_map; lia).
      by rewrite (map_nth (fun val => (val * x)%float)).
  - cbn [Matrix2.multiply Matrix2.data].
    replace (map (fun row => map (fun val => (val * 1)%float) row) g) with g.
    + by apply (Matrix2Facts.newMatrix2_rectangular g cols).
    + rewrite <- (map_id g) at 1. apply map_ext. intros row.
      rewrite <- (map_id row) at 1. apply map_ext. intros val.
      symmetry. apply FloatAlgebra.mul_one_r.
Qed.

Lemma scale_cells_witness :
  (exists r,
      Matrix2.multiply (H := Reference.host)
        (Matrix2.mkMatrix [[1; 2]; [3; 4]]%float) (Matrix2.Scalar 3) = Ok r
      /\ Matrix2.getRows r = 2%nat
      /\ Matrix2.getCols (H := Reference.host) r = Ok 2%nat
      /\ forall i j, (i < 2)%nat -> (j < 2)%nat ->
           Matrix2.get (H := Reference.host) r i j
           = Ok (nth j (nth i [[1; 2]; [3; 4]] []) nan * 3)%float)
  /\ Matrix2.multiply (H := Reference.host)
       (Matrix2.mkMatrix [[1; 2]; [3; 4]]%float) (Matrix2.Scalar 1)
     = Ok (Matrix2.mkMatrix [[1; 2]; [3; 4]]%float).
Proof.
  apply (scale_cells (H := Reference.host) [[1; 2]; [3; 4]]%float 2 3%float).
  split; [done | repeat constructor].
Defined.

(** X5.  [transpose] swaps the axes: the transpose of a Matrix with [rows]
    rows and [cols] columns (one at least) has [cols] rows and [rows]
    columns, and its cell at row [j] and column [i] is the cell of the
    receiver at row [i] and column [j]. *)
Theorem transpose_swaps_axes `{H : Host} (g : list (list float))
        (cols : nat) :
  rectangular g cols -> (0 < cols)%nat ->
  exists t,
    Matrix2.transpose (Matrix2.mkMatrix g) = Ok t
    /\ Matrix2.getRows t = cols
    /\ Matrix2.getCols t = Ok (length g)
    /\ forall i j, (i < length g)%nat -> (j < cols)%nat ->
         Matrix2.get t j i = Matrix2.get (Matrix2.mkMatrix g) i j.
Proof.
  intros Hg Hcols.
  pose proof (rectangular_rows g cols Hg) as Hrows.
  assert (Ht : rectangular
                 (map (fun j => map (fun i => nth j (nth i g []) nan)
                                  (seq 0 (length g)))
                    (seq 0 cols)) (length g)).
  { apply rectangular_table; [done|].
    intros j. by rewrite length_map, length_seq. }
  eexists. split; [by apply Matrix2Facts.transpose_rectangular|].
  split; [|split].
  - unfold Matrix2.getRows. simpl. by rewrite length_map, length_seq.
  - by apply Matrix2Facts.getCols_rectangular.
  - intros i j Hi Hj.
    rewrite (Matrix2Cells.get_rectangular _ (length g)) by done.
    rewrite (Matrix2Cells.get_rectangular g cols) by done.
    rewrite length_map, length_seq.
    destruct (Nat.leb_spec (length g) i); [lia|].
    destruct (Nat.leb_spec cols j); [lia|]. cbn [orb]. f_equal.
    rewrite (nth_map_seq _ cols j []) by done.
    by rewrite nth_map_seq.
Qed.

Lemma transpose_swaps_axes_witness :
  exists t,
    Matrix2.transpose (H := Reference.host)
      (Matrix2.mkMatrix [[1; 2; 3]; [4; 5; 6]]%float) = Ok t
    /\ Matrix2.getRows t = 3%nat
    /\ Matrix2.getCols (H := Reference.host) t = Ok 2%nat
    /\ forall i j, (i < 2)%nat -> (j < 3)%nat ->
         Matrix2.get (H := Reference.host) t j i
         = Matrix2.get (H := Reference.host)
             (Matrix2.mkMatrix [[1; 2; 3]; [4; 5; 6]]%float) i j.
Proof.
  apply (transpose_swaps_axes (H := Reference.host)
           [[1; 2; 3]; [4; 5; 6]]%float 3).
  - split; [done | repeat constructor].
  - lia.
Defined.

(** X6.  A Matrix whose rows have no cells has no transpose: the
    constructor accepts the grid, but [transpose] builds an array without
    rows and the constructor rejects that with "Invalid matrix data". *)
Theorem transpose_of_empty_rows `{H : Host} (g : list (list float))
        (m : Matrix2.Matrix) :
  Matrix2.newMatrix g = Ok m -> Matrix2.getCols m = Ok 0%nat ->
  Matrix2.transpose m = Throw (PlainError "Invalid matrix data").
Proof.
  intros Hnew Hcols.
  apply Matrix2Facts.newMatrix2_inv in Hnew as [Hdata [c Hg]].
  destruct m as [d]. simpl in Hdata. subst d.
  rewrite (Matrix2Facts.getCols_rectangular g c Hg) in Hcols.
  injection Hcols as ->.
  unfold Matrix2.transpose.
  rewrite (Matrix2Facts.getCols_rectangular g 0 Hg). cbn [bind].
  by rewrite Matrix2Facts.transposeLoops_table.
Qed.

Lemma transpose_of_empty_rows_witness :
  Matrix2.transpose (H := Reference.host) (Matrix2.mkMatrix [[]; []])
  = Throw (PlainError "Invalid matrix data").
Proof.
  apply (transpose_of_empty_rows (H := Reference.host) [[]; []]
           (Matrix2.mkMatrix [[]; []]) eq_refl eq_refl).
Defined.

Module TransposeFacts.
Import Matrix2.

(** The grid that [transpose] builds from a grid with [cols] columns. *)
Lemma zip_with_tables {A B C} (f : A -> B -> C) (F : nat -> A)
      (G : nat -> B) (s n : nat) :
  zip_with f (map F (seq s n)) (map G (seq s n))
  = map (fun k => f (F k) (G k)) (seq s n).
Proof.
  revert s. induction n as [|n IH]; intros s; [done|].
  simpl. by rewrite IH.
Qed.

Lemma table_rectangular {A} (v : nat -> nat -> A) (rows cols : nat) :
  (0 < rows)%nat ->
  rectangular (map (fun i => map (v i) (seq 0 cols)) (seq 0 rows)) cols.
Proof.
  intros Hrows. apply rectangular_table; [done|].
  intros i. by rewrite length_map, length_seq.
Qed.

Lemma table_cell {A} (v : nat -> nat -> A) (rows cols i j : nat) (d : A) :
  (i < rows)%nat -> (j < cols)%nat ->
  nth j (nth i (map (fun i => map (v i) (seq 0 cols)) (seq 0 rows)) []) d
  = v i j.
Proof.
  intros Hi Hj. rewrite (nth_map_seq _ rows i []) by done.
  by rewrite nth_map_seq.
Qed.
End TransposeFacts.

(** X7.  The transpose of a sum is the sum of the transposes: for two
    Matrices of one shape, with a column at least, [a.add(b).transpose()]
    and [a.transpose().add(b.transpose())] both return, and return the same
    Matrix. *)
Theorem transpose_of_sum `{H : Host}
        (g1 g2 : list (list float)) (cols : nat) :
  rectangular g1 cols -> rectangular g2 cols -> length g1 = length g2 ->
  (0 < cols)%nat ->
  exists r,
    (let* sum := Matrix2.add (Matrix2.mkMatrix g1) (Matrix2.mkMatrix g2) in
     Matrix2.transpose sum) = Ok r
    /\ (let* t1 := Matrix2.transpose (Matrix2.mkMatrix g1) in
        let* t2 := Matrix2.transpose (Matrix2.mkMatrix g2) in
        Matrix2.add t1 t2) = Ok r.
Proof.
  intros Hg1 Hg2 Hrows Hcols.
  pose proof (rectangular_rows g1 cols Hg1) as Hpos.
  assert (Hsum : rectangular (zip_with (zip_with PrimFloat.add) g1 g2) cols).
  { apply GridFacts.rectangular_zip_with; try done.
    intros r1 r2 Hr1 Hr2. rewrite length_zip_with. lia. }
  eexists. split.
  - rewrite (Matrix2Cells.add_conform g1 g2 cols) by done. cbn [bind].
    by apply Matrix2Facts.transpose_rectangular.
  - rewrite (Matrix2Facts.transpose_rectangular g1 cols) by done.
    rewrite (Matrix2Facts.transpose_rectangular g2 cols) by done.
    cbn [bind]. rewrite <- Hrows.
    rewrite (Matrix2Cells.add_conform _ _ (length g1));
      [| apply rectangular_table; [done | intros j;
                                          by rewrite length_map, length_seq]..
       | by rewrite !length_map].
    do 2 f_equal. rewrite TransposeFacts.zip_with_tables.
    rewrite length_zip_with, <- Hrows, Nat.min_id.
    apply map_ext_in. intros j Hj. apply in_seq in Hj.
    rewrite TransposeFacts.zip_with_tables.
    apply map_ext_in. intros i Hi. apply in_seq in Hi.
    rewrite (GridFacts.nth_zip_with _ g1 g2 i [] [] []) by lia.
    symmetry. apply GridFacts.nth_zip_with.
    + rewrite (rectangular_nth g1 cols i Hg1); lia.
    + rewrite (rectangular_nth g2 cols i Hg2); lia.
Qed.

Lemma transpose_of_sum_witness :
  exists r,
    (let* sum := Matrix2.add (H := Reference.host)
                   (Matrix2.mkMatrix [[1; 2; 3]; [4; 5; 6]]%float)
                   (Matrix2.mkMatrix [[7; 8; 9]; [1; 1; 1]]%float) in
     Matrix2.transpose (H := Reference.host) sum) = Ok r
    /\ (let* t1 := Matrix2.transpose (H := Reference.host)
                     (Matrix2.mkMatrix [[1; 2; 3]; [4; 5; 6]]%float) in
        let* t2 := Matrix2.transpose (H := Reference.host)
                     (Matrix2.mkMatrix [[7; 8; 9]; [1; 1; 1]]%float) in
        Matrix2.add (H := Reference.host) t1 t2) = Ok r.
Proof.
  apply (transpose_of_sum (H := Reference.host) _ _ 3);
    [split; [done | repeat constructor]
    | split; [done | repeat constructor] | reflexivity | lia].
Defined.

(** X8.  The transpose of a product is the product of the transposes in the
    opposite order: for Matrices [a] and [b] whose inner dimensions agree,
    [b] having a column at least, [a.multiply(b).transpose()] and
    [b.transpose().multiply(a.transpose())] both return, and return the same
    Matrix, bit for bit. *)
Theorem transpose_of_product `{H : Host}
        (a b : list (list float)) (ca cb : nat) :
  rectangular a ca -> rectangular b cb -> ca = length b -> (0 < cb)%nat ->
  exists r,
    (let* p := Matrix2.multiply (Matrix2.mkMatrix a)
                 (Matrix2.Mat (Matrix2.mkMatrix b)) in
     Matrix2.transpose p) = Ok r
    /\ (let* bt := Matrix2.transpose (Matrix2.mkMatrix b) in
        let* at' := Matrix2.transpose (Matrix2.mkMatrix a) in
        Matrix2.multiply bt (Matrix2.Mat at')) = Ok r.
Proof.
  intros Ha Hb -> Hcb.
  pose proof (rectangular_rows a _ Ha) as Hm.
  pose proof (rectangular_rows b _ Hb) as Hp.
  set (m := length a) in *. set (p := length b) in *.
  set (ta := map (fun k => map (fun i => nth k (nth i a []) nan) (seq 0 m))
               (seq 0 p)).
  set (tb := map (fun j => map (fun k => nth j (nth k b []) nan) (seq 0 p))
               (seq 0 cb)).
  assert (Hta : rectangular ta m)
    by (apply rectangular_table; [done | intros k;
                                         by rewrite length_map, length_seq]).
  assert (Hlta : length ta = p) by (unfold ta; by rewrite length_map, length_seq).
  assert (Hltb : length tb = cb)
    by (unfold tb; by rewrite length_map, length_seq).
  assert (Htb : rectangular tb (length ta)).
  { rewrite Hlta. apply rectangular_table; [done|].
    intros k. by rewrite length_map, length_seq. }
  pose proof (MatrixFacts.standardProduct_rectangular a b p cb Ha Hb) as Hprod.
  eexists. split.
  - rewrite (ProductFacts.multiply2_conform a b cb) by done. cbn [bind].
    by apply (Matrix2Facts.transpose_rectangular _ cb).
  - rewrite (Matrix2Facts.transpose_rectangular b cb) by done.
    rewrite (Matrix2Facts.transpose_rectangular a p) by done.
    cbn [bind]. fold m p ta tb.
    rewrite (ProductFacts.multiply2_conform tb ta m) by done.
    do 2 f_equal.
    rewrite <- (MatrixFacts.product_table_standard tb ta m) by done.
    rewrite <- (MatrixFacts.product_table_standard a b cb) by done.
    rewrite length_map, length_seq, Hltb, Hlta. fold m p.
    apply map_ext_in. intros j Hj. apply in_seq in Hj.
    apply map_ext_in. intros i Hi. apply in_seq in Hi.
    rewrite (TransposeFacts.table_cell
               (fun i j => Matrix.dot a b p i j) m cb i j nan) by lia.
    unfold Matrix.dot. apply fold_left_ext_in. intros sum k Hk.
    apply in_seq in Hk. f_equal. unfold Matrix.cell.
    unfold ta, tb.
    rewrite (TransposeFacts.table_cell
               (fun j k => nth j (nth k b []) nan) cb p j k nan) by lia.
    rewrite (TransposeFacts.table_cell
               (fun k i => nth k (nth i a []) nan) p m k i nan) by lia.
    apply FloatAlgebra.mul_comm.
Qed.

Lemma transpose_of_product_witness :
  exists r,
    (let* p := Matrix2.multiply (H := Reference.host)
                 (Matrix2.mkMatrix [[1; 2]; [3; 4]; [5; 6]]%float)
                 (Matrix2.Mat (Matrix2.mkMatrix [[1; 0; 2]; [0; 1; 3]]%float))
     in Matrix2.transpose (H := Reference.host) p) = Ok r
    /\ (let* bt := Matrix2.transpose (H := Reference.host)
                     (Matrix2.mkMatrix [[1; 0; 2]; [0; 1; 3]]%float) in
        let* at' := Matrix2.transpose (H := Reference.host)
                      (Matrix2.mkMatrix [[1; 2]; [3; 4]; [5; 6]]%float) in
        Matrix2.multiply (H := Reference.host) bt (Matrix2.Mat at')) = Ok r.
Proof.
  apply (transpose_of_product (H := Reference.host) _ _ 2 3);
    [split; [done | repeat constructor]
    | split; [done | repeat constructor] | reflexivity | lia].
Defined.

(** X27.  What the constructor of the Matrix with typed results accepts: a
    grid with a first row and all rows as long as it is stored as it is; a
    grid without rows is rejected with "Invalid matrix data: expected 2D
    array", and a grid whose rows differ in length with "Invalid matrix
    data: rows must have equal length", both validation errors. *)
Theorem constructor_accepts {A : Type} (d : list (list A)) :
  match Matrix.newMatrix d with
  | Ok m => Matrix.getData m = d /\ rectangular d (length (hd [] d))
  | Throw e =>
      (d = []
       /\ e = SimulationError "Invalid matrix data: expected 2D array"
                validation None)
      \/ (d <> [] /\ ~ (exists cols, rectangular d cols)
          /\ e = SimulationError
                   "Invalid matrix data: rows must have equal length"
                   validation None)
  end.
Proof.
  unfold Matrix.newMatrix, Matrix.validateData.
  destruct d as [|row0 rest]; [by left|].
  destruct (forallb _ _) eqn:Hall; cbn [bind].
  - split; [done|]. split; [done|]. by apply forallb_length_Forall.
  - right. split; [done|]. split; [|done].
    intros [cols Hrect].
    pose proof (rectangular_hd _ _ Hrect) as Hhd. cbn [hd] in Hhd. subst cols.
    destruct Hrect as [_ Hrows].
    apply forallb_length_Forall in Hrows. congruence.
Qed.

(* ------------------------------------------------------------------------- *)
(** ** More on signals: lengths, generators, windows and envelopes *)

Module LengthFacts.
Section WithHost.
Context {H : Host}.

Lemma not_nan_shape (y : float) :
  Prim2SF y <> S754_nan -> is_nan y = false.
Proof.
  intros Hy. apply not_true_is_false. intros Hn.
  by apply FloatFacts.is_nan_shape in Hn.
Qed.

(** The typed array that [Math.floor(y)] sizes: no slot for NaN, a
    [RangeError] for an infinity, a negative floor or one beyond the
    engine's limit, and as many slots as the floor says otherwise. *)
Lemma floor_array (y : float) :
  newFloat64Array (Num.floor y)
  = if is_nan y then Ok 0%nat
    else match Num.floorZ y with
         | Some z =>
             if ((z <? 0) || (maxTypedArrayLength <? z))%bool
             then Throw (NativeError RangeError rangeErrorMessage)
             else Ok (Z.to_nat z)
         | None => Throw (NativeError RangeError rangeErrorMessage)
         end.
Proof.
  unfold Num.floor, Num.floorZ.
  destruct (Prim2SF y) as [s|s| |s m e] eqn:Hy.
  - unfold newFloat64Array, Num.truncZ. by rewrite Hy.
  - unfold newFloat64Array, Num.truncZ. by rewrite Hy.
  - unfold newFloat64Array.
    by rewrite (proj2 (FloatFacts.is_nan_shape y) Hy).
  - assert (Hnan : is_nan y = false)
      by (apply not_nan_shape; by rewrite Hy).
    rewrite Hnan.
    destruct (Z.leb_spec 0 e) as [He|He].
    + unfold newFloat64Array, Num.truncZ. rewrite Hnan, Hy.
      by destruct (Z.leb_spec 0 e); [|lia].
    + pose proof (FloorFacts.mantissa_bound y s m e Hy) as Hm.
      assert (Hpow : 1 <= 2 ^ (- e))
        by (pose proof (Z.pow_pos_nonneg 2 (- e)); lia).
      pose proof (FloorFacts.div_magnitude (Num.signedZ s m) (2 ^ (- e))
                    Hpow) as Hz.
      assert (Habs : Z.abs (Num.signedZ s m) = Z.pos m) by (by destruct s).
      rewrite Habs in Hz.
      destruct (Num.signedZ s m / 2 ^ (- e)) as [|q|q] eqn:Hq.
      * cbn [Z.eqb]. unfold newFloat64Array.
        change (is_nan zero) with false.
        by change (Num.truncZ zero) with (Some 0).
      * cbn [Z.eqb].
        destruct (FloorFacts.truncZ_ofZ false q) as [Ht Hn];
          [apply FloorFacts.small_digits; lia|].
        unfold newFloat64Array. cbn [Num.signedZ] in Ht, Hn.
        by rewrite Hn, Ht.
      * cbn [Z.eqb].
        destruct (FloorFacts.truncZ_ofZ true q) as [Ht Hn];
          [apply FloorFacts.small_digits; lia|].
        unfold newFloat64Array. cbn [Num.signedZ] in Ht, Hn.
        by rewrite Hn, Ht.
Qed.
End WithHost.
End LengthFacts.

(** X9.  [generateSine] with a length that no typed array can have -- the
    product of duration and sample rate is an infinity, or its floor is
    negative or beyond the engine's limit -- returns no Signal: it throws
    the computation error "Failed to generate sine signal", whose cause is
    the engine's [RangeError]. *)
Theorem sine_rejects_length `{H : Host}
        (frequency duration rate amplitude phase : float) :
  is_nan (duration * rate)%float = false ->
  match Num.floorZ (duration * rate)%float with
  | Some z => z < 0 \/ maxTypedArrayLength < z
  | None => True
  end ->
  Signal.generateSine frequency duration rate amplitude phase
  = Throw (SimulationError "Failed to generate sine signal" computation
             (Some (NativeError RangeError rangeErrorMessage))).
Proof.
  intros Hnan Hz. unfold Signal.generateSine.
  rewrite LengthFacts.floor_array, Hnan.
  destruct (Num.floorZ (duration * rate)%float) as [z|]; [|done].
  assert (((z <? 0) || (maxTypedArrayLength <? z))%bool = true) as ->;
    [|done].
  apply orb_true_iff. destruct Hz; [left | right]; by apply Z.ltb_lt.
Qed.

Lemma sine_rejects_length_witness :
  Signal.generateSine (H := Reference.host) 2 (-1) 44100 1 0
  = Throw (SimulationError "Failed to generate sine signal" computation
             (Some (NativeError RangeError
                      (rangeErrorMessage (Host := Reference.host))))).
Proof.
  apply (sine_rejects_length (H := Reference.host) 2 (-1) 44100 1 0).
  - reflexivity.
  - vm_compute. left. reflexivity.
Defined.

(** X10.  [generateSine] with a length that is not a number -- the product
    of duration and sample rate is NaN -- does not fail: it returns a
    Signal without samples, at the given sample rate, and reports success
    and no memory used. *)
Theorem sine_of_nan_length `{H : Host}
        (frequency duration rate amplitude phase : float) :
  is_nan (duration * rate)%float = true ->
  exists r,
    Signal.generateSine frequency duration rate amplitude phase = Ok r
    /\ Signal.getData (res_data r) = []
    /\ Signal.getSampleRate (res_data r) = rate
    /\ memoryUsed r = zero
    /\ success r = true.
Proof.
  intros Hnan. unfold Signal.generateSine.
  rewrite LengthFacts.floor_array, Hnan. cbn [bind].
  eexists. split; [reflexivity|]. by repeat split.
Qed.

Lemma sine_of_nan_length_witness :
  exists r,
    Signal.generateSine (H := Reference.host) 2 nan 44100 1 0 = Ok r
    /\ Signal.getData (res_data r) = []
    /\ Signal.getSampleRate (res_data r) = 44100%float
    /\ memoryUsed r = zero
    /\ success r = true.
Proof.
  apply (sine_of_nan_length (H := Reference.host) 2 nan 44100 1 0).
  reflexivity.
Defined.

(** X11.  Every sample of a Signal that [generateSquare] returns is the
    amplitude, its negative, or a zero; and when the product of duration and
    sample rate is a number, the Signal has as many samples as the floor of
    that product. *)
Theorem square_samples `{H : Host}
        (frequency duration rate amplitude : float)
        (r : SimulationResult Signal.Signal) :
  Signal.generateSquare frequency duration rate amplitude = Ok r ->
  Forall (fun v => v = amplitude \/ v = (- amplitude)%float
                   \/ is_zero v = true)
    (Signal.getData (res_data r))
  /\ (is_nan (duration * rate)%float = false ->
      Num.floorZ (duration * rate)%float
      = Some (Z.of_nat (length (Signal.getData (res_data r))))).
Proof.
  unfold Signal.generateSquare.
  destruct (newFloat64Array _) as [n|e] eqn:Hn; [|done]. cbn [bind tryCatch].
  rewrite fillArray_map.
  destruct (Signal.newSignal _ rate) as [s|e] eqn:Hs; [|done].
  apply SignalFacts.newSignal_ok in Hs as [-> Hd]. cbn [bind tryCatch].
  intros [= <-]. cbn [res_data Signal.getData Signal.data]. split.
  - rewrite Forall_forall in Hd. apply Forall_forall. intros v Hv.
    specialize (Hd v Hv). apply list_elem_of_In in Hv.
    apply in_map_iff in Hv as (i & <- & _).
    match goal with
    | |- context [Num.sign ?x] =>
        destruct (SignFacts.sign_cases x)
          as [Hsign|[[Hzero Hsign]|[Hsign|Hsign]]]; rewrite Hsign in *
    end.
    + by rewrite FloatFacts.mul_nan_r in Hd.
    + right. right. by apply SignFacts.mul_zero_r.
    + right. left. apply SignFacts.mul_neg_one.
    + left. apply FloatAlgebra.mul_one_r.
  - intros Hnan. rewrite length_map, length_seq.
    by apply FloorFacts.floor_length.
Qed.

Lemma square_samples_witness :
  exists r,
    Signal.generateSquare (H := Reference.host) 2 0.001 44100 1 = Ok r
    /\ Forall (fun v => v = 1%float \/ v = (- 1)%float \/ is_zero v = true)
         (Signal.getData (res_data r))
    /\ (is_nan (0.001 * 44100)%float = false ->
        Num.floorZ (0.001 * 44100)%float
        = Some (Z.of_nat (length (Signal.getData (res_data r))))).
Proof.
  eexists. split; [vm_compute; reflexivity|].
  refine (square_samples (H := Reference.host) 2 0.001 44100 1 _ _).
  vm_compute. reflexivity.
Defined.

Module WindowFacts.
Import Signal.

Section WithHost.
Context {H : Host}.

Lemma newSignal_zeros (n : nat) (rate : float) :
  newSignal (replicate n zero) rate
  = Ok (mkSignal (replicate n zero) rate ∅).
Proof.
  destruct (SignalFacts.newSignal_cases (replicate n zero) rate)
    as [Hok|Hbad]; [done|].
  unfold newSignal in Hbad.
  assert (Hvalid : validateData (replicate n zero) = Ok tt).
  { apply SignalFacts.validateData_ok, Forall_forall.
    intros v Hv. by apply elem_of_replicate in Hv as [-> _]. }
  by rewrite Hvalid in Hbad.
Qed.

(** The array that [applyWindow] fills has the length of the data. *)
Lemma applyWindow_ok (self : Signal) (window : WindowType)
      (r : SimulationResult Signal) :
  applyWindow self window = Ok r ->
  exists windowData,
    res_data r = mkSignal windowData (sampleRate self) ∅
    /\ length windowData = length (data self).
Proof.
  unfold applyWindow.
  destruct (newSignal _ (sampleRate self)) as [s|e] eqn:Hs; [|done].
  apply SignalFacts.newSignal_ok in Hs as [-> _]. cbn [bind tryCatch].
  intros [= <-]. eexists. split; [reflexivity|].
  destruct window; rewrite ?fillArray_map, ?length_map, ?length_seq,
                     ?length_replicate; done.
Qed.
End WithHost.
End WindowFacts.

(** X12.  [applyWindow] has a case for the Hamming and the Hanning window
    only: with the type "blackman" or "rectangular" it returns a Signal of
    zeros, as long as the receiver and at its sample rate. *)
Theorem window_without_case `{H : Host}
        (self : Signal.Signal) (window : Signal.WindowType) :
  window = Signal.blackman \/ window = Signal.rectangular ->
  exists r,
    Signal.applyWindow self window = Ok r
    /\ Signal.getData (res_data r)
       = replicate (length (Signal.getData self)) zero
    /\ Signal.getSampleRate (res_data r) = Signal.getSampleRate self.
Proof.
  intros [-> | ->]; unfold Signal.applyWindow;
    rewrite WindowFacts.newSignal_zeros; cbn [bind tryCatch];
    eexists; by repeat split.
Qed.

Lemma window_without_case_witness :
  exists r,
    Signal.applyWindow (H := Reference.host)
      (Signal.mkSignal [1; 2; 3]%float 1000 ∅) Signal.blackman = Ok r
    /\ Signal.getData (res_data r) = replicate 3 zero
    /\ Signal.getSampleRate (res_data r) = 1000%float.
Proof.
  apply (window_without_case (H := Reference.host)
           (Signal.mkSignal [1; 2; 3]%float 1000 ∅) Signal.blackman).
  by left.
Defined.

(** X13.  A Signal that [applyWindow] returns has as many samples as the
    receiver and its sample rate, and none of its metadata: the entries the
    receiver holds are not carried over. *)
Theorem window_keeps_length `{H : Host}
        (self : Signal.Signal) (window : Signal.WindowType)
        (r : SimulationResult Signal.Signal) :
  Signal.applyWindow self window = Ok r ->
  length (Signal.getData (res_data r)) = length (Signal.getData self)
  /\ Signal.getSampleRate (res_data r) = Signal.getSampleRate self
  /\ forall key, Signal.getMetadata key (res_data r) = None.
Proof.
  intros Hr. apply WindowFacts.applyWindow_ok in Hr as (w & -> & Hlen).
  by repeat split.
Qed.

Lemma window_keeps_length_witness :
  exists r,
    Signal.applyWindow (H := Reference.host)
      (Signal.mkSignal [1; 2; 3]%float 1000 (<["frequency" := 2%float]> ∅))
      Signal.hamming = Ok r
    /\ length (Signal.getData (res_data r)) = 3%nat
    /\ Signal.getSampleRate (res_data r) = 1000%float
    /\ forall key, Signal.getMetadata key (res_data r) = None.
Proof.
  pose proof (window_keeps_length (H := Reference.host)
                (Signal.mkSignal [1; 2; 3]%float 1000
                   (<["frequency" := 2%float]> ∅))
                Signal.hamming) as Hkeeps.
  destruct (Signal.applyWindow _ Signal.hamming) as [r|e] eqn:Hr.
  - exists r. split; [reflexivity|]. by apply Hkeeps.
  - vm_compute in Hr. discriminate.
Defined.

Module EnvelopeFacts.
Import Signal.

Lemma fold_left_skip_in {A B} (b : A -> bool) (g : list B -> A -> list B)
      (l : list A) (acc : list B) :
  (forall i, In i l -> b i = false) ->
  fold_left (fun extrema i => if b i then g extrema i else extrema) l acc
  = acc.
Proof.
  revert acc. induction l as [|i l IH]; intros acc Hb; [done|].
  cbn [fold_left]. rewrite (Hb i) by (by left).
  apply IH. intros k Hk. apply Hb. by right.
Qed.

Section WithHost.
Context {H : Host}.

Lemma findExtrema_none (type : EnvelopeType) (d : list float) :
  (forall i, (1 <= i)%nat -> (i + 1 < length d)%nat ->
             isExtremum type d i = false) ->
  findExtrema type d = [].
Proof.
  intros Hnone. unfold findExtrema.
  apply (fold_left_skip_in (isExtremum type d)
           (fun extrema i => extrema ++ [(i, nth i d nan)])).
  intros i Hi. apply in_seq in Hi. apply Hnone; lia.
Qed.
End WithHost.
End EnvelopeFacts.

(** X14.  The envelope of data without an interior extremum of the kind
    asked for -- any data of less than three samples, or monotone data --
    is NaN at every index: the weights add up to zero, and each point is
    0/0. *)
Theorem envelope_without_extrema `{H : Host}
        (d : list float) (type : Signal.EnvelopeType) :
  (forall i, (1 <= i)%nat -> (i + 1 < length d)%nat ->
             Signal.isExtremum type d i = false) ->
  Signal.computeEnvelope d type = replicate (length d) nan.
Proof.
  intros Hnone. apply DecomposeFacts.computeEnvelope_no_extrema.
  by apply EnvelopeFacts.findExtrema_none.
Qed.

Lemma envelope_without_extrema_witness :
  Signal.computeEnvelope (H := Reference.host) [1; 2]%float Signal.envMax
  = replicate 2 nan.
Proof.
  apply (envelope_without_extrema (H := Reference.host) [1; 2]%float
           Signal.envMax).
  intros i Hlow Hhigh. simpl in Hhigh. lia.
Defined.

(** X15.  [decompose] with the method "emd" and one mode at least never
    returns on a Signal that has a sample but no interior maximum (a single
    sample, two samples, a ramp): the first pass of the sifting loop turns
    the data into NaN, the criterion is never met, and whatever the number
    of passes allowed the loop has not ended. *)
Theorem decompose_never_returns `{H : Host}
        (self : Signal.Signal) (fuel k : nat) :
  Signal.getData self <> [] ->
  (forall i, (1 <= i)%nat -> (i + 1 < length (Signal.getData self))%nat ->
             Signal.isExtremum Signal.envMax (Signal.getData self) i = false) ->
  Signal.decompose fuel self Signal.emd (S k) = None.
Proof.
  intros Hd Hnone. unfold Signal.decompose. cbn [Signal.emdModes].
  rewrite DecomposeFacts.sift_diverges; [done | done|].
  by apply EnvelopeFacts.findExtrema_none.
Qed.

Lemma decompose_never_returns_witness :
  Signal.decompose (H := Reference.host) 1000
    (Signal.mkSignal [1; 2; 3]%float 1000 ∅) Signal.emd 2 = None.
Proof.
  apply (decompose_never_returns (H := Reference.host)
           (Signal.mkSignal [1; 2; 3]%float 1000 ∅) 1000 1).
  - done.
  - intros [|[|i]] Hlow Hhigh; simpl in Hhigh; [lia | reflexivity | lia].
Defined.

Module CriterionFacts.
Import Signal.

Lemma sub_self_zero (x : float) :
  is_nan x = false -> is_infinity x = false ->
  abs (x - x)%float = zero.
Proof.
  intros Hnan Hinf. apply Prim2SF_inj. rewrite abs_spec, sub_spec.
  change (Prim2SF zero) with (S754_zero false).
  destruct (Prim2SF x) as [s|s| |s m e] eqn:Hx.
  - by destruct s.
  - exfalso. unfold is_infinity in Hinf.
    rewrite FloatAxioms.eqb_spec, abs_spec, Hx in Hinf. done.
  - apply FloatFacts.is_nan_shape in Hx. congruence.
  - unfold SF64sub, SFsub. by rewrite Z.sub_diag.
Qed.

Lemma fold_left_fixed {A} (g : float -> A -> float) (l : list A)
      (s : float) :
  (forall i, In i l -> g s i = s) -> fold_left g l s = s.
Proof.
  induction l as [|i l IH]; intros Hg; [done|].
  cbn [fold_left]. rewrite (Hg i) by (by left).
  apply IH. intros k Hk. apply Hg. by right.
Qed.

Lemma fold_left_nan {A} (g : float -> A -> float) (l : list A) :
  (forall i, g nan i = nan) -> fold_left g l nan = nan.
Proof.
  intros Hg. apply fold_left_fixed. intros i _. apply Hg.
Qed.
End CriterionFacts.

(** X16.  The stopping criterion of the sifting loop: it holds between an
    array of finite numbers and itself, and it never holds when an element
    of the current array is NaN. *)
Theorem criterion_cases (current previous : list float) :
  (Forall (fun v => is_nan v = false /\ is_infinity v = false) current ->
   Signal.checkIMFCriterion current current = true)
  /\ (forall i, (i < length current)%nat -> is_nan (nth i current nan) = true ->
                Signal.checkIMFCriterion current previous = false).
Proof.
  split.
  - intros Hfinite. unfold Signal.checkIMFCriterion.
    rewrite CriterionFacts.fold_left_fixed; [done|].
    intros i Hi. apply in_seq in Hi.
    rewrite Forall_forall in Hfinite.
    destruct (Hfinite (nth i current nan)) as [Hnan Hinf].
    { apply list_elem_of_In, nth_In. lia. }
    by rewrite CriterionFacts.sub_self_zero.
  - intros i Hi Hnan. unfold Signal.checkIMFCriterion.
    apply FloatFacts.is_nan_nan in Hnan.
    replace (seq 0 (length current))
      with (seq 0 i ++ [i] ++ seq (S i) (length current - S i)).
    + rewrite !fold_left_app. cbn [fold_left].
      rewrite Hnan, FloatFacts.sub_nan_l.
      change (abs nan * abs nan)%float with nan.
      rewrite FloatFacts.add_nan_r.
      rewrite CriterionFacts.fold_left_nan; [done|].
      intros k. apply FloatFacts.add_nan_l.
    + change ([i] ++ ?l) with (i :: l).
      change (i :: seq (S i) (length current - S i))
        with (seq i (S (length current - S i))).
      rewrite <- seq_app. f_equal. lia.
Qed.

Lemma criterion_cases_witness :
  Signal.checkIMFCriterion [1; 2]%float [1; 2]%float = true.
Proof.
  apply (proj1 (criterion_cases [1; 2]%float [])).
  repeat constructor.
Defined.

(** X17.  Every sample of a Signal that [generateChirp] returns, whatever
    the method, is at most 1 in absolute value; the Signal has the sample
    rate of the options, or 44100 when they give none; and when the product
    of duration and sample rate is a number, it has as many samples as the
    floor of that product. *)
Theorem chirp_samples `{H : Host} `{!HostLaws H}
        (o : Signal.ChirpOptions) (r : SimulationResult Signal.Signal) :
  Signal.generateChirp o = Ok r ->
  Forall (fun v => (abs v <=? 1)%float = true) (Signal.getData (res_data r))
  /\ Signal.getSampleRate (res_data r)
     = default 44100%float (Signal.optSampleRate o)
  /\ (is_nan (Signal.duration o
              * default 44100 (Signal.optSampleRate o))%float = false ->
      Num.floorZ (Signal.duration o
                  * default 44100 (Signal.optSampleRate o))%float
      = Some (Z.of_nat (length (Signal.getData (res_data r))))).
Proof.
  intros Hr. split; [|split].
  - pose proof (SignalFacts.generateChirp_ok o r Hr) as Hd.
    unfold Signal.getData. rewrite Forall_forall in Hd.
    apply Forall_forall. intros v Hv.
    destruct (Hd v Hv) as [Hnan [a ->]]. by apply SignalFacts.sin_bounded.
  - unfold Signal.generateChirp in Hr.
    destruct (newFloat64Array _) as [n|e]; [|done]. cbn [bind] in Hr.
    destruct (Signal.newSignal _ _) as [s|e] eqn:Hs; [|done].
    apply SignalFacts.newSignal_ok in Hs as [-> _]. cbn [bind] in Hr.
    by injection Hr as <-.
  - intros Hnan. apply FloorFacts.floor_length; [done|].
    unfold Signal.generateChirp in Hr.
    destruct (newFloat64Array _) as [n|e]; [|done]. cbn [bind] in Hr.
    destruct (Signal.newSignal _ _) as [s|e] eqn:Hs; [|done].
    apply SignalFacts.newSignal_ok in Hs as [-> _]. cbn [bind] in Hr.
    injection Hr as <-. cbn [res_data Signal.getData Signal.data].
    f_equal. destruct (default true (Signal.method o));
      by rewrite fillArray_map, length_map, length_seq.
Qed.

Lemma chirp_samples_witness :
  exists r,
    Signal.generateChirp (H := Reference.host)
      (Signal.mkChirpOptions 10 1000 0.001 None None) = Ok r
    /\ Forall (fun v => (abs v <=? 1)%float = true)
         (Signal.getData (res_data r))
    /\ Signal.getSampleRate (res_data r) = 44100%float
    /\ (is_nan (0.001 * 44100)%float = false ->
        Num.floorZ (0.001 * 44100)%float
        = Some (Z.of_nat (length (Signal.getData (res_data r))))).
Proof.
  pose proof (chirp_samples (H := Reference.host)
                (Signal.mkChirpOptions 10 1000 0.001 None None)) as Hchirp.
  destruct (Signal.generateChirp _) as [r|e] eqn:Hr.
  - exists r. split; [reflexivity|]. by apply Hchirp.
  - vm_compute in Hr. discriminate.
Defined.

(** X18.  A Signal that [generateSine] returns records the call: its
    metadata holds the frequency, the duration, the amplitude and the phase
    under their names and nothing else, its sample rate is the one given,
    and the memory reported is eight bytes for each sample. *)
Theorem sine_records_call `{H : Host}
        (frequency duration rate amplitude phase : float)
        (r : SimulationResult Signal.Signal) :
  Signal.generateSine frequency duration rate amplitude phase = Ok r ->
  Signal.getMetadata "frequency" (res_data r) = Some frequency
  /\ Signal.getMetadata "duration" (res_data r) = Some duration
  /\ Signal.getMetadata "amplitude" (res_data r) = Some amplitude
  /\ Signal.getMetadata "phase" (res_data r) = Some phase
  /\ (forall key,
         key <> "frequency"%string -> key <> "duration"%string ->
         key <> "amplitude"%string -> key <> "phase"%string ->
         Signal.getMetadata key (res_data r) = None)
  /\ Signal.getSampleRate (res_data r) = rate
  /\ memoryUsed r
     = (Num.ofNat (length (Signal.getData (res_data r))) * 8)%float.
Proof.
  unfold Signal.generateSine.
  destruct (newFloat64Array _) as [n|e]; [|done]. cbn [bind tryCatch].
  destruct (Signal.newSignal _ rate) as [s|e] eqn:Hs; [|done].
  apply SignalFacts.newSignal_ok in Hs as [-> _]. cbn [bind tryCatch].
  intros [= <-].
  unfold Signal.getMetadata, Signal.setMetadata.
  cbn [res_data Signal.metadata Signal.data Signal.sampleRate
       Signal.getSampleRate Signal.getData memoryUsed].
  split; [|split; [|split; [|split; [|split; [|done]]]]].
  - do 3 (rewrite lookup_insert_ne by done). apply lookup_insert_eq.
  - do 2 (rewrite lookup_insert_ne by done). apply lookup_insert_eq.
  - rewrite lookup_insert_ne by done. apply lookup_insert_eq.
  - apply lookup_insert_eq.
  - intros key H1 H2 H3 H4.
    do 4 (rewrite lookup_insert_ne by done). apply lookup_empty.
Qed.

Lemma sine_records_call_witness :
  exists r,
    Signal.generateSine (H := Reference.host) 2 0.001 44100 1 0 = Ok r
    /\ Signal.getMetadata "frequency" (res_data r) = Some 2%float
    /\ Signal.getMetadata "duration" (res_data r) = Some 0.001%float
    /\ Signal.getMetadata "amplitude" (res_data r) = Some 1%float
    /\ Signal.getMetadata "phase" (res_data r) = Some 0%float
    /\ (forall key,
           key <> "frequency"%string -> key <> "duration"%string ->
           key <> "amplitude"%string -> key <> "phase"%string ->
           Signal.getMetadata key (res_data r) = None)
    /\ Signal.getSampleRate (res_data r) = 44100%float
    /\ memoryUsed r
       = (Num.ofNat (length (Signal.getData (res_data r))) * 8)%float.
Proof.
  pose proof (sine_records_call (H := Reference.host) 2 0.001 44100 1 0)
    as Hcall.
  destruct (Signal.generateSine _ _ _ _ _) as [r|e] eqn:Hr.
  - exists r. split; [reflexivity|]. by apply Hcall.
  - vm_compute in Hr. discriminate.
Defined.

Module Signal2Facts.
Import Signal2.

Lemma imap_zip_with {A B C} (f : A -> B -> C) (l1 : list A) (l2 : list B)
      (d : B) :
  length l1 = length l2 ->
  imap (fun i x => f x (nth i l2 d)) l1 = zip_with f l1 l2.
Proof.
  revert l2. induction l1 as [|x l1 IH]; intros [|y l2] Hlen;
    simpl in *; try done.
  f_equal. rewrite <- IH by lia.
  apply imap_ext. by intros i z _.
Qed.
End Signal2Facts.

(** X19.  [add] on two Signals: when the numbers of samples differ it
    throws "Signals must have the same length"; otherwise it returns the
    sample-by-sample sum at the sample rate of the receiver, and the samples
    of [a.add(b)] and of [b.add(a)] are the same. *)
Theorem signal_add_samples (a b : Signal2.Signal) :
  (length (Signal2.data a) <> length (Signal2.data b) ->
   Signal2.add a b = Throw (PlainError "Signals must have the same length"))
  /\ (length (Signal2.data a) = length (Signal2.data b) ->
      Signal2.add a b
      = Ok (Signal2.mkSignal
              (zip_with PrimFloat.add (Signal2.data a) (Signal2.data b))
              (Signal2.sampleRate a))
      /\ (let* s := Signal2.add a b in Ok (Signal2.data s))
         = (let* s := Signal2.add b a in Ok (Signal2.data s))).
Proof.
  assert (Hsum : forall x y,
             length (Signal2.data x) = length (Signal2.data y) ->
             Signal2.add x y
             = Ok (Signal2.mkSignal
                     (zip_with PrimFloat.add (Signal2.data x) (Signal2.data y))
                     (Signal2.sampleRate x))).
  { intros x y Hlen. unfold Signal2.add.
    rewrite Hlen, Nat.eqb_refl. cbn [negb].
    by rewrite (Signal2Facts.imap_zip_with PrimFloat.add). }
  split.
  - intros Hne. unfold Signal2.add.
    by destruct (Nat.eqb_spec (length (Signal2.data a))
                   (length (Signal2.data b))).
  - intros Hlen. split; [by apply Hsum|].
    rewrite (Hsum a b), (Hsum b a) by done. cbn [bind Signal2.data].
    f_equal. apply GridFacts.zip_with_comm, FloatAlgebra.add_comm.
Qed.

Lemma signal_add_samples_witness :
  Signal2.add (Signal2.newSignal [1; 2]%float) (Signal2.newSignal [3; 4]%float)
  = Ok (Signal2.mkSignal
          (zip_with PrimFloat.add [1; 2]%float [3; 4]%float) 1000)
  /\ (let* s := Signal2.add (Signal2.newSignal [1; 2]%float)
                  (Signal2.newSignal [3; 4]%float) in
      Ok (Signal2.data s))
     = (let* s := Signal2.add (Signal2.newSignal [3; 4]%float)
                    (Signal2.newSignal [1; 2]%float) in
        Ok (Signal2.data s)).
Proof.
  apply (proj2 (signal_add_samples (Signal2.newSignal [1; 2]%float)
                  (Signal2.newSignal [3; 4]%float))).
  reflexivity.
Defined.

(** X25.  [multiply] on a Signal scales every sample and keeps the number
    of samples and the sample rate; multiplying by 1 returns a Signal equal
    to the receiver. *)
Theorem signal_scale (self : Signal2.Signal) (scalar : float) :
  length (Signal2.data (Signal2.multiply self scalar))
  = length (Signal2.data self)
  /\ Signal2.sampleRate (Signal2.multiply self scalar)
     = Signal2.sampleRate self
  /\ (forall i, (i < length (Signal2.data self))%nat ->
                nth i (Signal2.data (Signal2.multiply self scalar)) nan
                = (nth i (Signal2.data self) nan * scalar)%float)
  /\ Signal2.multiply self 1 = self.
Proof.
  unfold Signal2.multiply. cbn [Signal2.data Signal2.sampleRate].
  split; [by rewrite length_map|]. split; [done|]. split.
  - intros i Hi.
    rewrite (nth_indep _ nan (nan * scalar)%float) by (by rewrite length_map).
    by rewrite (map_nth (fun val => (val * scalar)%float)).
  - destruct self as [d rate]. cbn [Signal2.data Signal2.sampleRate]. f_equal.
    rewrite <- (map_id d) at 2. apply map_ext. intros val.
    apply FloatAlgebra.mul_one_r.
Qed.

(** X26.  The Hanning window fails on a Signal of one sample as the Hamming
    window does: its factor is computed from the cosine of 0/0, the
    windowed sample is NaN, and [applyWindow] throws the computation error
    "Failed to apply window" with the constructor's validation error as its
    cause. *)
Theorem hanning_single_sample `{H : Host} `{!HostLaws H}
        (x rate : float) (meta : gmap string float) :
  Signal.applyWindow (Signal.mkSignal [x] rate meta) Signal.hanning
  = Throw (SimulationError "Failed to apply window" computation
             (Some (SimulationError
                      "Invalid signal data: array must contain only numbers"
                      validation None))).
Proof.
  unfold Signal.applyWindow. cbn [Signal.data length].
  rewrite fillArray_map. cbn [seq map nth]. unfold Signal.windowFactor.
  change ((2 * Num.PI * Num.ofNat 0) / (Num.ofNat 1 - 1))%float with nan.
  rewrite cos_nan. change (0.5 * (1 - nan))%float with nan.
  rewrite FloatFacts.mul_nan_r. reflexivity.
Qed.

Lemma hanning_single_sample_witness :
  Signal.applyWindow (H := Reference.host)
    (Signal.mkSignal [0.7%float] 1000%float ∅) Signal.hanning
  = Throw (SimulationError "Failed to apply window" computation
             (Some (SimulationError
                      "Invalid signal data: array must contain only numbers"
                      validation None))).
Proof.
  exact (hanning_single_sample (H := Reference.host) 0.7%float 1000%float ∅).
Defined.

(* ------------------------------------------------------------------------- *)
(** ** More on the Workspace: parentheses, comments, history, cells *)

Module ParenFacts.
Import Workspace.

Lemma closesFrom_start (s : string) (n : nat) :
  closesFrom s 0 false n <-> closesAt s n.
Proof.
  unfold closesFrom, closesAt. split.
  - intros (Hget & Hbal & [Hs|Hopen]); [done|]. repeat split; [done|lia|done].
  - intros (Hget & Hbal & Hopen). repeat split; [done|lia|by right].
Qed.

Lemma closesFrom_open (c : ascii) (rest : string) (count : Z)
      (startFound : bool) (n : nat) :
  Ascii.eqb c lparen = true ->
  closesFrom (String c rest) count startFound (S n)
  <-> closesFrom rest (count + 1) true n.
Proof.
  intros Hc. unfold closesFrom.
  assert (Hr : Ascii.eqb c rparen = false).
  { apply Ascii.eqb_eq in Hc. by subst c. }
  cbn [String.get Str.take occurrences]. rewrite Hc, Hr.
  split; intros (Hget & Hbal & Hopen); repeat split;
    try done; try lia; try (by left); right; lia.
Qed.

Lemma closesFrom_close (c : ascii) (rest : string) (count : Z)
      (startFound : bool) (n : nat) :
  Ascii.eqb c lparen = false -> Ascii.eqb c rparen = true ->
  closesFrom (String c rest) count startFound (S n)
  <-> closesFrom rest (count - 1) startFound n.
Proof.
  intros Hl Hr. unfold closesFrom.
  cbn [String.get Str.take occurrences]. rewrite Hl, Hr.
  split; intros (Hget & Hbal & Hopen); repeat split;
    try done; try lia.
Qed.

Lemma closesFrom_other (c : ascii) (rest : string) (count : Z)
      (startFound : bool) (n : nat) :
  Ascii.eqb c lparen = false -> Ascii.eqb c rparen = false ->
  closesFrom (String c rest) count startFound (S n)
  <-> closesFrom rest count startFound n.
Proof.
  intros Hl Hr. unfold closesFrom.
  cbn [String.get Str.take occurrences]. rewrite Hl, Hr.
  split; intros (Hget & Hbal & Hopen); repeat split;
    try done; try lia.
Qed.

(** The scan returns the first position that closes, and throws when there
    is none. *)
Lemma findMatchingFrom_spec (rest : string) :
  forall (i count : Z) (startFound : bool),
    match findMatchingFrom rest i count startFound with
    | Ok k =>
        exists n, k = i + Z.of_nat n
                  /\ closesFrom rest count startFound n
                  /\ forall j, (j < n)%nat ->
                               ~ closesFrom rest count startFound j
    | Throw e =>
        e = SimulationError "Unmatched parentheses" validation None
        /\ forall j, ~ closesFrom rest count startFound j
    end.
Proof.
  induction rest as [|c rest IH]; intros i count startFound.
  - cbn [findMatchingFrom]. split; [done|]. by intros j [Hget _].
  - cbn [findMatchingFrom].
    destruct (Ascii.eqb c lparen) eqn:Hl.
    { specialize (IH (i + 1) (count + 1) true).
      assert (H0 : ~ closesFrom (String c rest) count startFound 0).
      { intros [Hget _]. cbn in Hget. injection Hget as ->. done. }
      destruct (findMatchingFrom rest (i + 1) (count + 1) true) as [k|e].
      - destruct IH as (n & -> & Hn & Hmin). exists (S n).
        split; [lia|]. split; [by apply closesFrom_open|].
        intros [|j] Hj; [done|]. rewrite closesFrom_open by done.
        apply Hmin. lia.
      - destruct IH as [-> Hnone]. split; [done|].
        intros [|j]; [done|]. rewrite closesFrom_open by done.
        apply Hnone. }
    destruct (Ascii.eqb c rparen) eqn:Hr.
    { destruct (startFound && (count - 1 =? 0))%bool eqn:Htest.
      - apply andb_prop in Htest as [-> Hcount]. apply Z.eqb_eq in Hcount.
        exists 0%nat. split; [lia|]. split; [|intros j Hj; lia].
        unfold closesFrom. cbn [String.get Str.take occurrences].
        rewrite Hl, Hr. apply Ascii.eqb_eq in Hr. subst c.
        repeat split; [lia | by left].
      - specialize (IH (i + 1) (count - 1) startFound).
        assert (H0 : ~ closesFrom (String c rest) count startFound 0).
        { unfold closesFrom. cbn [String.get Str.take occurrences].
          rewrite Hl, Hr. intros (_ & Hbal & [Hs|Hopen]); [|simpl in Hopen; lia].
          subst startFound. cbn [andb] in Htest.
          apply Z.eqb_neq in Htest. simpl in Hbal. lia. }
        destruct (findMatchingFrom rest (i + 1) (count - 1) startFound)
          as [k|e].
        + destruct IH as (n & -> & Hn & Hmin). exists (S n).
          split; [lia|]. split; [by apply closesFrom_close|].
          intros [|j] Hj; [done|]. rewrite closesFrom_close by done.
          apply Hmin. lia.
        + destruct IH as [-> Hnone]. split; [done|].
          intros [|j]; [done|]. rewrite closesFrom_close by done.
          apply Hnone. }
    specialize (IH (i + 1) count startFound).
    assert (H0 : ~ closesFrom (String c rest) count startFound 0).
    { intros [Hget _]. cbn in Hget. injection Hget as ->.
      by rewrite Ascii.eqb_refl in Hr. }
    destruct (findMatchingFrom rest (i + 1) count startFound) as [k|e].
    + destruct IH as (n & -> & Hn & Hmin). exists (S n).
      split; [lia|]. split; [by apply closesFrom_other|].
      intros [|j] Hj; [done|]. rewrite closesFrom_other by done.
      apply Hmin. lia.
    + destruct IH as [-> Hnone]. split; [done|].
      intros [|j]; [done|]. rewrite closesFrom_other by done.
      apply Hnone.
Qed.
End ParenFacts.

(** X21.  [findMatchingParenthesis] returns the first position that holds a
    closing parenthesis balancing the opening ones before it (one at
    least), and throws the validation error "Unmatched parentheses" exactly
    when the expression has no such position. *)
Theorem matching_parenthesis (expr : string) :
  match Workspace.findMatchingParenthesis expr with
  | Ok k =>
      exists n, k = Z.of_nat n
                /\ closesAt expr n
                /\ forall j, (j < n)%nat -> ~ closesAt expr j
  | Throw e =>
      e = SimulationError "Unmatched parentheses" validation None
      /\ forall j, ~ closesAt expr j
  end.
Proof.
  unfold Workspace.findMatchingParenthesis.
  pose proof (ParenFacts.findMatchingFrom_spec expr 0 0 false) as Hspec.
  destruct (Workspace.findMatchingFrom expr 0 0 false) as [k|e].
  - destruct Hspec as (n & -> & Hn & Hmin). exists n.
    split; [lia|]. split; [by apply ParenFacts.closesFrom_start|].
    intros j Hj Hc. apply (Hmin j Hj). by apply ParenFacts.closesFrom_start.
  - destruct Hspec as [-> Hnone]. split; [done|].
    intros j Hc. apply (Hnone j). by apply ParenFacts.closesFrom_start.
Qed.

Module PrefixFacts.
Import Str.

Lemma startsWith_trans (p u t : string) :
  startsWith p u = true -> startsWith u t = true -> startsWith p t = true.
Proof.
  revert u t. induction p as [|a p IH]; intros u t; [done|].
  destruct u as [|b u]; [done|]. destruct t as [|c t]; [done|].
  cbn [startsWith]. intros Hpu Hut.
  apply andb_prop in Hpu as [Hab Hpu]. apply andb_prop in Hut as [Hbc Hut].
  apply Ascii.eqb_eq in Hab, Hbc. subst. rewrite Ascii.eqb_refl.
  by apply (IH u t).
Qed.

Lemma startsWith_take (n : nat) (s : string) :
  startsWith (take n s) s = true.
Proof.
  revert s. induction n as [|n IH]; intros [|c s]; try done.
  cbn [take startsWith]. by rewrite Ascii.eqb_refl, IH.
Qed.

Lemma startsWith_trimEnd (s : string) : startsWith (trimEnd s) s = true.
Proof.
  induction s as [|c s IH]; [done|]. cbn [trimEnd].
  destruct (isWhitespace c && isEmpty (trimEnd s))%bool; [done|].
  cbn [startsWith]. by rewrite Ascii.eqb_refl, IH.
Qed.

Lemma indexOf_missing_inv (p : string) (c : ascii) (s : string) :
  indexOf p (String c s) = -1 ->
  startsWith p (String c s) = false /\ indexOf p s = -1.
Proof.
  cbn [indexOf]. destruct (startsWith p (String c s)); [done|].
  intros Hi. split; [done|].
  destruct (StrFacts.indexOf_nonneg_or_missing p s) as [Hm|Hn]; [done|].
  destruct (Z.ltb_spec (indexOf p s) 0); lia.
Qed.

Lemma indexOf_missing_cons (p : string) (c : ascii) (s : string) :
  startsWith p (String c s) = false -> indexOf p s = -1 ->
  indexOf p (String c s) = -1.
Proof. intros Hs Hi. cbn [indexOf]. by rewrite Hs, Hi. Qed.

Lemma indexOf_missing_empty (p : string) :
  p <> EmptyString -> indexOf p EmptyString = -1.
Proof. intros Hp. by destruct p. Qed.

(** A prefix of a string without [p] is without [p]. *)
Lemma indexOf_prefix (p : string) :
  p <> EmptyString ->
  forall u t, startsWith u t = true -> indexOf p t = -1 ->
              indexOf p u = -1.
Proof.
  intros Hp. induction u as [|c u IH]; intros t Hut Ht.
  - by apply indexOf_missing_empty.
  - destruct t as [|c' t]; [done|].
    pose proof Hut as Hall. cbn [startsWith] in Hut.
    apply andb_prop in Hut as [Hc Hut].
    apply indexOf_missing_inv in Ht as [Hstart Ht].
    apply indexOf_missing_cons; [|by apply (IH t)].
    destruct (startsWith p (String c u)) eqn:Hpu; [|done].
    by rewrite (startsWith_trans p _ _ Hpu Hall) in Hstart.
Qed.

(** What comes before the first occurrence of [p] is without [p]. *)
Lemma indexOf_before_first (p : string) :
  p <> EmptyString ->
  forall s, 0 <= indexOf p s ->
            indexOf p (take (Z.to_nat (indexOf p s)) s) = -1.
Proof.
  intros Hp. induction s as [|c s IH].
  - by rewrite indexOf_missing_empty.
  - cbn [indexOf]. destruct (startsWith p (String c s)) eqn:Hstart.
    + intros _. by apply indexOf_missing_empty.
    + destruct (Z.ltb_spec (indexOf p s) 0) as [|Hi]; [lia|]. intros _.
      replace (Z.to_nat (indexOf p s + 1)) with (S (Z.to_nat (indexOf p s)))
        by lia.
      cbn [take]. apply indexOf_missing_cons; [|by apply IH].
      destruct (startsWith p (String c (take _ s))) eqn:Hpu; [|done].
      rewrite (startsWith_trans p _ (String c s) Hpu) in Hstart; [done|].
      cbn [startsWith]. by rewrite Ascii.eqb_refl, startsWith_take.
Qed.

Lemma indexOf_trimStart (p s : string) :
  indexOf p s = -1 -> indexOf p (trimStart s) = -1.
Proof.
  induction s as [|c s IH]; [done|]. intros Hs. cbn [trimStart].
  destruct (isWhitespace c); [|done].
  apply IH. by apply indexOf_missing_inv in Hs as [_ Hs].
Qed.

Lemma indexOf_trim (p s : string) :
  p <> EmptyString -> indexOf p s = -1 -> indexOf p (trim s) = -1.
Proof.
  intros Hp Hs. unfold trim.
  apply (indexOf_prefix p Hp _ (trimStart s)).
  - apply startsWith_trimEnd.
  - by apply indexOf_trimStart.
Qed.

Lemma take_all (n : nat) (s : string) :
  (String.length s <= n)%nat -> take n s = s.
Proof.
  revert s. induction n as [|n IH]; intros [|c s] Hn; simpl in *;
    try done; try lia.
  f_equal. apply IH. lia.
Qed.

Lemma substring_prefix (i : Z) (s : string) :
  0 <= i -> substring 0 i s = take (Z.to_nat i) s.
Proof.
  intros Hi. unfold substring.
  set (len := Z.of_nat (String.length s)).
  assert (Hlen : 0 <= len) by lia.
  replace (Z.min (Z.max 0 0) len) with 0 by lia.
  replace (Z.min (Z.max i 0) len) with (Z.min i len) by lia.
  replace (Z.min 0 (Z.min i len)) with 0 by lia.
  replace (Z.max 0 (Z.min i len)) with (Z.min i len) by lia.
  rewrite Z.sub_0_r. change (Z.to_nat 0) with 0%nat. cbn [drop].
  destruct (Z.le_gt_cases i len) as [Hle|Hgt].
  - by rewrite Z.min_l.
  - rewrite Z.min_r by lia. subst len. rewrite Nat2Z.id.
    rewrite !take_all; [done | lia | lia].
Qed.

Lemma trimEnd_idempotent (s : string) : trimEnd (trimEnd s) = trimEnd s.
Proof.
  induction s as [|c s IH]; [done|]. cbn [trimEnd].
  destruct (isWhitespace c && isEmpty (trimEnd s))%bool eqn:Hc; [done|].
  cbn [trimEnd]. by rewrite IH, Hc.
Qed.

Lemma trimStart_fixed (s : string) :
  match s with
  | EmptyString => True
  | String c _ => isWhitespace c = false
  end ->
  trimStart s = s.
Proof. destruct s as [|c s]; [done|]. cbn [trimStart]. by intros ->. Qed.

Lemma trimStart_head (s : string) :
  match trimStart s with
  | EmptyString => True
  | String c _ => isWhitespace c = false
  end.
Proof.
  induction s as [|c s IH]; [done|]. cbn [trimStart].
  by destruct (isWhitespace c) eqn:Hc.
Qed.

Lemma trim_idempotent (s : string) : trim (trim s) = trim s.
Proof.
  unfold trim. rewrite (trimStart_fixed (trimEnd (trimStart s))).
  - apply trimEnd_idempotent.
  - pose proof (trimStart_head s) as Hhead.
    destruct (trimStart s) as [|c t]; [done|]. cbn [trimEnd].
    rewrite Hhead. done.
Qed.
End PrefixFacts.

(** X22.  What [removeInlineComments] returns holds no comment marker and
    no white space at either end: "//" does not occur in it, and trimming
    it changes nothing. *)
Theorem comments_removed (line : string) :
  Str.indexOf "//" (Workspace.removeInlineComments line) = -1
  /\ Str.trim (Workspace.removeInlineComments line)
     = Workspace.removeInlineComments line.
Proof.
  unfold Workspace.removeInlineComments.
  destruct (Z.eqb_spec (Str.indexOf "//" line) (-1)) as [Hnone|Hsome];
    cbn [negb].
  - split; [by apply PrefixFacts.indexOf_trim|].
    apply PrefixFacts.trim_idempotent.
  - split; [|apply PrefixFacts.trim_idempotent].
    apply PrefixFacts.indexOf_trim; [done|].
    destruct (StrFacts.indexOf_nonneg_or_missing "//" line) as [|Hi]; [done|].
    rewrite PrefixFacts.substring_prefix by done.
    by apply PrefixFacts.indexOf_before_first.
Qed.

Module HistoryFacts.
Import Workspace.

Section WithHost.
Context {H : Host}.

Lemma executeLine_history (ws ws' : Workspace) (line : string)
      (r : Result string) :
  executeLine ws line = (ws', r) -> history ws' = history ws.
Proof.
  intros Hline.
  by destruct (WorkspaceFacts.executeLine_variables _ _ _ _ Hline)
    as [->|(name & value & _ & ->)].
Qed.

Lemma executeLines_history (lines : list string) :
  forall (ws : Workspace) (result : string),
  exists added,
    history (fst (executeLines ws lines result)) = history ws ++ added
    /\ sublist added lines.
Proof.
  induction lines as [|line lines IH]; intros ws result.
  - exists []. by rewrite app_nil_r.
  - cbn [executeLines].
    destruct (executeLine ws (removeInlineComments line))
      as [w [out|e]] eqn:Hline.
    + pose proof (executeLine_history _ _ _ _ Hline) as Hw.
      destruct (Str.isEmpty out).
      * destruct (IH w result) as (added & Hadded & Hsub).
        exists added. rewrite Hadded, Hw. split; [done|].
        by apply sublist_cons.
      * destruct (IH (pushHistory line w)
                    (result +:+ out +:+ String Str.newline EmptyString))
          as (added & Hadded & Hsub).
        exists (line :: added). rewrite Hadded. cbn [pushHistory history].
        rewrite Hw, <- app_assoc. split; [done|].
        by apply sublist_skip.
    + exists []. cbn [fst]. rewrite app_nil_r.
      split; [by apply (executeLine_history _ _ _ _ Hline)|].
      apply sublist_nil_l.
Qed.
End WithHost.
End HistoryFacts.

(** X23.  [execute] only appends to the history: whether it returns or
    throws, the history afterwards is the history before followed by some
    of the source lines of the code, in their order. *)
Theorem history_grows `{H : Host} (ws : Workspace.Workspace)
        (code : string) :
  exists added,
    Workspace.history (fst (Workspace.execute ws code))
    = Workspace.history ws ++ added
    /\ sublist added (Workspace.sourceLines code).
Proof.
  destruct (HistoryFacts.executeLines_history (Workspace.sourceLines code)
              ws EmptyString) as (added & Hadded & Hsub).
  exists added. split; [|done]. unfold Workspace.execute.
  by destruct (Workspace.executeLines ws (Workspace.sourceLines code)
                 EmptyString).
Qed.

Module CellFacts.
Import Workspace.

Lemma includes_trimStart (c : ascii) (s : string) :
  Str.includes c s = false -> Str.includes c (Str.trimStart s) = false.
Proof.
  induction s as [|d s IH]; [done|]. cbn [Str.trimStart].
  destruct (Str.isWhitespace d); [|done].
  cbn [Str.includes]. intros Hs. apply orb_false_iff in Hs as [_ Hs].
  by apply IH.
Qed.

Lemma includes_trimEnd (c : ascii) (s : string) :
  Str.includes c s = false -> Str.includes c (Str.trimEnd s) = false.
Proof.
  induction s as [|d s IH]; [done|]. cbn [Str.trimEnd Str.includes].
  intros Hs. apply orb_false_iff in Hs as [Hd Hs].
  destruct (Str.isWhitespace d && Str.isEmpty (Str.trimEnd s))%bool;
    [done|].
  cbn [Str.includes]. by rewrite Hd, IH.
Qed.

Lemma includes_trim (c : ascii) (s : string) :
  Str.includes c s = false -> Str.includes c (Str.trim s) = false.
Proof.
  intros Hs. by apply includes_trimEnd, includes_trimStart.
Qed.

Lemma split_segments (c : ascii) (s : string) :
  Forall (fun seg => Str.includes c seg = false) (Str.split c s).
Proof.
  induction s as [|d s IH]; [by repeat constructor|].
  cbn [Str.split]. destruct (Ascii.eqb d c) eqn:Hd.
  - by constructor.
  - destruct (Str.split c s) as [|h t].
    { constructor; [|constructor]. cbn [Str.includes]. by rewrite Hd. }
    inversion IH as [|? ? Hh Ht]; subst. constructor; [|done].
    cbn [Str.includes]. by rewrite Hd, Hh.
Qed.

(** A source line is a line of its own: trimmed, without a line break,
    neither empty nor a comment. *)
Lemma sourceLines_line (code line : string) :
  In line (sourceLines code) -> sourceLines line = [line].
Proof.
  unfold sourceLines at 1. intros Hin.
  apply filter_In in Hin as [Hin Hkeep].
  apply in_map_iff in Hin as (seg & <- & Hseg).
  pose proof (split_segments Str.newline code) as Hsegs.
  rewrite Forall_forall in Hsegs.
  pose proof (Hsegs seg (proj2 (list_elem_of_In _ _) Hseg)) as Hnl.
  apply includes_trim in Hnl.
  unfold sourceLines.
  pose proof (StrFacts.split_includes Str.newline (Str.trim seg)) as Hs.
  rewrite Hnl in Hs. rewrite Hs. cbn [map List.filter].
  by rewrite PrefixFacts.trim_idempotent, Hkeep.
Qed.

Section WithHost.
Context {H : Host}.

(** [execute] on a line of its own. *)
Lemma execute_line (ws : Workspace) (line : string) :
  sourceLines line = [line] ->
  execute ws line
  = match executeLine ws (removeInlineComments line) with
    | (ws', Throw err) => (ws', Throw (executionError err))
    | (ws', Ok out) =>
        if Str.isEmpty out then (ws', Ok EmptyString)
        else (pushHistory line ws',
              Ok (Str.trim (out +:+ String Str.newline EmptyString)))
    end.
Proof.
  intros Hline. unfold execute. rewrite Hline. cbn [executeLines].
  destruct (executeLine ws (removeInlineComments line)) as [w [out|e]];
    [|done].
  by destruct (Str.isEmpty out).
Qed.

(** Line by line, the loop of a cell and the loop of [execute] leave the
    same Workspace and fail on the same line. *)
Lemma runLines_executeLines (lines : list string) :
  Forall (fun line => sourceLines line = [line]) lines ->
  forall (ws : Workspace) (outputs : list string)
         (plots : list Notebook.Plot) (result : string),
    fst (Notebook.runLines ws lines outputs plots)
    = fst (executeLines ws lines result)
    /\ match snd (Notebook.runLines ws lines outputs plots),
             snd (executeLines ws lines result) with
       | Ok _, Ok _ => True
       | Throw e, Throw e' => e = executionError e'
       | _, _ => False
       end.
Proof.
  induction 1 as [|line lines Hline _ IH]; intros ws outputs plots result;
    [done|].
  cbn [Notebook.runLines executeLines].
  rewrite (execute_line ws line Hline).
  destruct (executeLine ws (removeInlineComments line)) as [w [out|e]];
    [|done].
  destruct (Str.isEmpty out); apply IH.
Qed.
End WithHost.
End CellFacts.

(** X24.  Running a cell of the notebook, which hands every line to
    [execute] on its own, leaves the Workspace exactly as one call of
    [execute] on the whole code of the cell would; the cell shows an error
    exactly when that call throws, with the same message; and a cell that
    shows an error shows neither outputs nor plots, whatever the lines
    before the failing one produced. *)
Theorem cell_runs_like_execute `{H : Host}
        (ws : Workspace.Workspace) (cell : Notebook.Cell) :
  fst (Notebook.executeCell ws cell)
  = fst (Workspace.execute ws (Notebook.code cell))
  /\ Notebook.error (snd (Notebook.executeCell ws cell))
     = match snd (Workspace.execute ws (Notebook.code cell)) with
       | Ok _ => None
       | Throw err => Some (message err)
       end
  /\ (is_Some (Notebook.error (snd (Notebook.executeCell ws cell))) ->
      Notebook.output (snd (Notebook.executeCell ws cell)) = []
      /\ Notebook.plots (snd (Notebook.executeCell ws cell)) = []).
Proof.
  assert (Hlines : Forall (fun line => Workspace.sourceLines line = [line])
                     (Workspace.sourceLines (Notebook.code cell))).
  { apply Forall_forall. intros line Hline.
    apply (CellFacts.sourceLines_line (Notebook.code cell)).
    by apply list_elem_of_In. }
  pose proof (CellFacts.runLines_executeLines _ Hlines ws [] [] EmptyString)
    as [Hws Herr].
  unfold Notebook.executeCell, Workspace.execute.
  destruct (Notebook.runLines ws _ [] []) as [w1 [[outputs plots]|e1]];
    destruct (Workspace.executeLines ws _ EmptyString) as [w2 [out|e2]];
    cbn [fst snd] in *; try done.
  - subst. split; [done|]. split; [done|]. by intros [x Hx].
  - subst. by repeat split.
Qed.

Lemma execute_fails_at_line_witness :
  exists pre bad post out cause,
    Workspace.sourceLines twoLines = pre ++ bad :: post
    /\ Workspace.executeLines (H := Reference.host) Workspace.newWorkspace pre
         EmptyString
       = (fst (Workspace.execute (H := Reference.host) Workspace.newWorkspace
                 twoLines), Ok out)
    /\ Workspace.executeLineTry (H := Reference.host)
         (fst (Workspace.execute (H := Reference.host) Workspace.newWorkspace
                 twoLines))
         (Workspace.removeInlineComments bad)
       = (fst (Workspace.execute (H := Reference.host) Workspace.newWorkspace
                 twoLines), Throw cause)
    /\ Workspace.executionError (Workspace.lineError "badExpr(" unmatched)
       = Workspace.executionError
           (Workspace.lineError (Workspace.removeInlineComments bad) cause).
Proof.
  apply (execute_fails_at_line (H := Reference.host) Workspace.newWorkspace
           twoLines).
  vm_compute. reflexivity.
Defined.

Lemma cell_runs_like_execute_witness :
  Notebook.output
    (snd (Notebook.executeCell (H := Reference.host) Workspace.newWorkspace
            (Notebook.mkCell "1" twoLines [] None []))) = []
  /\ Notebook.plots
       (snd (Notebook.executeCell (H := Reference.host) Workspace.newWorkspace
               (Notebook.mkCell "1" twoLines [] None []))) = [].
Proof.
  apply (cell_runs_like_execute (H := Reference.host) Workspace.newWorkspace
           (Notebook.mkCell "1" twoLines [] None [])).
  vm_compute. by eexists.
Defined.

Module ReadFacts.
Import Workspace.

Section WithHost.
Context {H : Host}.

(** An expression without a parenthesis is a number when it reads as
    one, and a variable otherwise. *)
Lemma evaluateExpression_atom (vars : gmap string WorkspaceValue)
      (expr : string) :
  expr <> EmptyString -> Str.includes lparen expr = false ->
  evaluateExpression vars expr
  = if negb (Num.isNaN (Number expr)) then Ok (VNumber (Number expr))
    else match vars !! expr with
         | Some value => Ok value
         | None =>
             Throw (SimulationError
                      ("Cannot evaluate expression: '" +:+ expr +:+ "'")
                      validation None)
         end.
Proof.
  intros Hne Hparen. unfold evaluateExpression.
  destruct expr as [|c expr]; [done|].
  cbn [String.length evaluateExpressionAt Str.isEmpty].
  by rewrite Hparen.
Qed.
End WithHost.
End ReadFacts.

(** X28.  Reading back what an assignment bound: after a line that assigns
    a value to a name, evaluating that name gives the value -- unless the
    name reads as a number, in which case evaluating it gives that number
    and the binding is out of reach.  (A name with a parenthesis in it is a
    call, and is not covered.) *)
Theorem assigned_name_reads_back `{H : Host}
        (ws : Workspace.Workspace) (line name expression : string)
        (rest : list string) (value : Workspace.WorkspaceValue) :
  map Str.trim (Str.split Workspace.equals line) = name :: expression :: rest ->
  name <> EmptyString -> expression <> EmptyString ->
  Workspace.evaluateExpression (Workspace.variables ws) expression = Ok value ->
  Str.includes Workspace.lparen name = false ->
  Workspace.evaluateExpression
    (Workspace.variables (fst (Workspace.executeLine ws line))) name
  = if is_nan (Number name) then Ok value
    else Ok (Workspace.VNumber (Number name)).
Proof.
  intros Hsplit Hname Hexpr Hvalue Hparen.
  rewrite (WorkspaceFacts2.executeLine_assignment ws line name expression rest)
    by done.
  rewrite Hvalue. cbn [fst].
  rewrite ReadFacts.evaluateExpression_atom by done.
  unfold Num.isNaN. destruct (is_nan (Number name)); [|done]. cbn [negb].
  unfold Workspace.setVariable. cbn [Workspace.variables].
  by rewrite lookup_insert_eq.
Qed.

Lemma assigned_name_reads_back_witness :
  Workspace.evaluateExpression (H := Reference.host)
    (Workspace.variables
       (fst (Workspace.executeLine (H := Reference.host)
               Workspace.newWorkspace "a = 1"))) "a"
  = if is_nan (Number (Host := Reference.host) "a")
    then Ok (Workspace.VNumber 1)
    else Ok (Workspace.VNumber (Number (Host := Reference.host) "a")).
Proof.
  apply (assigned_name_reads_back (H := Reference.host)
           Workspace.newWorkspace "a = 1" "a" "1" []);
    [reflexivity | discriminate | discriminate | vm_compute; reflexivity
    | reflexivity].
Defined.

(** X29.  What a line can do to the Workspace: [executeLine] either leaves
    it as it was, or the line is an assignment that succeeded and the only
    change is the binding of the assigned name.  A line that throws, and a
    line without an equals sign, change nothing. *)
Theorem line_effect `{H : Host} (ws : Workspace.Workspace) (line : string) :
  (fst (Workspace.executeLine ws line) = ws
   \/ exists name value out,
        Workspace.assignedName line = Some name
        /\ Workspace.executeLine ws line
           = (Workspace.setVariable name value ws, Ok out))
  /\ (forall err, snd (Workspace.executeLine ws line) = Throw err ->
                  fst (Workspace.executeLine ws line) = ws)
  /\ (Str.includes Workspace.equals line = false ->
      fst (Workspace.executeLine ws line) = ws).
Proof.
  destruct (Workspace.executeLine ws line) as [ws' r] eqn:Hline.
  cbn [fst snd]. split; [|split].
  - destruct r as [out|err].
    + destruct (WorkspaceFacts.executeLine_variables _ _ _ _ Hline)
        as [->|(name & value & Hname & ->)]; [by left|].
      right. by exists name, value, out.
    + left. by apply (WorkspaceFacts.executeLine_throw _ _ _ _ Hline).
  - intros err ->. by apply (WorkspaceFacts.executeLine_throw _ _ _ _ Hline).
  - intros Hno.
    destruct (WorkspaceFacts.executeLine_variables _ _ _ _ Hline)
      as [->|(name & value & Hname & ->)]; [done|].
    unfold Workspace.assignedName in Hname. by rewrite Hno in Hname.
Qed.

Lemma line_effect_witness :
  fst (Workspace.executeLine (H := Reference.host) Workspace.newWorkspace
         "badExpr(") = Workspace.newWorkspace.
Proof.
  apply (proj1 (proj2 (line_effect (H := Reference.host)
                         Workspace.newWorkspace "badExpr("))
           (Workspace.lineError "badExpr(" unmatched)).
  vm_compute. reflexivity.
Defined.
